(** * FILEORGANIZER: a shallow embedding of [file_organizer.py]

    The development follows the Python module function by function.
    Part I embeds the program: the Python values it manipulates
    (strings, exceptions, dicts, JSON text), the operating-system state
    it acts on, and then every function of the move-plan engine under
    its own name.  Part II states and proves the properties of the
    specification against these definitions. *)

From Stdlib Require Import ZArith Lia Bool List Ascii String DecimalString.
From stdpp Require Import base option list gmap strings.

Local Open Scope Z_scope.

(* ================================================================== *)
(** * Part I.  The program                                            *)
(* ================================================================== *)

(** ** Python values *)

Module Py.

(** The exception classes the program can meet.  [isinstance] tests in
    the source only distinguish [PermissionError] and
    [FileNotFoundError]; none of the classes below is a subclass of
    one of those two.  [SameFileError] is the error of [shutil] when a
    file is copied onto itself. *)
Inductive exn : Type :=
| PermissionError
| FileNotFoundError
| FileExistsError
| SameFileError
| JSONDecodeError
| ValueError
| EOFError
| OSError.

Global Instance exn_eq_dec : EqDecision exn.
Proof. solve_decision. Defined.

(** The classes that derive from [OSError], which is what the fallback
    of [shutil.move] catches. *)
Definition is_OSError (e : exn) : bool :=
  match e with
  | PermissionError | FileNotFoundError | FileExistsError | SameFileError | OSError => true
  | JSONDecodeError | ValueError | EOFError => false
  end.

(** [str(e)], as it is spliced into log messages.  The text of an
    exception belongs to the instance (it names the file, or the place
    in the text where decoding stopped); the text given here stands for
    it, one per class, and no property below rests on it. *)
Definition str_exn (e : exn) : string :=
  match e with
  | PermissionError => "[Errno 13] Permission denied"
  | FileNotFoundError => "[Errno 2] No such file or directory"
  | FileExistsError => "[Errno 17] File exists"
  | SameFileError => "are the same file"
  | JSONDecodeError => "Expecting value"
  | ValueError => "invalid value"
  | EOFError => "EOF when reading a line"
  | OSError => "[Errno 5] Input/output error"
  end.

(** [str(n)] for an [int]. *)
Definition str_int (n : Z) : string := NilZero.string_of_int (Z.to_int n).

(** Code point of a character; strings range over code points 0..255. *)
Definition ord (c : ascii) : N := N_of_ascii c.
Definition chr (n : N) : ascii := ascii_of_N n.

(** [str.lower] on one character: A-Z and the Latin-1 capitals
    (U+00C0..U+00DE except the multiplication sign U+00D7). *)
Definition lower_char (c : ascii) : ascii :=
  let n := ord c in
  if ((65 <=? n) && (n <=? 90))%N then chr (n + 32)
  else if ((192 <=? n) && (n <=? 222) && negb (n =? 215))%N then chr (n + 32)
  else c.

Fixpoint lower (s : string) : string :=
  match s with
  | EmptyString => EmptyString
  | String c s' => String (lower_char c) (lower s')
  end.

(** [q in s] on strings: [q] occurs in [s] as a contiguous substring. *)
Fixpoint contains (q s : string) : bool :=
  String.prefix q s ||
  match s with
  | EmptyString => false
  | String _ s' => contains q s'
  end.

(** [str.isspace] on one character of the range 0..255. *)
Definition is_space (c : ascii) : bool :=
  let n := ord c in
  (((9 <=? n) && (n <=? 13)) || ((28 <=? n) && (n <=? 32))
   || (n =? 133) || (n =? 160))%N.

Fixpoint lstrip (s : string) : string :=
  match s with
  | String c s' => if is_space c then lstrip s' else s
  | EmptyString => EmptyString
  end.

Fixpoint rstrip (s : string) : string :=
  match s with
  | EmptyString => EmptyString
  | String c s' =>
      match rstrip s' with
      | EmptyString => if is_space c then EmptyString else String c EmptyString
      | r => String c r
      end
  end.

(** [s.strip()]. *)
Definition strip (s : string) : string := rstrip (lstrip s).

(** [s.startswith(c)] and [s.endswith(c)] for a one-character [c]. *)
Definition startswith_char (c : ascii) (s : string) : bool :=
  match s with
  | String c' _ => Ascii.eqb c c'
  | EmptyString => false
  end.

Fixpoint endswith_char (c : ascii) (s : string) : bool :=
  match s with
  | EmptyString => false
  | String c' EmptyString => Ascii.eqb c c'
  | String _ s' => endswith_char c s'
  end.

(** A [dict] with string keys and string values.  Python dicts keep
    insertion order, and [json.dump] writes the items in that order,
    so the model is an association list with at most one item per key. *)
Definition dict : Type := list (string * string).

Definition dict_get (k : string) (d : dict) : option string :=
  snd <$> List.find (fun kv => String.eqb (fst kv) k) d.

Definition dict_mem (k : string) (d : dict) : bool :=
  existsb (fun kv => String.eqb (fst kv) k) d.

(** [d[k] = v]: overwrite in place when [k] is present, append otherwise. *)
Fixpoint dict_set (k v : string) (d : dict) : dict :=
  match d with
  | [] => [(k, v)]
  | (k', v') :: d' =>
      if String.eqb k' k then (k', v) :: d' else (k', v') :: dict_set k v d'
  end.

(** [d.update(other)]. *)
Definition dict_update (d other : dict) : dict :=
  fold_left (fun acc kv => dict_set (fst kv) (snd kv) acc) other d.

Definition keys (d : dict) : list string := map fst d.

End Py.
Export Py.

(** ** JSON text, as [json.dump] writes it and [json.load] reads it

    The two stores of the program (the movement log and the custom
    rules) hold one JSON object whose values are strings.
    [dumps_empty] and [dumps_indent4] follow [json.dump(d, f)] and
    [json.dump(d, f, indent=4)] with the default [ensure_ascii=True];
    [loads] follows [json.load] on such objects.  It answers [None]
    where the decoder raises [JSONDecodeError], and also for JSON that
    lies outside the model's dicts and strings: any other JSON value, an
    object holding anything but string values, an escape above U+00FF.
    [rejects] tells the two apart: it is [true] only for a text that
    [json.load] is sure to refuse. *)

Module Json.

Definition dquote : ascii := "034"%char.
Definition backslash : ascii := "092"%char.

(** The hexadecimal digit of a value below 16, in lower case as
    [json.dump] writes it, and the value of a digit of either case. *)
Definition hex_digit (n : N) : ascii :=
  if (n <? 10)%N then chr (ord "0" + n) else chr (ord "a" + (n - 10)).

Definition hex_value (c : ascii) : option N :=
  let n := ord c in
  if ((ord "0" <=? n) && (n <=? ord "9"))%N then Some (n - ord "0")%N
  else if ((ord "a" <=? n) && (n <=? ord "f"))%N then Some (n - ord "a" + 10)%N
  else if ((ord "A" <=? n) && (n <=? ord "F"))%N then Some (n - ord "A" + 10)%N
  else None.

(** One character of [py_encode_basestring_ascii]: the two-character
    escapes, then [\u00xx] for everything outside space..tilde. *)
Definition escape_char (c : ascii) : string :=
  match c with
  | "034" => String backslash (String dquote EmptyString)
  | "092" => String backslash (String backslash EmptyString)
  | "010" => String backslash "n"
  | "013" => String backslash "r"
  | "009" => String backslash "t"
  | "008" => String backslash "b"
  | "012" => String backslash "f"
  | _ =>
      let n := ord c in
      if ((32 <=? n) && (n <=? 126))%N then String c EmptyString
      else String backslash
             (String "u" (String "0" (String "0"
               (String (hex_digit (n / 16)) (String (hex_digit (n mod 16)) EmptyString)))))
  end%char.

Fixpoint escape (s : string) : string :=
  match s with
  | EmptyString => EmptyString
  | String c s' => escape_char c +:+ escape s'
  end.

Definition quote (s : string) : string :=
  String dquote (escape s +:+ String dquote EmptyString).

Definition newline : string := String "010" EmptyString.

(** One [key: value] item, with the key separator [": "]. *)
Definition item (kv : string * string) : string :=
  quote (fst kv) +:+ ": " +:+ quote (snd kv).

Fixpoint more_items (d : dict) : string :=
  match d with
  | [] => EmptyString
  | kv :: d' => "," +:+ newline +:+ "    " +:+ item kv +:+ more_items d'
  end.

(** [json.dumps(d, indent=4)]. *)
Definition dumps_indent4 (d : dict) : string :=
  match d with
  | [] => "{}"
  | kv :: d' => "{" +:+ newline +:+ "    " +:+ item kv +:+ more_items d' +:+ newline +:+ "}"
  end.

(** [json.dumps(d)] is only ever applied to the empty dict. *)
Definition dumps_empty : string := "{}".

Definition is_ws (c : ascii) : bool :=
  match c with
  | " " | "009" | "010" | "013" => true
  | _ => false
  end%char.

Fixpoint skip_ws (s : string) : string :=
  match s with
  | String c s' => if is_ws c then skip_ws s' else s
  | EmptyString => EmptyString
  end.

(** The decoder's [scanstring], entered after the opening quote: the
    decoded string and the text after the closing quote.  Control
    characters are refused (strict mode). *)
Fixpoint scanstring (s : string) : option (string * string) :=
  match s with
  | EmptyString => None
  | String "034" rest => Some (EmptyString, rest)
  | String "092" EmptyString => None
  | String "092" (String e rest) =>
      let continue (c : ascii) (r : string) :=
        match scanstring r with
        | Some (t, r') => Some (String c t, r')
        | None => None
        end in
      match e with
      | "034" => continue dquote rest
      | "092" => continue backslash rest
      | "/" => continue "/" rest
      | "b" => continue "008" rest
      | "f" => continue "012" rest
      | "n" => continue "010" rest
      | "r" => continue "013" rest
      | "t" => continue "009" rest
      | "u" =>
          match rest with
          | String h3 (String h2 (String h1 (String h0 rest'))) =>
              match hex_value h3, hex_value h2, hex_value h1, hex_value h0 with
              | Some 0%N, Some 0%N, Some a, Some b =>
                  match scanstring rest' with
                  | Some (t, r') => Some (String (chr (a * 16 + b)) t, r')
                  | None => None
                  end
              | _, _, _, _ => None
              end
          | _ => None
          end
      | _ => None
      end
  | String c rest =>
      if (ord c <? 32)%N then None
      else match scanstring rest with
           | Some (t, r') => Some (String c t, r')
           | None => None
           end
  end%char.

(** The members of an object, entered at the opening quote of a key;
    [acc] is the dict built so far.  A repeated key keeps its first
    position and takes the last value, as a Python dict does. *)
Fixpoint members (fuel : nat) (s : string) (acc : dict) : option (dict * string) :=
  match fuel with
  | O => None
  | S fuel' =>
      match s with
      | String "034" s1 =>
          match scanstring s1 with
          | Some (k, s2) =>
              match skip_ws s2 with
              | String ":" s3 =>
                  match skip_ws s3 with
                  | String "034" s4 =>
                      match scanstring s4 with
                      | Some (v, s5) =>
                          match skip_ws s5 with
                          | String "}" s6 => Some (dict_set k v acc, s6)
                          | String "," s6 => members fuel' (skip_ws s6) (dict_set k v acc)
                          | _ => None
                          end
                      | None => None
                      end
                  | _ => None
                  end
              | _ => None
              end
          | None => None
          end
      | _ => None
      end
  end%char.

(** [json.loads]: one object, then nothing but white space. *)
Definition loads (s : string) : option dict :=
  match skip_ws s with
  | String "{" s1 =>
      let after (d : dict) (r : string) :=
        match skip_ws r with
        | EmptyString => Some d
        | _ => None
        end in
      match skip_ws s1 with
      | String "}" s2 => after [] s2
      | s1' =>
          match members (String.length s) s1' [] with
          | Some (d, s2) => after d s2
          | None => None
          end
      end
  | _ => None
  end%char.

(** *** What [json.load] is sure to refuse

    [rejects] follows the decoder along the path of [loads] and answers
    [true] exactly where the decoder stops with [JSONDecodeError]: no
    value where one is expected, no property name, no colon, no comma,
    a string that does not end, a control character or an unknown
    escape in a string, text after the object.  Where the text may
    still be JSON that [json.load] accepts (a value that is not a
    string, a [\u] escape that [loads] has no character for) it answers
    [false]; so it does for a text with a character outside ASCII,
    whose reading depends on the encoding the file is opened with. *)

Fixpoint is_ascii (s : string) : bool :=
  match s with
  | EmptyString => true
  | String c s' => (ord c <? 128)%N && is_ascii s'
  end.

Definition is_hex (c : ascii) : bool :=
  match hex_value c with
  | Some _ => true
  | None => false
  end.

(** The characters a JSON value can start with: an object, an array, a
    string, a number, [true], [false], [null], and the [NaN],
    [Infinity] and [-Infinity] that Python reads as well. *)
Definition opens_value (c : ascii) : bool :=
  ((ord "0" <=? ord c) && (ord c <=? ord "9"))%N ||
  match c with
  | "{" | "[" | "034" | "-" | "t" | "f" | "n" | "N" | "I" => true
  | _ => false
  end%char.

(** A string, entered after its opening quote, that the decoder is sure
    to refuse.  The digits of a [\u] escape are left undecided when
    they are not four hexadecimal digits, since the two scanners of the
    [json] package differ on them. *)
Fixpoint scanstring_rejects (s : string) : bool :=
  match s with
  | EmptyString => true
  | String "034" _ => false
  | String "092" EmptyString => true
  | String "092" (String e rest) =>
      match e with
      | "034" | "092" | "/" | "b" | "f" | "n" | "r" | "t" => scanstring_rejects rest
      | "u" =>
          match rest with
          | String h3 (String h2 (String h1 (String h0 rest'))) =>
              if is_hex h3 && is_hex h2 && is_hex h1 && is_hex h0
              then scanstring_rejects rest'
              else false
          | _ => true
          end
      | _ => true
      end
  | String c rest => if (ord c <? 32)%N then true else scanstring_rejects rest
  end%char.

Fixpoint members_rejects (fuel : nat) (s : string) : bool :=
  match fuel with
  | O => false
  | S fuel' =>
      match s with
      | String "034" s1 =>
          match scanstring s1 with
          | Some (_, s2) =>
              match skip_ws s2 with
              | String ":" s3 =>
                  match skip_ws s3 with
                  | String "034" s4 =>
                      match scanstring s4 with
                      | Some (_, s5) =>
                          match skip_ws s5 with
                          | String "}" s6 => negb (String.eqb (skip_ws s6) "")
                          | String "," s6 => members_rejects fuel' (skip_ws s6)
                          | _ => true
                          end
                      | None => scanstring_rejects s4
                      end
                  | String c _ => negb (opens_value c)
                  | EmptyString => true
                  end
              | _ => true
              end
          | None => scanstring_rejects s1
          end
      | _ => true
      end
  end%char.

Definition rejects (s : string) : bool :=
  is_ascii s &&
  match skip_ws s with
  | EmptyString => true
  | String "{" s1 =>
      match skip_ws s1 with
      | String "}" s2 => negb (String.eqb (skip_ws s2) "")
      | s1' => members_rejects (String.length s) s1'
      end
  | String c _ => negb (opens_value c)
  end%char.

End Json.

(** ** [os.path] (POSIX flavour) *)

Module Path.

Definition sep : ascii := "/"%char.
Definition extsep : ascii := "."%char.

(** [s.rfind(c)]: the last index of [c], or -1. *)
Fixpoint rfind_from (c : ascii) (s : string) (i last : Z) : Z :=
  match s with
  | EmptyString => last
  | String c' s' => rfind_from c s' (i + 1) (if Ascii.eqb c' c then i else last)
  end.

Definition rfind (c : ascii) (s : string) : Z := rfind_from c s 0 (-1).

(** Slices [s[:i]] and [s[i:]] for [0 <= i]. *)
Fixpoint take (i : nat) (s : string) : string :=
  match i, s with
  | S i', String c s' => String c (take i' s')
  | _, _ => EmptyString
  end.

Fixpoint drop (i : nat) (s : string) : string :=
  match i, s with
  | S i', String _ s' => drop i' s'
  | _, _ => s
  end.

(** [os.path.join(a, b)]. *)
Definition join (a b : string) : string :=
  if startswith_char sep b then b
  else if String.eqb a "" || endswith_char sep a then a +:+ b
  else a +:+ String sep b.

(** The loop of [genericpath._splitext] that skips leading dots:
    [n] bounds the remaining iterations [dotIndex - filenameIndex]. *)
Fixpoint splitext_loop (n : nat) (p : string) (filenameIndex dotIndex : nat)
  : string * string :=
  match n with
  | O => (p, EmptyString)
  | S n' =>
      match String.get filenameIndex p with
      | Some c =>
          if negb (Ascii.eqb c extsep) then (take dotIndex p, drop dotIndex p)
          else splitext_loop n' p (S filenameIndex) dotIndex
      | None => (take dotIndex p, drop dotIndex p)
      end
  end.

(** [os.path.splitext(p)]. *)
Definition splitext (p : string) : string * string :=
  let sepIndex := rfind sep p in
  let dotIndex := rfind extsep p in
  if sepIndex <? dotIndex then
    let filenameIndex := sepIndex + 1 in
    splitext_loop (Z.to_nat (dotIndex - filenameIndex)) p
                  (Z.to_nat filenameIndex) (Z.to_nat dotIndex)
  else (p, EmptyString).

(** [s.rstrip('/')]. *)
Fixpoint rstrip_sep (s : string) : string :=
  match s with
  | EmptyString => EmptyString
  | String c s' =>
      match rstrip_sep s' with
      | EmptyString => if Ascii.eqb c sep then EmptyString else String c EmptyString
      | r => String c r
      end
  end.

Fixpoint all_sep (s : string) : bool :=
  match s with
  | EmptyString => true
  | String c s' => Ascii.eqb c sep && all_sep s'
  end.

(** [os.path.dirname(p)] and [os.path.basename(p)]. *)
Definition dirname (p : string) : string :=
  let i := Z.to_nat (rfind sep p + 1) in
  let head := take i p in
  if negb (String.eqb head "") && negb (all_sep head) then rstrip_sep head else head.

Definition basename (p : string) : string :=
  drop (Z.to_nat (rfind sep p + 1)) p.

End Path.

(** ** The world the program runs in

    Regular files are a finite map from path to content; directories
    carry no state of their own.  The two JSON stores, which the program
    opens by fixed relative names, are kept apart from the organised
    tree: [fs] holds the files other than the stores, and a world in
    which the two are apart is one where no path of [fs] bears the name
    of a store ([stores_apart] below).  What the operating system may
    refuse is scripted, the way a test double scripts [side_effect]:
    [move_faults] gives, call after call, the exception raised by the
    next call that moves, copies or removes a file ([os.rename],
    [os.remove], and the copy and the unlink that [shutil.move] falls
    back on); [None], or an exhausted script, lets the call act on the
    files.  [read_faults] names the files that cannot be read; a store
    that exists can always be opened, for reading and for writing.
    [log_file] and [rules_file] are the contents of [LOG_FILE]
    (file_movement_log.json) and [CUSTOM_RULES_FILE]
    (custom_rules.json), [None] when the file does not exist.  [calls]
    records the calls that rename, move, copy or remove a file and the
    pauses of the retry policy, and [logged] the records handed to the
    logger. *)

Inductive level : Type := INFO | WARNING | ERROR | CRITICAL.

Global Instance level_eq_dec : EqDecision level.
Proof. solve_decision. Defined.

Inductive call : Type :=
| os_rename_call (src dst : string) (raised : option exn)
| shutil_move_call (src dst : string) (raised : option exn)
| shutil_copy2_call (src dst : string) (raised : option exn)
| os_unlink_call (path : string) (raised : option exn)
| os_remove_call (path : string) (raised : option exn)
| time_sleep_call (delay : Z).

Record World : Type := mkWorld {
  fs : gmap string string;
  read_faults : gmap string exn;
  move_faults : list (option exn);
  log_file : option string;
  rules_file : option string;
  stdin : list string;
  stdout : list string;
  calls : list call;
  logged : list (level * string);
}.

Definition set_fs (f : gmap string string) (w : World) : World :=
  mkWorld f (read_faults w) (move_faults w) (log_file w) (rules_file w)
          (stdin w) (stdout w) (calls w) (logged w).

Definition set_move_faults (m : list (option exn)) (w : World) : World :=
  mkWorld (fs w) (read_faults w) m (log_file w) (rules_file w)
          (stdin w) (stdout w) (calls w) (logged w).

Definition set_log_file (c : option string) (w : World) : World :=
  mkWorld (fs w) (read_faults w) (move_faults w) c (rules_file w)
          (stdin w) (stdout w) (calls w) (logged w).

Definition set_rules_file (c : option string) (w : World) : World :=
  mkWorld (fs w) (read_faults w) (move_faults w) (log_file w) c
          (stdin w) (stdout w) (calls w) (logged w).

Definition set_stdin (i : list string) (w : World) : World :=
  mkWorld (fs w) (read_faults w) (move_faults w) (log_file w) (rules_file w)
          i (stdout w) (calls w) (logged w).

Definition add_stdout (line : string) (w : World) : World :=
  mkWorld (fs w) (read_faults w) (move_faults w) (log_file w) (rules_file w)
          (stdin w) (stdout w ++ [line]) (calls w) (logged w).

Definition add_call (c : call) (w : World) : World :=
  mkWorld (fs w) (read_faults w) (move_faults w) (log_file w) (rules_file w)
          (stdin w) (stdout w) (calls w ++ [c]) (logged w).

Definition add_logged (l : level) (msg : string) (w : World) : World :=
  mkWorld (fs w) (read_faults w) (move_faults w) (log_file w) (rules_file w)
          (stdin w) (stdout w) (calls w) (logged w ++ [(l, msg)]).

(** ** Computations: state passing with exceptions

    A Python statement either completes with a value or raises; in both
    cases the effects it had on the world remain.  [Unmodelled] is the
    outcome of a run that the model follows no further: a [while] loop
    of the source cut short by the bound on its iterations, or a store
    whose text is JSON that [Json.loads] does not read.  No [except]
    clause catches it, and no property is stated of such a run. *)

Inductive result (A : Type) : Type :=
| Ret (a : A)
| Raise (e : exn)
| Unmodelled.
Arguments Ret {A} a.
Arguments Raise {A} e.
Arguments Unmodelled {A}.

Definition M (A : Type) : Type := World -> result A * World.

Definition ret {A} (a : A) : M A := fun w => (Ret a, w).

Definition raise {A} (e : exn) : M A := fun w => (Raise e, w).

Definition bind {A B} (c : M A) (k : A -> M B) : M B :=
  fun w =>
    match c w with
    | (Ret a, w') => k a w'
    | (Raise e, w') => (Raise e, w')
    | (Unmodelled, w') => (Unmodelled, w')
    end.

(** [try: c except Exception as e: h e]. *)
Definition try_except {A} (c : M A) (h : exn -> M A) : M A :=
  fun w =>
    match c w with
    | (Ret a, w') => (Ret a, w')
    | (Raise e, w') => h e w'
    | (Unmodelled, w') => (Unmodelled, w')
    end.

Definition modify (f : World -> World) : M unit := fun w => (Ret tt, f w).

Definition gets {A} (f : World -> A) : M A := fun w => (Ret (f w), w).

Notation "x <- c1 ;; c2" := (bind c1 (fun x => c2))
  (at level 100, c1 at next level, right associativity).
Notation "c1 ;; c2" := (bind c1 (fun _ => c2))
  (at level 100, right associativity).

(** [for x in l: body x]. *)
Fixpoint for_each {A} (l : list A) (body : A -> M unit) : M unit :=
  match l with
  | [] => ret tt
  | x :: l' => body x ;; for_each l' body
  end.

(** ** System calls and library calls *)

(** The logger: one record per call. *)
Definition logger_info (msg : string) : M unit := modify (add_logged INFO msg).
Definition logger_warning (msg : string) : M unit := modify (add_logged WARNING msg).
Definition logger_error (msg : string) : M unit := modify (add_logged ERROR msg).
Definition logger_critical (msg : string) : M unit := modify (add_logged CRITICAL msg).

Definition print (line : string) : M unit := modify (add_stdout line).

(** [input(prompt)]: the next line of the standard input, [EOFError]
    at its end. *)
Definition input (prompt : string) : M string :=
  fun w =>
    match stdin w with
    | line :: rest => (Ret line, set_stdin rest (add_stdout prompt w))
    | [] => (Raise EOFError, add_stdout prompt w)
    end.

(** [time.sleep(delay)] refuses a negative delay.  Delays are taken
    within what the clock can count, [sleep_max] seconds either way;
    beyond it [time.sleep] raises [OverflowError] before anything else,
    which the model leaves out. *)
Definition sleep_max : Z := 9223372036.

Definition time_sleep (delay : Z) : M unit :=
  if delay <? 0 then raise ValueError
  else modify (add_call (time_sleep_call delay)).

(** What a rename does to the files when the system lets it through:
    an existing destination is replaced; [None] when the source does
    not exist. *)
Definition rename_files (src dst : string) (f : gmap string string)
  : option (gmap string string) :=
  match f !! src with
  | Some content => Some (<[dst := content]> (delete src f))
  | None => None
  end.

(** One attempt to rename: the scripted fault if there is one, the
    effect on the files otherwise; [record] notes the call. *)
Definition attempt_rename (record : option exn -> call) (src dst : string) : M unit :=
  fun w =>
    let '(fault, script) :=
      match move_faults w with
      | f :: rest => (f, rest)
      | [] => (None, [])
      end in
    let w1 := set_move_faults script w in
    match fault with
    | Some e => (Raise e, add_call (record (Some e)) w1)
    | None =>
        match rename_files src dst (fs w1) with
        | Some f' => (Ret tt, add_call (record None) (set_fs f' w1))
        | None => (Raise FileNotFoundError,
                   add_call (record (Some FileNotFoundError)) w1)
        end
    end.

Definition os_rename (src dst : string) : M unit :=
  attempt_rename (os_rename_call src dst) src dst.

(** What [shutil.copy2] does to the files when the system lets it
    through: the source must exist, must not be the destination, and
    must be readable; the destination then holds its content. *)
Definition copy_files (src dst : string) (w : World) : exn + gmap string string :=
  match fs w !! src with
  | None => inl FileNotFoundError
  | Some content =>
      if String.eqb src dst then inl SameFileError
      else match read_faults w !! src with
           | Some e => inl e
           | None => inr (<[dst := content]> (fs w))
           end
  end.

(** [shutil.copy2]: a copy that the system refuses leaves the
    destination as it was (a copy cut short half-way, which would leave
    part of the file there, is not among the faults; no property below
    says what the destination of a failed move holds). *)
Definition shutil_copy2 (src dst : string) : M unit :=
  fun w =>
    let '(fault, script) :=
      match move_faults w with
      | f :: rest => (f, rest)
      | [] => (None, [])
      end in
    let w1 := set_move_faults script w in
    match fault with
    | Some e => (Raise e, add_call (shutil_copy2_call src dst (Some e)) w1)
    | None =>
        match copy_files src dst w1 with
        | inr f' => (Ret tt, add_call (shutil_copy2_call src dst None) (set_fs f' w1))
        | inl e => (Raise e, add_call (shutil_copy2_call src dst (Some e)) w1)
        end
    end.

(** One attempt to remove a file: the scripted fault if there is one;
    otherwise the file goes, and a missing file is an error. *)
Definition attempt_remove (record : option exn -> call) (path : string) : M unit :=
  fun w =>
    let '(fault, script) :=
      match move_faults w with
      | f :: rest => (f, rest)
      | [] => (None, [])
      end in
    let w1 := set_move_faults script w in
    match fault with
    | Some e => (Raise e, add_call (record (Some e)) w1)
    | None =>
        match fs w1 !! path with
        | Some _ => (Ret tt, add_call (record None) (set_fs (delete path (fs w1)) w1))
        | None => (Raise FileNotFoundError, add_call (record (Some FileNotFoundError)) w1)
        end
    end.

(** [os.remove], and [os.unlink], which is the same call under its
    other name. *)
Definition os_remove (path : string) : M unit :=
  attempt_remove (os_remove_call path) path.

Definition os_unlink (path : string) : M unit :=
  attempt_remove (os_unlink_call path) path.

(** [shutil.move(src, dst)] of a regular file towards a path that is not
    a directory: [os.rename]; when that raises an [OSError], the file is
    copied to the destination and then unlinked at the source.  The
    exception of the copy or of the unlink leaves [shutil.move]; in the
    second case the copy stays at the destination. *)
Definition shutil_move (src dst : string) : M unit :=
  fun w =>
    match try_except (os_rename src dst)
            (fun e => if is_OSError e
                      then (shutil_copy2 src dst ;; os_unlink src)
                      else raise e) w with
    | (Ret _, w') => (Ret tt, add_call (shutil_move_call src dst None) w')
    | (Raise e, w') => (Raise e, add_call (shutil_move_call src dst (Some e)) w')
    | (Unmodelled, w') => (Unmodelled, w')
    end.

(** [os.makedirs(path, exist_ok=True)]: the empty path does not exist,
    and a regular file is in the way of a directory of its name. *)
Definition os_makedirs (path : string) : M unit :=
  fun w =>
    if String.eqb path "" then (Raise FileNotFoundError, w)
    else match fs w !! path with
         | Some _ => (Raise FileExistsError, w)
         | None => (Ret tt, w)
         end.

(** [open(path, "rb").read()]: the whole content of a readable file. *)
Definition read_file (path : string) : M string :=
  fun w =>
    match read_faults w !! path with
    | Some e => (Raise e, w)
    | None =>
        match fs w !! path with
        | Some content => (Ret content, w)
        | None => (Raise FileNotFoundError, w)
        end
    end.

(** ** The program: [file_organizer.py] *)

(** The grouped extension table, in the order the dict literal lists it. *)
Definition EXTENSIONS : list (list string * string) :=
  [ ([".stl"; ".obj"; ".fbx"; ".blend"; ".dae"; ".3ds"; ".ply"], "3DModels");
    ([".jpg"; ".jpeg"; ".png"; ".gif"; ".bmp"; ".tiff"; ".svg"; ".heic"; ".webp"], "Images");
    ([".mp4"; ".mkv"; ".mov"; ".avi"; ".wmv"; ".flv"; ".webm"; ".mpeg"], "Videos");
    ([".mp3"; ".wav"; ".flac"; ".aac"; ".ogg"; ".m4a"; ".wma"; ".aiff"], "Audio");
    ([".doc"; ".docx"; ".pdf"; ".txt"; ".rtf"; ".odt"; ".tex"; ".md"], "Documents");
    ([".xlsx"; ".xls"; ".csv"; ".ods"], "Spreadsheets");
    ([".ppt"; ".pptx"; ".key"; ".odp"], "Presentations");
    ([".py"; ".java"; ".cpp"; ".c"; ".cs"; ".js"; ".ts"; ".html"; ".css"; ".php";
      ".rb"; ".swift"; ".go"; ".rs"], "Code");
    ([".zip"; ".rar"; ".7z"; ".tar"; ".gz"; ".bz2"; ".xz"], "Archives");
    ([".exe"; ".msi"; ".sh"; ".bat"; ".apk"; ".dmg"], "Executables");
    ([".ttf"; ".otf"; ".woff"; ".woff2"], "Fonts");
    ([".epub"; ".mobi"; ".azw"; ".azw3"], "Ebooks");
    ([".dwg"; ".dxf"], "CAD");
    ([".iso"; ".img"], "DiskImages");
    ([".sln"; ".log"; ".cfg"; ".ini"; ".bak"], "Others") ].

Definition alert_user (message : string) : M unit :=
  logger_critical ("ALERT: " +:+ message).

Definition categorize_error (error : exn) : string :=
  match error with
  | PermissionError => "recoverable"
  | FileNotFoundError => "non_recoverable"
  | _ => "unknown"
  end.

(** One pass through the body of the [while] loop of [retry_move_file]:
    [Some b] when the body executes [return b], [None] when it falls
    through to the next iteration (after [attempt += 1] and the sleep). *)
Definition retry_move_file_body (source destination : string) (delay attempt : Z)
  : M (option bool) :=
  try_except
    (os_rename source destination ;;
     logger_info ("Successfully moved " +:+ source +:+ " to " +:+ destination +:+ ".") ;;
     ret (Some true))
    (fun e =>
       let error_type := categorize_error e in
       returned <-
         (if String.eqb error_type "recoverable" then
            logger_error ("Attempt " +:+ str_int (attempt + 1)
                          +:+ ": Recoverable error when moving " +:+ source
                          +:+ ". Error: " +:+ str_exn e) ;;
            ret None
          else if String.eqb error_type "non_recoverable" then
            logger_error ("Attempt " +:+ str_int (attempt + 1)
                          +:+ ": Non-recoverable error when moving " +:+ source
                          +:+ ". Skipping.") ;;
            ret (Some false)
          else
            logger_error ("Attempt " +:+ str_int (attempt + 1)
                          +:+ ": Unknown error when moving " +:+ source
                          +:+ ". Error: " +:+ str_exn e) ;;
            ret None) ;;
       match returned with
       | Some b => ret (Some b)
       | None => time_sleep delay ;; ret None
       end).

Fixpoint retry_move_file_loop (fuel : nat) (source destination : string)
    (retries delay attempt : Z) : M bool :=
  match fuel with
  | O => fun w => (Unmodelled, w)
  | S fuel' =>
      if attempt <? retries then
        returned <- retry_move_file_body source destination delay attempt ;;
        match returned with
        | Some b => ret b
        | None =>
            retry_move_file_loop fuel' source destination retries delay (attempt + 1)
        end
      else
        logger_error ("Failed to move " +:+ source +:+ " to " +:+ destination
                      +:+ " after " +:+ str_int retries +:+ " attempts.") ;;
        alert_user ("Failed to move " +:+ source +:+ " to " +:+ destination
                    +:+ " after multiple attempts. Please check the log for details.") ;;
        ret false
  end.

(** [retry_move_file(source, destination, retries, delay)]; the loop
    is entered with [attempt = 0] and one more unit of fuel than there
    can be iterations. *)
Definition retry_move_file (source destination : string) (retries delay : Z) : M bool :=
  retry_move_file_loop (S (Z.to_nat retries)) source destination retries delay 0.

Definition default_retries : Z := 3.
Definition default_delay : Z := 2.

(** The names of the two stores. *)
Definition LOG_FILE : string := "file_movement_log.json".
Definition CUSTOM_RULES_FILE : string := "custom_rules.json".

(** [load_custom_rules], [save_custom_rules], [add_custom_rule],
    [reset_custom_rules]: the custom rules store. *)
Definition json_load (content : string) : M dict :=
  match Json.loads content with
  | Some d => ret d
  | None =>
      if Json.rejects content then raise JSONDecodeError
      else fun w => (Unmodelled, w)
  end.

Definition load_custom_rules : M dict :=
  stored <- gets rules_file ;;
  match stored with
  | Some content => json_load content
  | None => ret []
  end.

Definition save_custom_rules (rules : dict) : M unit :=
  modify (set_rules_file (Some (Json.dumps_indent4 rules))).

Definition add_custom_rule (extension folder_name : string) : M unit :=
  rules <- load_custom_rules ;;
  save_custom_rules (dict_set extension folder_name rules) ;;
  print ("Custom rule added: " +:+ extension +:+ " -> " +:+ folder_name).

(** [os.remove(CUSTOM_RULES_FILE)], which the system may refuse like
    any other removal. *)
Definition remove_custom_rules_file : M unit :=
  fun w =>
    let '(fault, script) :=
      match move_faults w with
      | f :: rest => (f, rest)
      | [] => (None, [])
      end in
    let w1 := set_move_faults script w in
    match fault with
    | Some e => (Raise e, add_call (os_remove_call CUSTOM_RULES_FILE (Some e)) w1)
    | None => (Ret tt, add_call (os_remove_call CUSTOM_RULES_FILE None)
                         (set_rules_file None w1))
    end.

Definition reset_custom_rules : M unit :=
  stored <- gets rules_file ;;
  match stored with
  | Some _ =>
      remove_custom_rules_file ;;
      print "Custom rules have been reset to default."
  | None => print "No custom rules found to reset."
  end.

(** Writing [text] at offset 0 of a file opened in mode ["r+"]: the
    characters of the old content beyond the written ones stay. *)
Definition write_at_start (text old : string) : string :=
  text +:+ Path.drop (String.length text) old.

Definition log_movement (src dest : string) : M unit :=
  let movement_data : dict := [(src, dest)] in
  stored <- gets log_file ;;
  (match stored with
   | None => modify (set_log_file (Some Json.dumps_empty))
   | Some _ => ret tt
   end) ;;
  stored <- gets log_file ;;
  match stored with
  | None => raise FileNotFoundError
  | Some old =>
      data <- json_load old ;;
      let data := dict_update data movement_data in
      modify (set_log_file (Some (write_at_start (Json.dumps_indent4 data) old)))
  end.

(** The body of the [for] loop of [undo_selected_moves]. *)
Definition undo_one (entry : string * string) : M unit :=
  let '(dest, src) := entry in
  try_except
    (os_makedirs (Path.dirname src) ;;
     shutil_move dest src ;;
     logger_info ("Moved back: " +:+ dest +:+ " -> " +:+ src))
    (fun e =>
       logger_error ("Error moving " +:+ dest +:+ " back to " +:+ src +:+ ": " +:+ str_exn e)).

Definition undo_selected_moves : M unit :=
  stored <- gets log_file ;;
  match stored with
  | None => logger_info "No log file found. Nothing to undo."
  | Some content =>
      data <- json_load content ;;
      line <- input "Enter the directory (or part of the path) for the actions you'd like to undo: " ;;
      let directory_input := strip line in
      let matching_entries : dict :=
        List.filter (fun entry => contains directory_input (snd entry)) data in
      match matching_entries with
      | [] => logger_info ("No actions found for the directory: " +:+ directory_input)
      | _ =>
          for_each matching_entries undo_one ;;
          let remaining_data : dict :=
            List.filter (fun entry => negb (dict_mem (fst entry) matching_entries)) data in
          modify (set_log_file (Some (Json.dumps_indent4 remaining_data))) ;;
          logger_info "Undo operation completed for the specified directory."
      end
  end.

(** [get_folder_name(extension, extensions_map)]: the first group, in
    the order of the table, that contains the extension. *)
Fixpoint get_folder_name (extension : string)
    (extensions_map : list (list string * string)) : string :=
  match extensions_map with
  | [] => "Others"
  | (ext_group, folder_name) :: rest =>
      if existsb (String.eqb extension) ext_group then folder_name
      else get_folder_name extension rest
  end.

(** The expression that picks the target folder in [organize_files],
    [custom_rules.get(file_extension) or get_folder_name(file_extension,
    EXTENSIONS)]: Python's [or] takes its right operand when the left
    one is [None] or the empty string. *)
Definition classify (file_extension : string) (custom_rules : dict) : string :=
  match dict_get file_extension custom_rules with
  | Some folder =>
      if String.eqb folder "" then get_folder_name file_extension EXTENSIONS
      else folder
  | None => get_folder_name file_extension EXTENSIONS
  end.

Definition delete_one (entry : string * string) : M unit :=
  let '(dup, _) := entry in
  try_except
    (os_remove dup ;; logger_info ("Deleted: " +:+ dup))
    (fun e => logger_error ("Error deleting " +:+ dup +:+ ": " +:+ str_exn e)).

Definition delete_files (duplicates : list (string * string)) : M unit :=
  for_each duplicates delete_one.

Definition backup_one (backup_dir : string) (entry : string * string) : M unit :=
  let '(dup, _) := entry in
  try_except
    (let backup_path := Path.join backup_dir (Path.basename dup) in
     os_rename dup backup_path ;;
     logger_info ("Moved " +:+ dup +:+ " to " +:+ backup_path))
    (fun e => logger_error ("Error moving " +:+ dup +:+ " to backup: " +:+ str_exn e)).

Definition backup_duplicates (duplicates : list (string * string)) (backup_dir : string)
  : M unit :=
  os_makedirs backup_dir ;;
  for_each duplicates (backup_one backup_dir).

Definition default_backup_dir : string := "backup".

(** The [while True] prompt of [handle_duplicates]: every iteration
    reads one line, so the loop ends by a valid choice or by [EOFError]
    within [length stdin + 1] iterations. *)
Fixpoint ask_choice (fuel : nat) : M string :=
  match fuel with
  | O => fun w => (Unmodelled, w)
  | S fuel' =>
      line <- input "Do you want to delete all duplicates? (yes/no/backup): " ;;
      let choice := lower (strip line) in
      if existsb (String.eqb choice) ["yes"; "no"; "backup"] then ret choice
      else
        print "Invalid choice. Please enter 'yes', 'no', or 'backup'." ;;
        ask_choice fuel'
  end.

(** The enumeration that lists the duplicates in the log. *)
Fixpoint log_duplicates (idx : Z) (duplicates : list (string * string)) : M unit :=
  match duplicates with
  | [] => ret tt
  | (dup, original) :: rest =>
      logger_info (str_int idx +:+ ". Duplicate: " +:+ dup +:+ Json.newline
                   +:+ "   Original: " +:+ original +:+ Json.newline) ;;
      log_duplicates (idx + 1) rest
  end.

Definition handle_duplicates (duplicates : list (string * string)) : M unit :=
  match duplicates with
  | [] => logger_info "No duplicate files found."
  | _ =>
      logger_info (Json.newline +:+ "Duplicate Files Found:") ;;
      log_duplicates 1 duplicates ;;
      pending <- gets stdin ;;
      choice <- ask_choice (S (length pending)) ;;
      if String.eqb choice "yes" then delete_files duplicates
      else if String.eqb choice "backup" then backup_duplicates duplicates default_backup_dir
      else logger_info "No changes made."
  end.

Section Organize.

(** [hashlib.md5]: the digest of a byte string, as hexadecimal text.
    Feeding the hasher the successive chunks of a file gives the digest
    of the file's content. *)
Variable md5 : string -> string.

(** What [os.walk(directory)] yields during the pass: the directories
    visited, each with the names of its files, in walk order. *)
Variable os_walk : string -> list (string * list string).

(** What the clean-up at the end of the pass finds: the directories
    that [os.walk(directory, topdown=False)] yields, each with the names
    of its sub-directories; what [os.listdir] answers for a directory
    when the clean-up reaches it; and the error of [os.rmdir], if any. *)
Variable os_walk_dirs : string -> list (string * list string).
Variable dir_entries : string -> exn + list string.
Variable rmdir_fault : string -> option exn.

Definition get_file_hash (file_path : string) : M string :=
  content <- read_file file_path ;;
  ret (md5 content).

(** The local variables [hash_map] and [duplicates] of
    [organize_files]. *)
Record scan_state : Type := mkScan {
  hash_map : gmap string string;
  duplicates : list (string * string);
}.

(** The body of the inner [for] loop of [organize_files]. *)
Definition organize_file (directory : string) (custom_rules : dict)
    (root filename : string) (st : scan_state) : M scan_state :=
  let file_path := Path.join root filename in
  let file_extension := lower (snd (Path.splitext filename)) in
  let folder_name := classify file_extension custom_rules in
  let target_folder := Path.join directory folder_name in
  os_makedirs target_folder ;;
  file_hash <- get_file_hash file_path ;;
  match hash_map st !! file_hash with
  | Some original =>
      let duplicate_info := (file_path, original) in
      ret (mkScan (hash_map st) (duplicates st ++ [duplicate_info]))
  | None =>
      let st' := mkScan (<[file_hash := file_path]> (hash_map st)) (duplicates st) in
      let new_path := Path.join target_folder filename in
      try_except
        (shutil_move file_path new_path ;;
         log_movement file_path new_path ;;
         logger_info ("Moved: " +:+ file_path +:+ " -> " +:+ new_path))
        (fun e =>
           match e with
           | PermissionError => logger_warning ("Permission denied for: " +:+ file_path)
           | _ => logger_error ("Error moving " +:+ file_path +:+ ": " +:+ str_exn e)
           end) ;;
      ret st'
  end.

Fixpoint organize_dir (directory : string) (custom_rules : dict) (root : string)
    (files : list string) (st : scan_state) : M scan_state :=
  match files with
  | [] => ret st
  | filename :: rest =>
      st' <- organize_file directory custom_rules root filename st ;;
      organize_dir directory custom_rules root rest st'
  end.

(** The two nested [for] loops: the scanning phase of a pass. *)
Fixpoint organize_walk (directory : string) (custom_rules : dict)
    (walk : list (string * list string)) (st : scan_state) : M scan_state :=
  match walk with
  | [] => ret st
  | (root, files) :: rest =>
      st' <- organize_dir directory custom_rules root files st ;;
      organize_walk directory custom_rules rest st'
  end.

(** The clean-up of the directories left empty.  Directories carry no
    state, so removing one changes nothing that the world keeps; what
    remains of the loop is what it logs and what it raises:
    [os.listdir] is called outside the [try]. *)
Definition os_listdir (path : string) : M (list string) :=
  match dir_entries path with
  | inl e => raise e
  | inr names => ret names
  end.

Definition os_rmdir (path : string) : M unit :=
  match rmdir_fault path with
  | Some e => raise e
  | None => ret tt
  end.

Definition prune_subdir (root subdir : string) : M unit :=
  let subfolder_path := Path.join root subdir in
  names <- os_listdir subfolder_path ;;
  match names with
  | [] =>
      try_except
        (os_rmdir subfolder_path ;;
         logger_info ("Deleted empty folder: " +:+ subfolder_path))
        (fun e =>
           logger_error ("Error deleting folder " +:+ subfolder_path +:+ ": " +:+ str_exn e))
  | _ => ret tt
  end.

Definition prune_empty_dirs (directory : string) : M unit :=
  for_each (os_walk_dirs directory)
    (fun entry => for_each (snd entry) (prune_subdir (fst entry))).

(** The scanning phase of a pass: [organize_files] up to the end of its
    first loop, with the two local variables as they stand there. *)
Definition organize_scan (directory : string) : M scan_state :=
  logger_info ("Starting file organization in directory: " +:+ directory) ;;
  custom_rules <- load_custom_rules ;;
  organize_walk directory custom_rules (os_walk directory) (mkScan ∅ []).

Definition organize_files (directory : string) : M unit :=
  st <- organize_scan directory ;;
  handle_duplicates (duplicates st) ;;
  prune_empty_dirs directory ;;
  logger_info (Json.newline +:+ "Organization complete! All files have been processed.").

End Organize.

(** ** What the properties observe *)

Definition is_os_rename (c : call) : bool :=
  match c with
  | os_rename_call _ _ _ => true
  | _ => false
  end.

Definition is_shutil_move (c : call) : bool :=
  match c with
  | shutil_move_call _ _ _ => true
  | _ => false
  end.

(** The number of calls to [os.rename], the way a test reads
    [mock_rename.call_count]. *)
Definition rename_count (w : World) : nat :=
  length (List.filter is_os_rename (calls w)).

Definition move_count (w : World) : nat :=
  length (List.filter is_shutil_move (calls w)).

(** The outcome of a call that returns nothing: it completes, or it
    raises. *)
Definition answer (outcome : option exn) : result unit :=
  match outcome with
  | None => Ret tt
  | Some e => Raise e
  end.

(** Two worlds that differ at most by the files, the calls recorded and
    the fault script: what a call to the file system can change. *)
Definition files_only (w w' : World) : Prop :=
  log_file w' = log_file w /\ rules_file w' = rules_file w /\
  stdin w' = stdin w /\ stdout w' = stdout w /\
  read_faults w' = read_faults w /\ logged w' = logged w.

Definition is_os_remove (c : call) : bool :=
  match c with
  | os_remove_call _ _ => true
  | _ => false
  end.

Definition is_time_sleep (c : call) : bool :=
  match c with
  | time_sleep_call _ => true
  | _ => false
  end.

(** The calls of one [shutil.move]: one [os.rename], then at most a
    copy and an unlink; no second move, no [os.remove], no pause. *)
Definition one_rename (src dst : string) (trace : list call) : Prop :=
  (exists first, List.filter is_os_rename trace = [os_rename_call src dst first]) /\
  List.filter is_shutil_move trace = [] /\
  List.filter is_os_remove trace = [] /\
  List.filter is_time_sleep trace = [].

(** The number of calls to [os.remove], and of pauses between retries. *)
Definition remove_count (w : World) : nat :=
  length (List.filter is_os_remove (calls w)).

Definition sleep_count (w : World) : nat :=
  length (List.filter is_time_sleep (calls w)).

(** The alerts raised so far: the records of critical severity, which
    only [alert_user] emits. *)
Definition alerts (w : World) : list string :=
  map snd (List.filter (fun r => bool_decide (fst r = CRITICAL)) (logged w)).

(** The movement log as [json.load] reads it, if it exists and loads,
    and the value it holds under a key. *)
Definition stored_log (w : World) : option dict :=
  match log_file w with
  | Some content => Json.loads content
  | None => None
  end.

Definition stored_record (key : string) (w : World) : option string :=
  match stored_log w with
  | Some data => dict_get key data
  | None => None
  end.

(** The files of a walk, in the order the two loops reach them. *)
Definition walk_files (walk : list (string * list string)) : list (string * string) :=
  concat (map (fun entry => map (pair (fst entry)) (snd entry)) walk).

(** The path of a scanned file, and the path [organize_files] moves it
    to: the category folder of its extension, under the directory. *)
Definition path_of (root filename : string) : string := Path.join root filename.

Definition folder_of (directory : string) (custom_rules : dict) (filename : string)
  : string :=
  Path.join directory (classify (lower (snd (Path.splitext filename))) custom_rules).

Definition target_of (directory : string) (custom_rules : dict) (filename : string)
  : string :=
  Path.join (folder_of directory custom_rules filename) filename.

(** The movement log holds exactly the text of [d]; a log that does not
    exist yet holds the empty mapping. *)
Definition store_holds (d : dict) (w : World) : Prop :=
  match log_file w with
  | Some content => content = Json.dumps_indent4 d
  | None => d = []
  end.

(** The custom rules as [load_custom_rules] finds them. *)
Definition stored_rules (w : World) : option dict :=
  match rules_file w with
  | Some content => Json.loads content
  | None => Some []
  end.

(** A store that exists and that [json.load] refuses to read; and a
    store within what the model reads: absent, read, or refused. *)
Definition refused (store : option string) : bool :=
  match store with
  | Some content =>
      match Json.loads content with
      | Some _ => false
      | None => Json.rejects content
      end
  | None => false
  end.

Definition covered (store : option string) : bool :=
  match store with
  | Some content =>
      match Json.loads content with
      | Some _ => true
      | None => Json.rejects content
      end
  | None => true
  end.

(** The paths that bear the name of a store.  The comparison ignores
    case, as some file systems do. *)
Definition names_store (path : string) : bool :=
  let name := lower (Path.basename path) in
  String.eqb name LOG_FILE || String.eqb name CUSTOM_RULES_FILE.

(** The stores are apart from the tree: no file of [fs] bears the name
    of a store. *)
Definition stores_apart (w : World) : Prop :=
  forall path : string, names_store path = true -> fs w !! path = None.

(** A record that the log holds for a path can be replaced by a record
    towards [dest] without the text of the log getting shorter. *)
Definition record_fits (src dest : string) (d : dict) : Prop :=
  forall old : string,
    dict_get src d = Some old ->
    (String.length (Json.escape old) <= String.length (Json.escape dest))%nat.

(** The delays that [time.sleep] takes for a number of seconds. *)
Definition sleep_in_range (delay : Z) : Prop := - sleep_max <= delay <= sleep_max.

(** ** Duplicate groups, as the specification words them

    A scan reads one digest per file.  Among the files read so far,
    [first_with h] is the first one whose digest is [h]; the duplicate
    groups of a scan pair every file whose digest was read before with
    that first file. *)
Fixpoint first_with (h : string) (seen : list (string * string)) : option string :=
  match seen with
  | [] => None
  | (path, h') :: rest => if String.eqb h' h then Some path else first_with h rest
  end.

Fixpoint duplicate_groups (seen rest : list (string * string)) : list (string * string) :=
  match rest with
  | [] => []
  | (path, h) :: rest' =>
      match first_with h seen with
      | Some original => (path, original) :: duplicate_groups (seen ++ [(path, h)]) rest'
      | None => duplicate_groups (seen ++ [(path, h)]) rest'
      end
  end.

(** The digests a scan reads: every file it reaches, in order, with the
    digest that [get_file_hash] gives it at that moment. *)
Fixpoint digests_read (md5 : string -> string) (directory : string) (custom_rules : dict)
    (files : list (string * string)) (st : scan_state) (w : World)
  : list (string * string) :=
  match files with
  | [] => []
  | (root, filename) :: rest =>
      match get_file_hash md5 (path_of root filename) w,
            organize_file md5 directory custom_rules root filename st w with
      | (Ret h, _), (Ret st', w') =>
          (path_of root filename, h) :: digests_read md5 directory custom_rules rest st' w'
      | _, _ => []
      end
  end.

(** The names of the built-in categories. *)
Definition builtin_categories : list string := map snd EXTENSIONS.

(** A scripted fault that [retry_move_file] retries after: an error
    that [categorize_error] classifies as recoverable or unknown. *)
Definition retryable_fault (fault : option exn) : bool :=
  match fault with
  | Some e => negb (String.eqb (categorize_error e) "non_recoverable")
  | None => false
  end.

(** ** Sample worlds *)

Definition empty_world : World :=
  mkWorld ∅ ∅ [] None None [] [] [] [].

(** One file, and a system that refuses the next three renames. *)
Definition locked_world : World :=
  mkWorld {[ "inbox/report.txt" := "report" ]} ∅
          [Some PermissionError; Some OSError; Some PermissionError]
          None None [] [] [] [].

(** One file, and a system that refuses only the next rename. *)
Definition busy_once_world : World :=
  mkWorld {[ "inbox/report.txt" := "report" ]} ∅
          [Some PermissionError]
          None None [] [] [] [].

(** A stand-in digest for the sample runs: the content itself, which
    has no collisions. *)
Definition sample_digest (content : string) : string := content.

(** A directory [d] with two pictures of equal content and one text
    file; the user will answer [no] to the duplicates prompt and then
    ask to undo by the path given as second line. *)
Definition sample_walk (directory : string) : list (string * list string) :=
  [(directory, ["a.jpg"; "b.txt"; "c.jpg"])].

Definition sample_tree (undo_query : string) : World :=
  mkWorld (list_to_map [("d/a.jpg", "AAA"); ("d/b.txt", "BBB"); ("d/c.jpg", "AAA")])
          ∅ [] None None ["no"; undo_query] [] [] [].

(** The same directory when [a.jpg] cannot be read. *)
Definition unreadable_tree : World :=
  mkWorld (list_to_map [("d/a.jpg", "AAA"); ("d/b.txt", "BBB"); ("d/c.jpg", "AAA")])
          {[ "d/a.jpg" := PermissionError ]} [] None None ["no"] [] [] [].

(** The same directory when the system refuses to rename the first
    file and then to copy it, and nothing after that. *)
Definition busy_tree : World :=
  mkWorld (list_to_map [("d/a.jpg", "AAA"); ("d/b.txt", "BBB"); ("d/c.jpg", "AAA")])
          ∅ [Some PermissionError; Some PermissionError] None None ["no"] [] [] [].

(** The same directory when the first file can be copied to its target
    but neither renamed nor unlinked. *)
Definition sticky_tree : World :=
  mkWorld (list_to_map [("d/a.jpg", "AAA"); ("d/b.txt", "BBB"); ("d/c.jpg", "AAA")])
          ∅ [Some PermissionError; None; Some PermissionError] None None ["no"] [] [] [].

(** What the clean-up finds in the sample directory once [a.jpg] and
    [b.txt] are filed: two category folders, neither of them empty. *)
Definition sample_walk_dirs (directory : string) : list (string * list string) :=
  [(Path.join directory "Images", []); (Path.join directory "Documents", []);
   (directory, ["Images"; "Documents"])].

Definition sample_dir_entries (path : string) : exn + list string :=
  if String.eqb path "d/Images" then inr ["a.jpg"]
  else if String.eqb path "d/Documents" then inr ["b.txt"]
  else inl FileNotFoundError.

(** The same when [a.jpg] could not be filed: its folder is empty. *)
Definition empty_images_entries (path : string) : exn + list string :=
  if String.eqb path "d/Images" then inr []
  else if String.eqb path "d/Documents" then inr ["b.txt"]
  else inl FileNotFoundError.


Definition locked_dirs (directory : string) : list (string * list string) :=
  [(directory, ["private"])].

Definition locked_entries (path : string) : exn + list string :=
  inl PermissionError.

Definition rmdir_passes (path : string) : option exn := None.

(** A movement log that already holds a record for [d/a.txt], written
    by an earlier pass. *)
Definition logged_world : World :=
  mkWorld ∅ ∅ [] (Some (Json.dumps_indent4 [("d/a.txt", "d/Documents/a.txt")]))
          None [] [] [] [].

(** The answers the prompt of [handle_duplicates] accepts. *)
Definition valid_choice (choice : string) : bool :=
  existsb (String.eqb choice) ["yes"; "no"; "backup"].

(** ** More sample worlds *)

(** One file; the system refuses the first rename and reports the
    source as missing at the second. *)
Definition vanishing_world : World :=
  mkWorld {[ "inbox/report.txt" := "report" ]} ∅
          [Some PermissionError; Some FileNotFoundError]
          None None [] [] [] [].

(** Stores whose text is not JSON. *)
Definition corrupt_rules_world : World :=
  mkWorld ∅ ∅ [] None (Some "{oops") [] [] [] [].

Definition corrupt_log_tree : World :=
  mkWorld (list_to_map [("d/a.jpg", "AAA"); ("d/b.txt", "BBB"); ("d/c.jpg", "AAA")])
          ∅ [] (Some "{oops") None ["no"] [] [] [].

(** An organised directory whose log is keyed the way
    [undo_selected_moves] reads it, by new path, and what the user
    types at the prompt of the undo. *)
Definition undo_log : dict :=
  [("d/Images/a.jpg", "d/a.jpg"); ("d/Documents/b.txt", "d/b.txt")].

Definition undo_world (query : string) : World :=
  mkWorld (list_to_map [("d/Images/a.jpg", "AAA"); ("d/Documents/b.txt", "BBB")])
          ∅ [] (Some (Json.dumps_indent4 undo_log)) None [query] [] [] [].

(** Two pictures of the same name in two directories. *)
Definition same_name_world : World :=
  mkWorld (list_to_map [("d/x/a.jpg", "first"); ("d/y/a.jpg", "second")])
          ∅ [] None None [] [] [] [].



(** A walk that finds no file. *)
Definition empty_walk (directory : string) : list (string * list string) :=
  [(directory, [])].

(** The scan state after the first two files of the sample directory,
    and at the end of its scan. *)
Definition sample_seen : scan_state :=
  mkScan (<["BBB" := "d/b.txt"]> (<["AAA" := "d/a.jpg"]> ∅)) [].

Definition sample_scanned : scan_state :=
  mkScan (<["BBB" := "d/b.txt"]> (<["AAA" := "d/a.jpg"]> ∅)) [("d/c.jpg", "d/a.jpg")].

(** A log, keyed by new path, whose record restores to a bare file
    name of the working directory. *)
Definition bare_name_world : World :=
  mkWorld {[ "Images/a.jpg" := "AAA" ]} ∅ []
          (Some (Json.dumps_indent4 [("Images/a.jpg", "a.jpg")])) None ["a.jpg"] [] [] [].

(* ================================================================== *)
(** * Part II.  Properties                                            *)
(* ================================================================== *)

(** ** JSON text *)

Example json_dump_two :
  Json.dumps_indent4 [("a", "b"); ("c", "d")]
  = "{" +:+ Json.newline +:+ "    " +:+ Json.quote "a" +:+ ": " +:+ Json.quote "b" +:+ ","
    +:+ Json.newline +:+ "    " +:+ Json.quote "c" +:+ ": " +:+ Json.quote "d"
    +:+ Json.newline +:+ "}".
Proof. reflexivity. Qed.

Example json_load_two :
  Json.loads (Json.dumps_indent4 [("a/b c", "d"); ("c", String "010" (String "233" "x"))])
  = Some [("a/b c", "d"); ("c", String "010" (String "233" "x"))].
Proof. vm_compute. reflexivity. Qed.

Example json_load_trailing :
  Json.loads (Json.dumps_indent4 [("a", "b")] +:+ "}") = None.
Proof. vm_compute. reflexivity. Qed.

(** [String.append] does not unfold under [simpl]; these two equations
    drive it by rewriting. *)
Lemma append_nil (b : string) : EmptyString +:+ b = b.
Proof. reflexivity. Qed.

Lemma append_cons (x : ascii) (a b : string) : String x a +:+ b = String x (a +:+ b).
Proof. reflexivity. Qed.

Lemma append_assoc (a b c : string) : (a +:+ b) +:+ c = a +:+ (b +:+ c).
Proof.
  induction a as [|x a IH]; rewrite ?append_nil, ?append_cons; [reflexivity|].
  f_equal. exact IH.
Qed.

Lemma length_append (a b : string) :
  String.length (a +:+ b) = (String.length a + String.length b)%nat.
Proof.
  induction a as [|x a IH]; rewrite ?append_nil, ?append_cons; simpl; [reflexivity|].
  f_equal. exact IH.
Qed.

Ltac push_append :=
  repeat (rewrite append_assoc || rewrite append_cons || rewrite append_nil).

(** Decoding undoes the escaping of one character. *)
Lemma scanstring_escape_char (c : ascii) (tail : string) :
  Json.scanstring (Json.escape_char c +:+ tail)
  = match Json.scanstring tail with
    | Some (t, r) => Some (String c t, r)
    | None => None
    end.
Proof. destruct c as [[] [] [] [] [] [] [] []]; reflexivity. Qed.

(** Decoding a quoted string gives the string back, and stops right
    after the closing quote. *)
Lemma scanstring_escape (s rest : string) :
  Json.scanstring (Json.escape s +:+ String "034" rest) = Some (s, rest).
Proof.
  induction s as [|c s IH].
  - reflexivity.
  - cbn [Json.escape]. rewrite append_assoc, scanstring_escape_char, IH. reflexivity.
Qed.

Lemma quote_append (s tail : string) :
  Json.quote s +:+ tail = String "034" (Json.escape s +:+ String "034" tail).
Proof. unfold Json.quote, Json.dquote. push_append. reflexivity. Qed.

(** Storing into a dict that lacks the key appends the item. *)
Lemma dict_set_fresh (k v : string) (d : dict) :
  ~ In k (keys d) -> dict_set k v d = d ++ [(k, v)].
Proof.
  induction d as [|[k' v'] d IH]; intros Hfresh; simpl.
  - reflexivity.
  - destruct (String.eqb_spec k' k) as [->|Hne].
    + exfalso. apply Hfresh. left. reflexivity.
    + rewrite IH; [reflexivity|]. intros Hin. apply Hfresh. right. exact Hin.
Qed.

Lemma dict_update_fresh (other acc : dict) :
  List.NoDup (keys (acc ++ other)) -> dict_update acc other = acc ++ other.
Proof.
  revert acc. induction other as [|[k v] other IH]; intros acc Hnodup.
  - simpl. rewrite app_nil_r. reflexivity.
  - unfold dict_update in *. simpl.
    assert (Hfresh : ~ In k (keys acc)).
    { unfold keys in *. rewrite map_app in Hnodup. simpl in Hnodup.
      apply List.NoDup_remove_2 in Hnodup. intros Hin. apply Hnodup.
      apply in_or_app. left. exact Hin. }
    rewrite (dict_set_fresh k v acc Hfresh).
    rewrite IH; rewrite <- app_assoc; simpl; [reflexivity | exact Hnodup].
Qed.

(** One item read by the decoder: the key, the colon, the value; what
    follows the value decides whether the object goes on. *)
Lemma members_item (k v : string) (acc : dict) (fuel : nat) (tail : string) :
  Json.members (S fuel) (Json.item (k, v) +:+ tail) acc
  = match Json.skip_ws tail with
    | String "}" s6 => Some (dict_set k v acc, s6)
    | String "," s6 => Json.members fuel (Json.skip_ws s6) (dict_set k v acc)
    | _ => None
    end%char.
Proof.
  unfold Json.item. cbn [fst snd]. push_append. rewrite quote_append.
  cbn [Json.members]. rewrite scanstring_escape.
  push_append. cbn [Json.skip_ws Json.is_ws]. rewrite quote_append.
  cbn [Json.skip_ws Json.is_ws]. rewrite scanstring_escape.
  reflexivity.
Qed.

Lemma skip_ws_item (kv : string * string) (tail : string) :
  Json.skip_ws (Json.item kv +:+ tail) = Json.item kv +:+ tail.
Proof.
  unfold Json.item. push_append. rewrite quote_append. reflexivity.
Qed.

(** The decoder, run on the items that [dumps_indent4] writes after the
    opening brace, stores them in order and stops after the closing
    brace. *)
Lemma members_items (d : dict) :
  forall (kv : string * string) (acc : dict) (fuel : nat) (tail : string),
    (length d < fuel)%nat ->
    Json.members fuel
      (Json.item kv +:+ Json.more_items d +:+ Json.newline +:+ String "}" tail) acc
    = Some (dict_update acc (kv :: d), tail).
Proof.
  induction d as [|kv' d IH]; intros [k v] acc fuel tail Hfuel;
    (destruct fuel as [|fuel]; [simpl in Hfuel; lia|]); rewrite members_item.
  - cbn [Json.more_items]. unfold Json.newline. push_append.
    cbn [Json.skip_ws Json.is_ws]. reflexivity.
  - cbn [Json.more_items]. unfold Json.newline at 1. push_append.
    cbn [Json.skip_ws Json.is_ws]. rewrite skip_ws_item.
    rewrite IH; [reflexivity | simpl in Hfuel; lia].
Qed.

Lemma length_more_items (d : dict) :
  (length d <= String.length (Json.more_items d))%nat.
Proof.
  induction d as [|kv d IH]; cbn [Json.more_items length]; [simpl; lia|].
  rewrite !length_append. simpl. lia.
Qed.

(** Round trip: what [json.dump(d, f, indent=4)] writes, [json.load]
    reads back as [d]. *)
Lemma loads_dumps_indent4 (d : dict) :
  List.NoDup (keys d) -> Json.loads (Json.dumps_indent4 d) = Some d.
Proof.
  intros Hnodup. destruct d as [|kv d]; [reflexivity|].
  unfold Json.dumps_indent4, Json.loads.
  set (text := "{" +:+ Json.newline +:+ "    " +:+ Json.item kv
               +:+ Json.more_items d +:+ Json.newline +:+ "}").
  assert (Hlen : (length d < String.length text)%nat).
  { unfold text. rewrite !length_append. pose proof (length_more_items d).
    simpl. lia. }
  revert Hlen. generalize (String.length text). intros fuel Hfuel. unfold text.
  unfold Json.newline at 1. push_append. cbn [Json.skip_ws Json.is_ws].
  rewrite skip_ws_item.
  pose proof (members_items d kv [] fuel EmptyString Hfuel) as Hmembers.
  assert (Hhead : exists rest,
             Json.item kv +:+ Json.more_items d +:+ Json.newline +:+ String "}" ""
             = String "034" rest).
  { unfold Json.item. push_append. rewrite quote_append. eexists. reflexivity. }
  destruct Hhead as (rest & Hhead). rewrite Hhead in *.
  lazy beta iota. rewrite Hmembers.
  rewrite (dict_update_fresh (kv :: d) []); [reflexivity | exact Hnodup].
Qed.

(** ** Paths *)

Example join_plain : Path.join "d/sub" "a.jpg" = "d/sub/a.jpg".
Proof. reflexivity. Qed.

Example join_trailing_sep : Path.join "d/" "a.jpg" = "d/a.jpg".
Proof. reflexivity. Qed.

Example splitext_plain : Path.splitext "photo.JPG" = ("photo", ".JPG").
Proof. reflexivity. Qed.

Example splitext_hidden : Path.splitext ".bashrc" = (".bashrc", "").
Proof. reflexivity. Qed.

Example splitext_two_dots : Path.splitext "a.tar.gz" = ("a.tar", ".gz").
Proof. reflexivity. Qed.

Example dirname_nested : Path.dirname "d/Images/a.jpg" = "d/Images".
Proof. reflexivity. Qed.

Example dirname_bare : Path.dirname "a.jpg" = "".
Proof. reflexivity. Qed.

Example basename_nested : Path.basename "d/Images/a.jpg" = "a.jpg".
Proof. reflexivity. Qed.

(** ** Classifier *)

Lemma get_folder_name_range extension (extensions_map : list (list string * string)) :
  In (get_folder_name extension extensions_map) (map snd extensions_map ++ ["Others"]).
Proof.
  induction extensions_map as [|[ext_group folder_name] rest IH]; simpl.
  - left; reflexivity.
  - destruct (existsb (String.eqb extension) ext_group).
    + left; reflexivity.
    + right; exact IH.
Qed.

Example classify_jpg : classify ".jpg" [] = "Images".
Proof. reflexivity. Qed.

Example classify_unknown : classify ".xyz" [] = "Others".
Proof. reflexivity. Qed.

Example classify_custom : classify ".jpg" [(".jpg", "Pictures")] = "Pictures".
Proof. reflexivity. Qed.

(** C7, as stated, fails: a custom rule whose category is the empty
    string does not override the built-in result, because the source
    combines the two lookups with [or]. *)
Lemma classify_empty_category_not_returned :
  ~ (forall (e : string) (custom_rules : dict) (category : string),
        dict_get e custom_rules = Some category ->
        classify e custom_rules = category).
Proof.
  intros H.
  specialize (H ".jpg" [(".jpg", "")] "" eq_refl).
  vm_compute in H. discriminate H.
Qed.

(** C7 (amended): classification is total, [classify e {}] is a
    built-in category name or ["Others"]; a custom rule for [e] with a
    non-empty category is returned in place of the built-in result,
    whatever that category is; a custom rule with the empty category is
    ignored and the built-in result is returned. *)
Theorem classify_total_custom_first :
  (forall e : string,
      In (classify e []) (builtin_categories ++ ["Others"])) /\
  (forall (e : string) (custom_rules : dict) (category : string),
      dict_get e custom_rules = Some category ->
      category <> "" ->
      classify e custom_rules = category) /\
  (forall (e : string) (custom_rules : dict),
      dict_get e custom_rules = Some "" ->
      classify e custom_rules = classify e []).
Proof.
  split; [|split].
  - intros e. unfold classify, builtin_categories. simpl dict_get. cbv iota.
    apply get_folder_name_range.
  - intros e custom_rules category Hget Hne. unfold classify. rewrite Hget.
    destruct (String.eqb_spec category ""); [contradiction | reflexivity].
  - intros e custom_rules Hget. unfold classify. rewrite Hget. reflexivity.
Qed.

Lemma classify_total_custom_first_witness :
  dict_get ".jpg" [(".jpg", "Pictures"); (".txt", "")] = Some "Pictures" /\
  "Pictures" <> "" /\
  classify ".jpg" [(".jpg", "Pictures"); (".txt", "")] = "Pictures" /\
  dict_get ".txt" [(".jpg", "Pictures"); (".txt", "")] = Some "" /\
  classify ".txt" [(".jpg", "Pictures"); (".txt", "")] = "Documents".
Proof.
  assert (Hne : "Pictures" <> "") by discriminate.
  split; [reflexivity|]. split; [exact Hne|]. split.
  - apply (proj1 (proj2 classify_total_custom_first)
             ".jpg" [(".jpg", "Pictures"); (".txt", "")] "Pictures"); [reflexivity | exact Hne].
  - split; [reflexivity|].
    apply (proj2 (proj2 classify_total_custom_first)
             ".txt" [(".jpg", "Pictures"); (".txt", "")]). reflexivity.
Defined.

(** ** MoveExecutor: [retry_move_file] *)

(** Reading the observations off a world built by the setters. *)
Ltac observe :=
  unfold rename_count, move_count, alerts; simpl;
  rewrite ?List.filter_app, ?map_app, ?length_app; simpl;
  rewrite ?app_nil_r, ?Nat.add_0_r.

Lemma rename_count_add_call c w :
  rename_count (add_call c w) = (rename_count w + (if is_os_rename c then 1 else 0))%nat.
Proof.
  unfold rename_count. simpl. rewrite List.filter_app, length_app. simpl.
  destruct (is_os_rename c); reflexivity.
Qed.

Lemma alerts_add_logged l msg w :
  alerts (add_logged l msg w)
  = alerts w ++ (if bool_decide (l = CRITICAL) then [msg] else []).
Proof.
  unfold alerts. simpl. rewrite List.filter_app, map_app. simpl.
  destruct (bool_decide (l = CRITICAL)); reflexivity.
Qed.

(** What [os.rename] answers when the script holds a fault. *)
Lemma os_rename_fault source destination e rest w :
  move_faults w = Some e :: rest ->
  os_rename source destination w
  = (Raise e, add_call (os_rename_call source destination (Some e)) (set_move_faults rest w)).
Proof. intros H. unfold os_rename, attempt_rename. rewrite H. reflexivity. Qed.

(** [os.rename] always comes back: it is not a loop. *)
Lemma attempt_rename_fuel record source destination w :
  fst (attempt_rename record source destination w) <> Unmodelled.
Proof.
  unfold attempt_rename.
  destruct (move_faults w) as [|[e|] rest]; simpl;
    try destruct (rename_files source destination (fs w)); simpl; discriminate.
Qed.

(** The three ways through the loop body. *)
Lemma retry_body_success source destination delay attempt w w1 :
  os_rename source destination w = (Ret tt, w1) ->
  retry_move_file_body source destination delay attempt w
  = (Ret (Some true),
     add_logged INFO ("Successfully moved " +:+ source +:+ " to " +:+ destination +:+ ".") w1).
Proof.
  intros H. unfold retry_move_file_body, try_except, bind. rewrite H. reflexivity.
Qed.

Lemma retry_body_non_recoverable source destination delay attempt w w1 e :
  os_rename source destination w = (Raise e, w1) ->
  categorize_error e = "non_recoverable" ->
  exists msg,
    retry_move_file_body source destination delay attempt w
    = (Ret (Some false), add_logged ERROR msg w1).
Proof.
  intros H Hcat. unfold retry_move_file_body, try_except, bind. rewrite H, Hcat.
  simpl. eexists. reflexivity.
Qed.

Lemma retry_body_retryable source destination delay attempt w w1 e :
  os_rename source destination w = (Raise e, w1) ->
  categorize_error e <> "non_recoverable" ->
  0 <= delay ->
  exists msg,
    retry_move_file_body source destination delay attempt w
    = (Ret None, add_call (time_sleep_call delay) (add_logged ERROR msg w1)).
Proof.
  intros H Hcat Hdelay. unfold retry_move_file_body, try_except, bind. rewrite H.
  assert (Hsleep : forall w2, time_sleep delay w2
                              = (Ret tt, add_call (time_sleep_call delay) w2)).
  { intros w2. unfold time_sleep. destruct (Z.ltb_spec delay 0); [lia | reflexivity]. }
  destruct e; simpl in *; try congruence; rewrite Hsleep; eexists; reflexivity.
Qed.

(** The code after the loop: one error record, one alert, [False]. *)
Lemma retry_loop_exit fuel source destination retries delay attempt w :
  retries <= attempt ->
  exists msg1 msg2,
    retry_move_file_loop (S fuel) source destination retries delay attempt w
    = (Ret false, add_logged CRITICAL msg2 (add_logged ERROR msg1 w)).
Proof.
  intros H. simpl. destruct (Z.ltb_spec attempt retries); [lia|].
  do 2 eexists. reflexivity.
Qed.

(** C10: with [retries = 0] the loop body never runs: no call to
    [os.rename] (no call at all) is made, the function returns [False],
    and one alert is raised although nothing was attempted. *)
Theorem retry_move_file_zero_retries source destination delay w :
  exists w',
    retry_move_file source destination 0 delay w = (Ret false, w') /\
    calls w' = calls w /\
    rename_count w' = rename_count w /\
    fs w' = fs w /\
    exists message, alerts w' = alerts w ++ [message].
Proof.
  unfold retry_move_file.
  destruct (retry_loop_exit (Z.to_nat 0) source destination 0 delay 0 w) as (m1 & m2 & Hrun);
    [lia|].
  rewrite Hrun. eexists. split; [reflexivity|].
  repeat split; try reflexivity.
  exists m2. rewrite !alerts_add_logged. simpl. rewrite app_nil_r. reflexivity.
Qed.

(** C6: when the first attempt raises an error that [categorize_error]
    classifies as non-recoverable, [retry_move_file] makes that one
    attempt, returns [False] at once, and raises no alert. *)
Theorem retry_move_file_non_recoverable source destination retries delay w w1 e :
  0 < retries ->
  os_rename source destination w = (Raise e, w1) ->
  categorize_error e = "non_recoverable" ->
  exists w',
    retry_move_file source destination retries delay w = (Ret false, w') /\
    calls w' = calls w ++ [os_rename_call source destination (Some e)] /\
    rename_count w' = S (rename_count w) /\
    alerts w' = alerts w /\
    fs w' = fs w.
Proof.
  intros Hretries Hrename Hcat.
  destruct (retry_body_non_recoverable source destination delay 0 w w1 e Hrename Hcat)
    as [msg Hbody].
  unfold retry_move_file. simpl retry_move_file_loop.
  destruct (Z.ltb_spec 0 retries); [|lia].
  unfold bind at 1. rewrite Hbody. unfold ret.
  eexists. split; [reflexivity|].
  unfold os_rename, attempt_rename in Hrename.
  destruct (move_faults w) as [|[e'|] rest] eqn:Hscript; simpl in Hrename;
    try destruct (rename_files source destination (fs w));
    inversion Hrename; subst; observe; repeat split; try reflexivity; lia.
Qed.

(** The loop under a script that refuses the next [n] renames with
    retryable errors, [n] being the number of attempts left: [n]
    attempts are made, the script is consumed by as much, and the code
    after the loop runs. *)
Lemma retry_loop_exhausts source destination retries delay :
  0 <= delay ->
  forall (n fuel : nat) (attempt : Z) (w : World),
    (n < fuel)%nat ->
    retries - attempt = Z.of_nat n ->
    (n <= length (move_faults w))%nat ->
    forallb retryable_fault (take n (move_faults w)) = true ->
    exists w',
      retry_move_file_loop fuel source destination retries delay attempt w = (Ret false, w') /\
      rename_count w' = (rename_count w + n)%nat /\
      length (alerts w') = S (length (alerts w)) /\
      fs w' = fs w /\
      move_faults w' = drop n (move_faults w).
Proof.
  intros Hdelay n. induction n as [|n IH]; intros fuel attempt w Hfuel Hleft Hlen Hall.
  - destruct fuel as [|fuel]; [lia|].
    destruct (retry_loop_exit fuel source destination retries delay attempt w)
      as (m1 & m2 & Hrun); [lia|].
    rewrite Hrun. eexists. split; [reflexivity|].
    observe. repeat split; try reflexivity; lia.
  - destruct fuel as [|fuel]; [lia|].
    destruct (move_faults w) as [|fault rest] eqn:Hscript; [simpl in Hlen; lia|].
    simpl in Hall. apply andb_prop in Hall as [Hhead Hrest].
    destruct fault as [e|]; [|discriminate Hhead].
    assert (Hcat : categorize_error e <> "non_recoverable").
    { simpl in Hhead. intros Heq. rewrite Heq in Hhead. discriminate Hhead. }
    pose proof (os_rename_fault source destination e rest w Hscript) as Hrename.
    destruct (retry_body_retryable source destination delay attempt w _ e Hrename Hcat Hdelay)
      as [msg Hbody].
    simpl retry_move_file_loop.
    destruct (Z.ltb_spec attempt retries); [|lia].
    unfold bind at 1. rewrite Hbody.
    edestruct (IH fuel (attempt + 1)) as (w' & Hrun & Hcount & Halerts & Hfs & Hfaults);
      [| | | | rewrite Hrun].
    + lia.
    + lia.
    + simpl. simpl in Hlen. lia.
    + simpl. exact Hrest.
    + exists w'. split; [reflexivity|].
      rewrite Hcount, Halerts, Hfs, Hfaults. observe.
      repeat split; try reflexivity; lia.
Qed.

(** C5: when every attempt is refused with an error classified as
    recoverable or unknown, [retry_move_file] makes exactly [retries]
    attempts, returns [False] and raises exactly one alert.  The number
    of attempts and the delay are counts: neither is negative. *)
Theorem retry_move_file_exhausts source destination retries delay w :
  0 <= retries ->
  0 <= delay ->
  (Z.to_nat retries <= length (move_faults w))%nat ->
  forallb retryable_fault (take (Z.to_nat retries) (move_faults w)) = true ->
  exists w',
    retry_move_file source destination retries delay w = (Ret false, w') /\
    Z.of_nat (rename_count w') = Z.of_nat (rename_count w) + retries /\
    length (alerts w') = S (length (alerts w)) /\
    fs w' = fs w.
Proof.
  intros Hretries Hdelay Hlen Hall. unfold retry_move_file.
  destruct (retry_loop_exhausts source destination retries delay Hdelay
              (Z.to_nat retries) (S (Z.to_nat retries)) 0 w)
    as (w' & Hrun & Hcount & Halerts & Hfs & _); try assumption; try lia.
  exists w'. split; [exact Hrun|]. split; [|split; assumption]. lia.
Qed.

Lemma retry_move_file_non_recoverable_witness :
  exists w',
    retry_move_file "inbox/gone.txt" "inbox/Documents/gone.txt" 3 2 empty_world
    = (Ret false, w') /\
    calls w' = calls empty_world
               ++ [os_rename_call "inbox/gone.txt" "inbox/Documents/gone.txt"
                                  (Some FileNotFoundError)] /\
    rename_count w' = S (rename_count empty_world) /\
    alerts w' = alerts empty_world /\
    fs w' = fs empty_world.
Proof.
  apply (retry_move_file_non_recoverable
           "inbox/gone.txt" "inbox/Documents/gone.txt" 3 2 empty_world
           (add_call (os_rename_call "inbox/gone.txt" "inbox/Documents/gone.txt"
                                     (Some FileNotFoundError))
                     (set_move_faults [] empty_world))
           FileNotFoundError).
  - lia.
  - reflexivity.
  - reflexivity.
Defined.

Lemma retry_move_file_exhausts_witness :
  exists w',
    retry_move_file "inbox/report.txt" "inbox/Documents/report.txt" 3 2 locked_world
    = (Ret false, w') /\
    Z.of_nat (rename_count w') = Z.of_nat (rename_count locked_world) + 3 /\
    length (alerts w') = S (length (alerts locked_world)) /\
    fs w' = fs locked_world.
Proof.
  apply (retry_move_file_exhausts
           "inbox/report.txt" "inbox/Documents/report.txt" 3 2 locked_world).
  - lia.
  - lia.
  - simpl. lia.
  - reflexivity.
Defined.

(** The companion case of the retry policy: a recoverable error on the
    first attempt, none on the second; two attempts, [True]. *)
Example retry_move_file_second_attempt :
  let run := retry_move_file "inbox/report.txt" "inbox/Documents/report.txt"
                             default_retries default_delay busy_once_world in
  fst run = Ret true /\
  rename_count (snd run) = 2%nat /\
  alerts (snd run) = [] /\
  fs (snd run) !! "inbox/Documents/report.txt" = Some "report" /\
  fs (snd run) !! "inbox/report.txt" = None.
Proof. vm_compute. repeat split; reflexivity. Qed.

(** Whatever the arguments and the world, the loop of
    [retry_move_file] ends within the iterations it is given. *)
Lemma retry_move_file_loop_total source destination retries delay :
  forall (fuel : nat) (attempt : Z) (w : World),
    (Z.to_nat (retries - attempt) < fuel)%nat ->
    fst (retry_move_file_loop fuel source destination retries delay attempt w) <> Unmodelled.
Proof.
  induction fuel as [|fuel IH]; intros attempt w Hfuel; [lia|].
  simpl. destruct (Z.ltb_spec attempt retries) as [Hlt|Hge].
  - unfold bind at 1.
    destruct (retry_move_file_body source destination delay attempt w)
      as [[[b|]|e|] w1] eqn:Hbody; simpl; try discriminate.
    + apply IH. lia.
    + exfalso. unfold retry_move_file_body, try_except, bind in Hbody.
      pose proof (attempt_rename_fuel (os_rename_call source destination)
                    source destination w) as Hos.
      unfold os_rename in Hbody.
      destruct (attempt_rename (os_rename_call source destination) source destination w)
        as [[[]|e|] w2]; simpl in *; try congruence.
      unfold time_sleep in Hbody.
      destruct e; simpl in Hbody; try discriminate Hbody;
        destruct (delay <? 0); simpl in Hbody; discriminate Hbody.
  - discriminate.
Qed.

Lemma retry_move_file_total source destination retries delay w :
  fst (retry_move_file source destination retries delay w) <> Unmodelled.
Proof.
  unfold retry_move_file. apply retry_move_file_loop_total. lia.
Qed.

(** ** MovementLedger: [log_movement] and [undo_selected_moves] *)

Lemma append_empty_r (s : string) : s +:+ EmptyString = s.
Proof. induction s as [|c s IH]; push_append; [reflexivity | f_equal; exact IH]. Qed.

Lemma drop_all (n : nat) (s : string) :
  (String.length s <= n)%nat -> Path.drop n s = EmptyString.
Proof.
  revert s. induction n as [|n IH]; intros [|c s] Hlen; simpl in *;
    try reflexivity; try lia.
  apply IH. lia.
Qed.

(** A text at least as long as the old content replaces it entirely. *)
Lemma write_at_start_covers (text old : string) :
  (String.length old <= String.length text)%nat -> write_at_start text old = text.
Proof.
  intros Hlen. unfold write_at_start. rewrite (drop_all _ _ Hlen).
  apply append_empty_r.
Qed.

Lemma more_items_app (d1 d2 : dict) :
  Json.more_items (d1 ++ d2) = Json.more_items d1 +:+ Json.more_items d2.
Proof.
  induction d1 as [|kv d1 IH]; cbn [Json.more_items app]; [reflexivity|].
  rewrite IH. push_append. reflexivity.
Qed.

(** Appending an item never shortens the text. *)
Lemma length_dumps_app (d : dict) (kv : string * string) :
  (String.length (Json.dumps_indent4 d)
   <= String.length (Json.dumps_indent4 (d ++ [kv])))%nat.
Proof.
  destruct d as [|kv0 d]; cbn [Json.dumps_indent4 app].
  - rewrite !length_append. simpl. lia.
  - rewrite more_items_app, !length_append. lia.
Qed.

(** [log_movement] on a store that does not exist yet: the store holds
    the one record, keyed by [src]. *)
Lemma log_movement_new_store (src dest : string) (w : World) :
  log_file w = None ->
  log_movement src dest w
  = (Ret tt, set_log_file (Some (Json.dumps_indent4 [(src, dest)])) w).
Proof.
  intros Hnone. unfold log_movement, bind, gets, modify. rewrite Hnone. simpl.
  rewrite write_at_start_covers; [reflexivity|].
  rewrite !length_append. simpl. lia.
Qed.

(** [log_movement] on a store written by [json.dump(.., indent=4)] that
    has no record under [src]: the record is appended and the store is
    again exactly the text of its dict. *)
Lemma log_movement_append (src dest : string) (d : dict) (w : World) :
  log_file w = Some (Json.dumps_indent4 d) ->
  List.NoDup (keys d) ->
  ~ In src (keys d) ->
  log_movement src dest w
  = (Ret tt, set_log_file (Some (Json.dumps_indent4 (d ++ [(src, dest)]))) w).
Proof.
  intros Hstore Hnodup Hfresh.
  unfold log_movement, bind, gets, modify, ret. rewrite Hstore. cbv beta iota.
  rewrite Hstore. cbv beta iota.
  unfold json_load. rewrite (loads_dumps_indent4 d Hnodup). unfold ret.
  unfold dict_update. cbn [fold_left fst snd]. rewrite (dict_set_fresh src dest d Hfresh).
  rewrite write_at_start_covers; [reflexivity | apply length_dumps_app].
Qed.

(** [log_movement] changes nothing but the log; on a log within what
    the model reads it returns or raises; and when it does not return,
    a log that was there is as it was. *)
Lemma log_movement_only_log (src dest : string) (w : World) :
  let run := log_movement src dest w in
  snd run = set_log_file (log_file (snd run)) w /\
  (covered (log_file w) = true -> fst run <> Unmodelled) /\
  (fst run <> Ret tt -> log_file w <> None -> log_file (snd run) = log_file w).
Proof.
  unfold log_movement, bind, gets, modify, json_load, covered.
  destruct w as [f rf mf lf rules i o c l]. cbn [log_file].
  destruct lf as [old|]; simpl.
  - destruct (Json.loads old); simpl.
    + repeat split; try discriminate; congruence.
    + destruct (Json.rejects old); simpl; repeat split; try discriminate; congruence.
  - repeat split; try discriminate; congruence.
Qed.

(** C9 at a failing input.  The store holds the record of an earlier
    pass, [d/a.txt -> d/Documents/a.txt]; a file of the same original
    path is now recorded as moved to [d/T/a.txt].  The merged mapping
    has a shorter text than the old one, and since [log_movement]
    rewinds the file without truncating it, the end of the old text
    stays behind the new one: the store is not the serialization of the
    merged mapping, and it no longer loads: [json.load] refuses it. *)
Theorem log_movement_stale_tail :
  let run := log_movement "d/a.txt" "d/T/a.txt" logged_world in
  let merged := dict_update [("d/a.txt", "d/Documents/a.txt")] [("d/a.txt", "d/T/a.txt")] in
  fst run = Ret tt /\
  merged = [("d/a.txt", "d/T/a.txt")] /\
  log_file (snd run) <> Some (Json.dumps_indent4 merged) /\
  log_file (snd run)
  = Some (Json.dumps_indent4 merged
          +:+ "a.txt" +:+ String Json.dquote Json.newline +:+ "}") /\
  stored_log (snd run) = None /\
  refused (log_file (snd run)) = true.
Proof.
  vm_compute. repeat split; try reflexivity. intros Heq. discriminate Heq.
Qed.

(** C2 at a failing input.  After a pass over the sample directory the
    picture has moved from [d/a.jpg] to [d/Images/a.jpg]; its record is
    keyed by the path it had before the move and holds the path it has
    now, and no record is keyed by the new path. *)
Theorem log_movement_keyed_by_source :
  let organized := snd (organize_files sample_digest sample_walk sample_walk_dirs
      sample_dir_entries rmdir_passes "d" (sample_tree "")) in
  fs (sample_tree "") !! "d/a.jpg" = Some "AAA" /\
  fs organized !! "d/a.jpg" = None /\
  fs organized !! "d/Images/a.jpg" = Some "AAA" /\
  stored_log organized
  = Some [("d/a.jpg", "d/Images/a.jpg"); ("d/b.txt", "d/Documents/b.txt")] /\
  stored_record "d/Images/a.jpg" organized = None /\
  stored_record "d/a.jpg" organized = Some "d/Images/a.jpg".
Proof. vm_compute. repeat split; reflexivity. Qed.

(** C1 at a failing input.  The pass moves [d/a.jpg] to
    [d/Images/a.jpg]; the user then asks to undo what concerns
    [d/a.jpg].  [undo_selected_moves] searches the query in the values
    of the log, which are the new paths: nothing matches, the file
    stays where the pass put it and the log is as it was. *)
Theorem undo_by_original_path_restores_nothing :
  let organized := snd (organize_files sample_digest sample_walk sample_walk_dirs
      sample_dir_entries rmdir_passes "d" (sample_tree "d/a.jpg")) in
  let run := undo_selected_moves organized in
  fs organized !! "d/a.jpg" = None /\
  fs organized !! "d/Images/a.jpg" = Some "AAA" /\
  fst run = Ret tt /\
  fs (snd run) !! "d/a.jpg" = None /\
  fs (snd run) !! "d/Images/a.jpg" = Some "AAA" /\
  log_file (snd run) = log_file organized /\
  calls (snd run) = calls organized.
Proof. vm_compute. repeat split; reflexivity. Qed.

(** The same pass, undone by the name of the directory, which occurs in
    the new paths as well: every record matches, each file is "moved
    back" from its old path to its new one, which fails because nothing
    is at the old path, and the records are dropped all the same. *)
Example undo_by_directory_loses_records :
  let organized := snd (organize_files sample_digest sample_walk sample_walk_dirs
      sample_dir_entries rmdir_passes "d" (sample_tree "d/")) in
  let run := undo_selected_moves organized in
  fst run = Ret tt /\
  fs (snd run) = fs organized /\
  fs (snd run) !! "d/a.jpg" = None /\
  log_file (snd run) = Some "{}" /\
  calls (snd run)
  = calls organized
    ++ [os_rename_call "d/a.jpg" "d/Images/a.jpg" (Some FileNotFoundError);
        shutil_copy2_call "d/a.jpg" "d/Images/a.jpg" (Some FileNotFoundError);
        shutil_move_call "d/a.jpg" "d/Images/a.jpg" (Some FileNotFoundError);
        os_rename_call "d/b.txt" "d/Documents/b.txt" (Some FileNotFoundError);
        shutil_copy2_call "d/b.txt" "d/Documents/b.txt" (Some FileNotFoundError);
        shutil_move_call "d/b.txt" "d/Documents/b.txt" (Some FileNotFoundError)].
Proof. vm_compute. repeat split; reflexivity. Qed.

(** A log keyed the way [undo_selected_moves] reads it, by new path, is
    undone as the specification says. *)
Example undo_on_log_keyed_by_destination :
  let w := mkWorld {[ "d/Images/a.jpg" := "AAA" ]} ∅ []
                   (Some (Json.dumps_indent4 [("d/Images/a.jpg", "d/a.jpg");
                                               ("d/Documents/b.txt", "d/b.txt")]))
                   None ["d/a.jpg"] [] [] [] in
  let run := undo_selected_moves w in
  fst run = Ret tt /\
  fs (snd run) !! "d/a.jpg" = Some "AAA" /\
  fs (snd run) !! "d/Images/a.jpg" = None /\
  stored_log (snd run) = Some [("d/Documents/b.txt", "d/b.txt")].
Proof. vm_compute. repeat split; reflexivity. Qed.

(** ** OrganizeEngine: [organize_files] *)

(** C4 at a failing input.  The first file of the directory cannot be
    read: [get_file_hash] raises outside any [try], the exception leaves
    [organize_files], and the files that follow are never looked at. *)
Theorem unreadable_file_aborts_pass :
  let run := organize_files sample_digest sample_walk sample_walk_dirs
      sample_dir_entries rmdir_passes "d" unreadable_tree in
  fst run = Raise PermissionError /\
  fs (snd run) = fs unreadable_tree /\
  fs (snd run) !! "d/b.txt" = Some "BBB" /\
  fs (snd run) !! "d/Documents/b.txt" = None /\
  calls (snd run) = [] /\
  log_file (snd run) = None.
Proof. vm_compute. repeat split; reflexivity. Qed.

(** C3, as stated, fails.  The system refuses, with a recoverable
    error, to rename the first file and then to copy it.
    [retry_move_file], with its three attempts, would have moved the
    file at the third; the pass calls [shutil.move] once, which calls
    [os.rename] once, and gives the file up: no second attempt, no
    pause, no alert; the file stays where it was, without a record. *)
Lemma organize_files_gives_up_after_one_attempt :
  let run := organize_files sample_digest sample_walk sample_walk_dirs empty_images_entries
               rmdir_passes "d" busy_tree in
  let retried := retry_move_file "d/a.jpg" "d/Images/a.jpg" default_retries default_delay
                   busy_tree in
  fst retried = Ret true /\
  rename_count (snd retried) = 3%nat /\
  fst run = Ret tt /\
  List.filter is_shutil_move (calls (snd run))
  = [shutil_move_call "d/a.jpg" "d/Images/a.jpg" (Some PermissionError);
     shutil_move_call "d/b.txt" "d/Documents/b.txt" None] /\
  List.filter is_os_rename (calls (snd run))
  = [os_rename_call "d/a.jpg" "d/Images/a.jpg" (Some PermissionError);
     os_rename_call "d/b.txt" "d/Documents/b.txt" None] /\
  sleep_count (snd run) = 0%nat /\
  alerts (snd run) = [] /\
  fs (snd run) !! "d/a.jpg" = Some "AAA" /\
  fs (snd run) !! "d/Images/a.jpg" = None /\
  stored_log (snd run) = Some [("d/b.txt", "d/Documents/b.txt")].
Proof. vm_compute. repeat split; reflexivity. Qed.

(** *** System calls that go through *)

Lemma os_makedirs_world (path : string) (w : World) :
  snd (os_makedirs path w) = w /\ fst (os_makedirs path w) <> Unmodelled.
Proof.
  unfold os_makedirs. destruct (String.eqb path ""); [split; [reflexivity|discriminate]|].
  destruct (fs w !! path); split; try reflexivity; discriminate.
Qed.

Lemma os_makedirs_ok (path : string) (w : World) :
  path <> "" -> fs w !! path = None -> os_makedirs path w = (Ret tt, w).
Proof.
  intros Hne Hfree. unfold os_makedirs.
  destruct (String.eqb_spec path ""); [contradiction|]. rewrite Hfree. reflexivity.
Qed.

Lemma read_file_world (path : string) (w : World) :
  snd (read_file path w) = w /\ fst (read_file path w) <> Unmodelled.
Proof.
  unfold read_file. destruct (read_faults w !! path); [split; [reflexivity|discriminate]|].
  destruct (fs w !! path); split; try reflexivity; discriminate.
Qed.

Lemma read_file_ok (path content : string) (w : World) :
  read_faults w !! path = None -> fs w !! path = Some content ->
  read_file path w = (Ret content, w).
Proof. intros Hr Hf. unfold read_file. rewrite Hr, Hf. reflexivity. Qed.

(** Worlds that differ by files, calls and script only. *)
Lemma files_only_refl (w : World) : files_only w w.
Proof. repeat split. Qed.

Lemma files_only_trans (w1 w2 w3 : World) :
  files_only w1 w2 -> files_only w2 w3 -> files_only w1 w3.
Proof. unfold files_only. intuition congruence. Qed.

Lemma files_only_add_call (c : call) (w w' : World) :
  files_only w w' -> files_only w (add_call c w').
Proof. unfold files_only. simpl. tauto. Qed.

Lemma files_only_alerts (w w' : World) : files_only w w' -> alerts w' = alerts w.
Proof.
  unfold files_only, alerts. intros (_ & _ & _ & _ & _ & Hlogged).
  rewrite Hlogged. reflexivity.
Qed.

(** What one attempt to rename leaves behind, whatever its outcome: one
    recorded call; the files as [rename_files] makes them, or
    untouched. *)
Lemma attempt_rename_cases (record : option exn -> call) (src dst : string) (w : World) :
  exists outcome w',
    attempt_rename record src dst w = (answer outcome, w') /\
    calls w' = calls w ++ [record outcome] /\
    files_only w w' /\
    match outcome with
    | None => rename_files src dst (fs w) = Some (fs w')
    | Some _ => fs w' = fs w
    end.
Proof.
  unfold attempt_rename.
  destruct (move_faults w) as [|[e|] rest]; simpl.
  - destruct (rename_files src dst (fs w)) as [f'|] eqn:Hfiles.
    + exists None. eexists. split; [reflexivity|]. simpl. repeat split; reflexivity.
    + exists (Some FileNotFoundError). eexists. split; [reflexivity|]. simpl.
      repeat split; reflexivity.
  - exists (Some e). eexists. split; [reflexivity|]. simpl. repeat split; reflexivity.
  - destruct (rename_files src dst (fs w)) as [f'|] eqn:Hfiles.
    + exists None. eexists. split; [reflexivity|]. simpl. repeat split; reflexivity.
    + exists (Some FileNotFoundError). eexists. split; [reflexivity|]. simpl.
      repeat split; reflexivity.
Qed.

(** The same for the copy and for the removal of a file. *)
Lemma shutil_copy2_cases (src dst : string) (w : World) :
  exists outcome w',
    shutil_copy2 src dst w = (answer outcome, w') /\
    calls w' = calls w ++ [shutil_copy2_call src dst outcome] /\
    files_only w w' /\
    match outcome with
    | None =>
        src <> dst /\
        exists content, fs w !! src = Some content /\ fs w' = <[dst := content]> (fs w)
    | Some _ => fs w' = fs w
    end.
Proof.
  assert (Hfree : forall w1 : World,
             fs w1 = fs w -> read_faults w1 = read_faults w ->
             (exists e, copy_files src dst w1 = inl e) \/
             (src <> dst /\ exists content,
                 fs w !! src = Some content /\
                 copy_files src dst w1 = inr (<[dst := content]> (fs w)))).
  { intros w1 Hf Hr. unfold copy_files. rewrite Hf, Hr.
    destruct (fs w !! src) as [content|]; [|left; eexists; reflexivity].
    destruct (String.eqb_spec src dst) as [Heq|Hne]; [left; eexists; reflexivity|].
    destruct (read_faults w !! src) as [e|]; [left; eexists; reflexivity|].
    right. split; [exact Hne|]. exists content. split; reflexivity. }
  unfold shutil_copy2.
  destruct (move_faults w) as [|[e|] rest]; cbv beta iota zeta.
  - destruct (Hfree (set_move_faults [] w) eq_refl eq_refl)
      as [[e He] | (Hne & content & Hsrc & Hcopy)].
    + rewrite He. exists (Some e). eexists. split; [reflexivity|]. simpl.
      repeat split; reflexivity.
    + rewrite Hcopy. exists None. eexists. split; [reflexivity|]. simpl.
      split; [reflexivity|]. split; [repeat split; reflexivity|].
      split; [exact Hne|]. exists content. split; [exact Hsrc | reflexivity].
  - exists (Some e). eexists. split; [reflexivity|]. simpl. repeat split; reflexivity.
  - destruct (Hfree (set_move_faults rest w) eq_refl eq_refl)
      as [[e He] | (Hne & content & Hsrc & Hcopy)].
    + rewrite He. exists (Some e). eexists. split; [reflexivity|]. simpl.
      repeat split; reflexivity.
    + rewrite Hcopy. exists None. eexists. split; [reflexivity|]. simpl.
      split; [reflexivity|]. split; [repeat split; reflexivity|].
      split; [exact Hne|]. exists content. split; [exact Hsrc | reflexivity].
Qed.

Lemma attempt_remove_cases (record : option exn -> call) (path : string) (w : World) :
  exists outcome w',
    attempt_remove record path w = (answer outcome, w') /\
    calls w' = calls w ++ [record outcome] /\
    files_only w w' /\
    move_faults w' = tail (move_faults w) /\
    match outcome with
    | None => fs w' = delete path (fs w)
    | Some _ => fs w' = fs w
    end.
Proof.
  unfold attempt_remove.
  destruct (move_faults w) as [|[e|] rest]; simpl.
  - destruct (fs w !! path) as [content|].
    + exists None. eexists. split; [reflexivity|]. simpl. repeat split; reflexivity.
    + exists (Some FileNotFoundError). eexists. split; [reflexivity|]. simpl.
      repeat split; reflexivity.
  - exists (Some e). eexists. split; [reflexivity|]. simpl. repeat split; reflexivity.
  - destruct (fs w !! path) as [content|].
    + exists None. eexists. split; [reflexivity|]. simpl. repeat split; reflexivity.
    + exists (Some FileNotFoundError). eexists. split; [reflexivity|]. simpl.
      repeat split; reflexivity.
Qed.

Lemma rename_files_frame (src dst p : string) (f f' : gmap string string) :
  rename_files src dst f = Some f' -> p <> src -> p <> dst -> f' !! p = f !! p.
Proof.
  unfold rename_files. destruct (f !! src) as [content|]; [|discriminate].
  intros Heq Hsrc Hdst. inversion Heq; subst.
  rewrite lookup_insert_ne, lookup_delete_ne by congruence. reflexivity.
Qed.

(** Copying and then unlinking is renaming. *)
Lemma copy_then_unlink (src dst content : string) (f : gmap string string) :
  src <> dst -> f !! src = Some content ->
  rename_files src dst f = Some (delete src (<[dst := content]> f)).
Proof.
  intros Hne Hsrc. unfold rename_files. rewrite Hsrc. f_equal.
  apply map_eq. intros p.
  destruct (decide (p = src)) as [->|Hp].
  - rewrite lookup_delete_eq, lookup_insert_ne, lookup_delete_eq by congruence. reflexivity.
  - rewrite lookup_delete_ne by congruence.
    destruct (decide (p = dst)) as [->|Hq].
    + rewrite !lookup_insert_eq. reflexivity.
    + rewrite !lookup_insert_ne, lookup_delete_ne by congruence. reflexivity.
Qed.

(** [shutil.move], whatever the system answers: one call to [os.rename]
    and no other rename; when the move comes through, the files are
    those of a rename; when it raises, every path but the destination
    holds what it held, the source included. *)
Lemma shutil_move_cases (src dst : string) (w : World) :
  exists outcome trace w',
    shutil_move src dst w = (answer outcome, w') /\
    calls w' = calls w ++ trace ++ [shutil_move_call src dst outcome] /\
    one_rename src dst trace /\
    files_only w w' /\
    match outcome with
    | None => rename_files src dst (fs w) = Some (fs w')
    | Some _ => forall p, p <> dst -> fs w' !! p = fs w !! p
    end.
Proof.
  unfold shutil_move, try_except, os_rename.
  destruct (attempt_rename_cases (os_rename_call src dst) src dst w)
    as (o1 & w1 & Hrename & Hc1 & Hq1 & Hf1).
  rewrite Hrename. destruct o1 as [e1|]; cbn [answer].
  - destruct (is_OSError e1).
    + unfold bind.
      destruct (shutil_copy2_cases src dst w1) as (o2 & w2 & Hcopy & Hc2 & Hq2 & Hf2).
      rewrite Hcopy. destruct o2 as [e2|]; cbn [answer].
      * exists (Some e2), [os_rename_call src dst (Some e1);
                           shutil_copy2_call src dst (Some e2)].
        eexists. split; [reflexivity|]. simpl.
        split; [rewrite Hc2, Hc1, <- !app_assoc; reflexivity|].
        split; [repeat split; eexists; reflexivity|].
        split; [apply files_only_add_call, (files_only_trans _ _ _ Hq1 Hq2)|].
        intros p _. rewrite Hf2, Hf1. reflexivity.
      * destruct Hf2 as (Hne & content & Hsrc & Hf2).
        unfold os_unlink.
        destruct (attempt_remove_cases (os_unlink_call src) src w2)
          as (o3 & w3 & Hunlink & Hc3 & Hq3 & _ & Hf3).
        rewrite Hunlink. destruct o3 as [e3|]; cbn [answer].
        -- exists (Some e3), [os_rename_call src dst (Some e1);
                              shutil_copy2_call src dst None;
                              os_unlink_call src (Some e3)].
           eexists. split; [reflexivity|]. simpl.
           split; [rewrite Hc3, Hc2, Hc1, <- !app_assoc; reflexivity|].
           split; [repeat split; eexists; reflexivity|].
           split; [apply files_only_add_call,
                     (files_only_trans _ _ _ (files_only_trans _ _ _ Hq1 Hq2) Hq3)|].
           intros p Hp. rewrite Hf3, Hf2, lookup_insert_ne, Hf1 by congruence. reflexivity.
        -- exists None, [os_rename_call src dst (Some e1);
                         shutil_copy2_call src dst None;
                         os_unlink_call src None].
           eexists. split; [reflexivity|]. simpl.
           split; [rewrite Hc3, Hc2, Hc1, <- !app_assoc; reflexivity|].
           split; [repeat split; eexists; reflexivity|].
           split; [apply files_only_add_call,
                     (files_only_trans _ _ _ (files_only_trans _ _ _ Hq1 Hq2) Hq3)|].
           rewrite Hf3, Hf2, Hf1. rewrite Hf1 in Hsrc.
           apply copy_then_unlink; assumption.
    + exists (Some e1), [os_rename_call src dst (Some e1)].
      eexists. split; [reflexivity|]. simpl.
      split; [rewrite Hc1, <- !app_assoc; reflexivity|].
      split; [repeat split; eexists; reflexivity|].
      split; [apply files_only_add_call, Hq1|].
      intros p _. rewrite Hf1. reflexivity.
  - exists None, [os_rename_call src dst None].
    eexists. split; [reflexivity|]. simpl.
    split; [rewrite Hc1, <- !app_assoc; reflexivity|].
    split; [repeat split; eexists; reflexivity|].
    split; [apply files_only_add_call, Hq1|].
    exact Hf1.
Qed.

(** A move that the system lets through is done by the rename. *)
Lemma shutil_move_passes (src dst content : string) (w : World) :
  hd None (move_faults w) = None ->
  fs w !! src = Some content ->
  shutil_move src dst w
  = (Ret tt,
     add_call (shutil_move_call src dst None)
       (add_call (os_rename_call src dst None)
          (set_fs (<[dst := content]> (delete src (fs w)))
             (set_move_faults (tail (move_faults w)) w)))).
Proof.
  intros Hhead Hsrc. unfold shutil_move, try_except, os_rename, attempt_rename.
  destruct (move_faults w) as [|fault rest]; simpl in *.
  - unfold rename_files. rewrite Hsrc. reflexivity.
  - subst fault. unfold rename_files. simpl. rewrite Hsrc. reflexivity.
Qed.

(** What a list of calls counts for, once appended. *)
Lemma counts_app (w w' : World) (trace : list call) :
  calls w' = calls w ++ trace ->
  rename_count w' = (rename_count w + length (List.filter is_os_rename trace))%nat /\
  move_count w' = (move_count w + length (List.filter is_shutil_move trace))%nat /\
  remove_count w' = (remove_count w + length (List.filter is_os_remove trace))%nat /\
  sleep_count w' = (sleep_count w + length (List.filter is_time_sleep trace))%nat.
Proof.
  intros Hcalls. unfold rename_count, move_count, remove_count, sleep_count.
  rewrite Hcalls, !List.filter_app, !length_app. repeat split; reflexivity.
Qed.

(** What one [shutil.move] counts for. *)
Lemma one_rename_counts (src dst : string) (trace : list call) (outcome : option exn)
    (w w' : World) :
  calls w' = calls w ++ trace ++ [shutil_move_call src dst outcome] ->
  one_rename src dst trace ->
  rename_count w' = S (rename_count w) /\
  move_count w' = S (move_count w) /\
  remove_count w' = remove_count w /\
  sleep_count w' = sleep_count w /\
  List.filter is_shutil_move (calls w')
  = List.filter is_shutil_move (calls w) ++ [shutil_move_call src dst outcome].
Proof.
  intros Hcalls ([first Hrenames] & Hmoves & Hremoves & Hsleeps).
  unfold rename_count, move_count, remove_count, sleep_count.
  rewrite Hcalls, !List.filter_app, Hrenames, Hmoves, Hremoves, Hsleeps, !length_app.
  simpl. repeat split; lia.
Qed.

(** The outcome of [log_movement], and the log it leaves, depend on the
    log alone. *)
Lemma log_movement_log_file (src dest : string) (w1 w2 : World) :
  log_file w1 = log_file w2 ->
  fst (log_movement src dest w1) = fst (log_movement src dest w2) /\
  log_file (snd (log_movement src dest w1)) = log_file (snd (log_movement src dest w2)).
Proof.
  intros Heq. unfold log_movement, bind, gets, modify, json_load.
  destruct (log_file w1) as [old|] eqn:Hstore1;
    destruct (log_file w2) as [old'|] eqn:Hstore2; try discriminate Heq;
    simpl; rewrite ?Hstore1, ?Hstore2.
  - inversion Heq; subst old'.
    destruct (Json.loads old); [|destruct (Json.rejects old)];
      unfold ret, raise; simpl; rewrite ?Hstore1, ?Hstore2; split; reflexivity.
  - split; reflexivity.
Qed.

(** *** Names that are never empty *)

Lemma get_folder_name_builtin_nonempty (e : string) :
  get_folder_name e EXTENSIONS <> "".
Proof.
  pose proof (get_folder_name_range e EXTENSIONS) as Hin.
  assert (Hall : Forall (fun name => name <> "") (map snd EXTENSIONS ++ ["Others"])).
  { repeat constructor; discriminate. }
  rewrite Forall_forall in Hall. apply Hall. apply list_elem_of_In. exact Hin.
Qed.

Lemma classify_nonempty (e : string) (custom_rules : dict) :
  classify e custom_rules <> "".
Proof.
  unfold classify. destruct (dict_get e custom_rules) as [folder|].
  - destruct (String.eqb_spec folder ""); [apply get_folder_name_builtin_nonempty | assumption].
  - apply get_folder_name_builtin_nonempty.
Qed.

Lemma append_eq_empty (a b : string) : a +:+ b = "" -> a = "" /\ b = "".
Proof. destruct a; [rewrite append_nil; auto | rewrite append_cons; discriminate]. Qed.

Lemma join_nonempty (a b : string) : b <> "" -> Path.join a b <> "".
Proof.
  intros Hb. unfold Path.join. destruct (startswith_char Path.sep b); [exact Hb|].
  destruct (String.eqb a "" || endswith_char Path.sep a); intros Heq;
    apply append_eq_empty in Heq as [_ Heq]; [contradiction | discriminate].
Qed.

Lemma folder_of_nonempty (directory : string) (custom_rules : dict) (filename : string) :
  folder_of directory custom_rules filename <> "".
Proof. apply join_nonempty, classify_nonempty. Qed.

(** *** Running a sequence *)

Lemma bind_ret {A B} (c : M A) (k : A -> M B) (w w1 : World) (a : A) :
  c w = (Ret a, w1) -> bind c k w = k a w1.
Proof. intros H. unfold bind. rewrite H. reflexivity. Qed.

Lemma bind_raise {A B} (c : M A) (k : A -> M B) (w w1 : World) (e : exn) :
  c w = (Raise e, w1) -> bind c k w = (Raise e, w1).
Proof. intros H. unfold bind. rewrite H. reflexivity. Qed.

Lemma bind_assoc {A B C} (c : M A) (k : A -> M B) (k' : B -> M C) (w : World) :
  bind (bind c k) k' w = bind c (fun a => bind (k a) k') w.
Proof. unfold bind. destruct (c w) as [[a|e|] w1]; reflexivity. Qed.

(** *** Dicts *)


Lemma dict_get_set_eq (k v : string) (d : dict) :
  dict_get k (dict_set k v d) = Some v.
Proof.
  unfold dict_get. induction d as [|[k' v'] d IH]; simpl.
  - rewrite String.eqb_refl. reflexivity.
  - destruct (String.eqb_spec k' k) as [->|Hne]; simpl.
    + rewrite String.eqb_refl. reflexivity.
    + destruct (String.eqb_spec k' k); [contradiction | exact IH].
Qed.

Lemma dict_get_set_ne (k k' v : string) (d : dict) :
  k <> k' -> dict_get k' (dict_set k v d) = dict_get k' d.
Proof.
  intros Hne. unfold dict_get. induction d as [|[k0 v0] d IH]; simpl.
  - destruct (String.eqb_spec k k'); [contradiction | reflexivity].
  - destruct (String.eqb_spec k0 k) as [->|Hne0]; simpl.
    + destruct (String.eqb_spec k k'); [contradiction | reflexivity].
    + destruct (String.eqb_spec k0 k'); [reflexivity | exact IH].
Qed.

Lemma keys_dict_set (k v : string) (d : dict) :
  keys (dict_set k v d) = if dict_mem k d then keys d else keys d ++ [k].
Proof.
  unfold keys, dict_mem. induction d as [|[k' v'] d IH]; simpl; [reflexivity|].
  destruct (String.eqb_spec k' k) as [->|Hne]; simpl; [reflexivity|].
  rewrite IH. destruct (existsb _ d); reflexivity.
Qed.

Lemma dict_mem_In (k : string) (d : dict) : dict_mem k d = true <-> In k (keys d).
Proof.
  unfold dict_mem, keys. rewrite existsb_exists, in_map_iff. split.
  - intros ([k' v'] & Hin & Heq). apply String.eqb_eq in Heq. simpl in Heq. subst.
    exists (k, v'). split; [reflexivity | exact Hin].
  - intros ([k' v'] & Heq & Hin). simpl in Heq. subst. exists (k, v').
    split; [exact Hin | apply String.eqb_refl].
Qed.

(** Storing into a dict keeps its keys distinct. *)
Lemma dict_set_nodup (k v : string) (d : dict) :
  List.NoDup (keys d) -> List.NoDup (keys (dict_set k v d)).
Proof.
  intros Hnodup. rewrite keys_dict_set.
  destruct (dict_mem k d) eqn:Hmem; [exact Hnodup|].
  apply List.NoDup_app; [exact Hnodup | repeat constructor; simpl; tauto |].
  intros k' Hin [Heq|[]]. subst k'. apply dict_mem_In in Hin. congruence.
Qed.


Lemma record_fits_fresh (k v : string) (d : dict) :
  ~ In k (keys d) -> record_fits k v d.
Proof.
  intros Hfresh old Hold. exfalso. apply Hfresh.
  unfold dict_get in Hold. destruct (List.find _ d) as [[k' v']|] eqn:Hfind; [|discriminate].
  apply List.find_some in Hfind as [Hin Heq]. apply String.eqb_eq in Heq. simpl in Heq.
  subst k'. unfold keys. apply in_map_iff. exists (k, v'). split; [reflexivity | exact Hin].
Qed.

(** *** The length of the text of a dict *)




Lemma load_custom_rules_ok (custom_rules : dict) (w : World) :
  stored_rules w = Some custom_rules -> load_custom_rules w = (Ret custom_rules, w).
Proof.
  unfold stored_rules, load_custom_rules, bind, gets, json_load.
  destruct (rules_file w) as [content|]; intros Hrules.
  - rewrite Hrules. reflexivity.
  - inversion Hrules. reflexivity.
Qed.

(** [log_movement] on a store that holds [d] and has no record under
    [src]: afterwards the store holds [d] and the new record. *)
Lemma log_movement_holds (src dest : string) (d : dict) (w : World) :
  store_holds d w -> List.NoDup (keys d) -> ~ In src (keys d) ->
  log_movement src dest w
  = (Ret tt, set_log_file (Some (Json.dumps_indent4 (d ++ [(src, dest)]))) w).
Proof.
  unfold store_holds. intros Hstore Hnodup Hfresh.
  destruct (log_file w) as [content|] eqn:Hlog.
  - subst content. apply log_movement_append; assumption.
  - subst d. apply log_movement_new_store. exact Hlog.
Qed.


Lemma forall_none_head (l : list (option exn)) :
  Forall (eq None) l -> hd None l = None /\ Forall (eq None) (tail l).
Proof.
  destruct l as [|fault l]; simpl; intros Hall; [split; [reflexivity | constructor]|].
  inversion Hall; subst. split; [reflexivity | assumption].
Qed.

Lemma forall_none_take (n : nat) (l : list (option exn)) :
  Forall (eq None) (take (S n) l) ->
  hd None l = None /\ Forall (eq None) (take n (tail l)).
Proof.
  destruct l as [|fault l]; simpl; intros Hall.
  - split; [reflexivity|]. destruct n; constructor.
  - inversion Hall; subst. split; [reflexivity | assumption].
Qed.

(** A world whose files are listed, none of them under the name of a
    store. *)
Lemma stores_apart_listed (w : World) (files : list (string * string)) :
  fs w = list_to_map files ->
  forallb (fun entry => negb (names_store (fst entry))) files = true ->
  stores_apart w.
Proof.
  intros Hfs Hall path Hname. rewrite Hfs.
  apply not_elem_of_list_to_map_1. intros Hin.
  apply list_elem_of_fmap in Hin as ([k v] & Heq & Hin). simpl in Heq. subst k.
  rewrite forallb_forall in Hall. apply list_elem_of_In in Hin.
  specialize (Hall _ Hin). simpl in Hall. rewrite Hname in Hall. discriminate Hall.
Qed.

(** Splitting a conjunction without unfolding what it is made of. *)
Ltac conjs := repeat match goal with |- _ /\ _ => split end.

Section OrganizeProperties.

Variable md5 : string -> string.

Lemma get_file_hash_world (path : string) (w : World) :
  snd (get_file_hash md5 path w) = w /\ fst (get_file_hash md5 path w) <> Unmodelled.
Proof.
  unfold get_file_hash, bind. pose proof (read_file_world path w) as [Hw Hfuel].
  destruct (read_file path w) as [[content|e|] w1]; simpl in *; subst;
    split; try reflexivity; try discriminate. congruence.
Qed.

Lemma get_file_hash_ok (path content : string) (w : World) :
  read_faults w !! path = None -> fs w !! path = Some content ->
  get_file_hash md5 path w = (Ret (md5 content), w).
Proof.
  intros Hr Hf. unfold get_file_hash, bind. rewrite (read_file_ok _ _ _ Hr Hf). reflexivity.
Qed.

(** The handler of the [try] around the move only writes to the logger,
    and what it writes is no alert. *)
Lemma move_handler_logs (file_path : string) (e : exn) (w : World) :
  exists l msg,
    match e with
    | PermissionError => logger_warning ("Permission denied for: " +:+ file_path)
    | _ => logger_error ("Error moving " +:+ file_path +:+ ": " +:+ str_exn e)
    end w = (Ret tt, add_logged l msg w) /\ l <> CRITICAL.
Proof. destruct e; eexists _, _; (split; [reflexivity | discriminate]). Qed.

Lemma alerts_add_logged_quiet (l : level) (msg : string) (w : World) :
  l <> CRITICAL -> alerts (add_logged l msg w) = alerts w.
Proof.
  intros Hl. rewrite alerts_add_logged.
  destruct (bool_decide_reflect (l = CRITICAL)); [contradiction | apply app_nil_r].
Qed.

(** The scan of one file that is not a duplicate: one call to
    [shutil.move], hence one to [os.rename].  When the move raises, the
    error is logged, the log file and every path but the target are as
    they were, and the scan goes on; when it comes through,
    [log_movement] has run, and the scan goes on whether it recorded
    the move or raised. *)
Lemma organize_file_non_duplicate directory custom_rules root filename st w h :
  fst (os_makedirs (folder_of directory custom_rules filename) w) = Ret tt ->
  fst (get_file_hash md5 (path_of root filename) w) = Ret h ->
  hash_map st !! h = None ->
  exists outcome trace r w',
    organize_file md5 directory custom_rules root filename st w = (r, w') /\
    calls w' = calls w ++ trace
               ++ [shutil_move_call (path_of root filename)
                     (target_of directory custom_rules filename) outcome] /\
    one_rename (path_of root filename) (target_of directory custom_rules filename) trace /\
    alerts w' = alerts w /\
    rules_file w' = rules_file w /\ stdin w' = stdin w /\ stdout w' = stdout w /\
    read_faults w' = read_faults w /\
    (covered (log_file w) = true ->
     r = Ret (mkScan (<[h := path_of root filename]> (hash_map st)) (duplicates st))) /\
    (forall st', r = Ret st' ->
       st' = mkScan (<[h := path_of root filename]> (hash_map st)) (duplicates st)) /\
    match outcome with
    | Some _ =>
        r = Ret (mkScan (<[h := path_of root filename]> (hash_map st)) (duplicates st)) /\
        (forall q, q <> target_of directory custom_rules filename ->
                   fs w' !! q = fs w !! q) /\
        log_file w' = log_file w
    | None =>
        rename_files (path_of root filename)
                     (target_of directory custom_rules filename) (fs w) = Some (fs w') /\
        log_file w'
        = log_file (snd (log_movement (path_of root filename)
                           (target_of directory custom_rules filename) w))
    end.
Proof.
  intros Hdirs Hhash Hnew.
  unfold organize_file.
  change (Path.join directory
            (classify (lower (snd (Path.splitext filename))) custom_rules))
    with (folder_of directory custom_rules filename).
  change (Path.join root filename) with (path_of root filename).
  change (Path.join (folder_of directory custom_rules filename) filename)
    with (target_of directory custom_rules filename).
  set (p := path_of root filename) in *.
  set (t := target_of directory custom_rules filename) in *.
  unfold bind at 1.
  pose proof (os_makedirs_world (folder_of directory custom_rules filename) w) as [Hw1 _].
  destruct (os_makedirs (folder_of directory custom_rules filename) w) as [r1 w1].
  simpl in Hdirs, Hw1. subst r1 w1.
  unfold bind at 1.
  pose proof (get_file_hash_world p w) as [Hw2 _].
  destruct (get_file_hash md5 p w) as [r2 w2]. simpl in Hhash, Hw2. subst r2 w2.
  rewrite Hnew. unfold bind at 1, try_except.
  destruct (shutil_move_cases p t w)
    as (outcome & trace & wm & Hmove & Hcalls & Htrace & Hquiet & Hfiles).
  pose proof (files_only_alerts _ _ Hquiet) as Halerts.
  destruct Hquiet as (Hqlog & Hqrules & Hqin & Hqout & Hqrf & Hqlogged).
  exists outcome, trace. unfold bind at 1. rewrite Hmove.
  destruct outcome as [e|]; cbn [answer].
  - destruct (move_handler_logs p e wm) as (l & msg & Hhandler & Hl). rewrite Hhandler.
    eexists _, _. split; [reflexivity|].
    rewrite (alerts_add_logged_quiet l msg wm Hl). simpl.
    conjs; try assumption; try reflexivity.
    intros st' Heq. inversion Heq. reflexivity.
  - unfold bind at 1.
    pose proof (log_movement_only_log p t wm) as (Hwl & Hcov & _).
    pose proof (log_movement_log_file p t wm w Hqlog) as [_ Hsame].
    destruct (log_movement p t wm) as [[[]|e|] wl] eqn:Hrecord;
      simpl in Hwl, Hcov, Hsame.
    + eexists _, _. split; [reflexivity|].
      rewrite alerts_add_logged_quiet by discriminate. rewrite Hwl. simpl.
      conjs; try assumption; try reflexivity;
        try (intros st' Heq; inversion Heq; reflexivity).
    + destruct (move_handler_logs p e wl) as (l & msg & Hhandler & Hl). rewrite Hhandler.
      eexists _, _. split; [reflexivity|].
      rewrite (alerts_add_logged_quiet l msg wl Hl). rewrite Hwl. simpl.
      conjs; try assumption; try reflexivity;
        try (intros st' Heq; inversion Heq; reflexivity).
    + eexists _, _. split; [reflexivity|]. rewrite Hwl. simpl.
      conjs; try assumption; try reflexivity;
        try (intros st' Heq; discriminate Heq).
      intros Hcovered. exfalso. rewrite Hqlog in Hcov. exact (Hcov Hcovered eq_refl).
Qed.

(** C3 (amended): a file that is not a duplicate is given exactly one
    move attempt, a call to [shutil.move], which calls [os.rename]
    once; the retry policy of [retry_move_file] is not run: no second
    call to [os.rename], no pause, no alert.  When the attempt raises,
    whatever the class of the error, there is no second attempt: the
    movement log and every path but the target are as they were, the
    file itself included (the target may hold a copy that
    [shutil.move] could not complete), and the scan goes on with the
    updated hash map.  The movement log is written only after an
    attempt that succeeded, by [log_movement].  The world is one where
    the stores are apart from the tree and where the log, if there is
    one, is within what the model reads. *)
Theorem organize_file_single_attempt directory custom_rules root filename st w h :
  stores_apart w ->
  covered (log_file w) = true ->
  fst (os_makedirs (folder_of directory custom_rules filename) w) = Ret tt ->
  fst (get_file_hash md5 (path_of root filename) w) = Ret h ->
  hash_map st !! h = None ->
  exists outcome w',
    organize_file md5 directory custom_rules root filename st w
    = (Ret (mkScan (<[h := path_of root filename]> (hash_map st)) (duplicates st)), w') /\
    List.filter is_shutil_move (calls w')
    = List.filter is_shutil_move (calls w)
      ++ [shutil_move_call (path_of root filename)
            (target_of directory custom_rules filename) outcome] /\
    move_count w' = S (move_count w) /\
    rename_count w' = S (rename_count w) /\
    sleep_count w' = sleep_count w /\
    alerts w' = alerts w /\
    match outcome with
    | Some _ =>
        (forall q, q <> target_of directory custom_rules filename ->
                   fs w' !! q = fs w !! q) /\
        log_file w' = log_file w
    | None =>
        rename_files (path_of root filename)
                     (target_of directory custom_rules filename) (fs w) = Some (fs w') /\
        log_file w'
        = log_file (snd (log_movement (path_of root filename)
                           (target_of directory custom_rules filename) w))
    end.
Proof.
  intros _ Hcovered Hdirs Hhash Hnew.
  destruct (organize_file_non_duplicate directory custom_rules root filename st w h
              Hdirs Hhash Hnew)
    as (outcome & trace & r & w' & Hrun & Hcalls & Htrace & Halerts & _ & _ & _ & _
        & Hret & _ & Hrest).
  rewrite (Hret Hcovered) in Hrun.
  destruct (one_rename_counts _ _ _ _ _ _ Hcalls Htrace) as (Hrc & Hmc & _ & Hsc & Hlist).
  exists outcome, w'. split; [exact Hrun|].
  split; [exact Hlist|]. split; [exact Hmc|]. split; [exact Hrc|]. split; [exact Hsc|].
  split; [exact Halerts|].
  destruct outcome as [e|]; [|exact Hrest].
  destruct Hrest as (_ & Hframe & Hlog). split; assumption.
Qed.

(** The other ways through the scan of one file. *)
Lemma organize_file_makedirs_error directory custom_rules root filename st w e :
  fst (os_makedirs (folder_of directory custom_rules filename) w) = Raise e ->
  organize_file md5 directory custom_rules root filename st w = (Raise e, w).
Proof.
  intros Hdirs. unfold organize_file.
  change (Path.join directory
            (classify (lower (snd (Path.splitext filename))) custom_rules))
    with (folder_of directory custom_rules filename).
  unfold bind at 1.
  pose proof (os_makedirs_world (folder_of directory custom_rules filename) w) as [Hw1 _].
  destruct (os_makedirs (folder_of directory custom_rules filename) w) as [r1 w1].
  simpl in Hdirs, Hw1. subst r1 w1. reflexivity.
Qed.

(** A digest that cannot be computed: the exception leaves the scan of
    the file, and nothing has been done. *)
Lemma organize_file_hash_error directory custom_rules root filename st w e :
  fst (os_makedirs (folder_of directory custom_rules filename) w) = Ret tt ->
  fst (get_file_hash md5 (path_of root filename) w) = Raise e ->
  organize_file md5 directory custom_rules root filename st w = (Raise e, w).
Proof.
  intros Hdirs Hhash. unfold organize_file.
  change (Path.join directory
            (classify (lower (snd (Path.splitext filename))) custom_rules))
    with (folder_of directory custom_rules filename).
  change (Path.join root filename) with (path_of root filename).
  unfold bind at 1.
  pose proof (os_makedirs_world (folder_of directory custom_rules filename) w) as [Hw1 _].
  destruct (os_makedirs (folder_of directory custom_rules filename) w) as [r1 w1].
  simpl in Hdirs, Hw1. subst r1 w1.
  unfold bind at 1.
  pose proof (get_file_hash_world (path_of root filename) w) as [Hw2 _].
  destruct (get_file_hash md5 (path_of root filename) w) as [r2 w2].
  simpl in Hhash, Hw2. subst r2 w2. reflexivity.
Qed.

(** A digest seen before: the file is listed with the path recorded for
    the digest, and the world is not touched. *)
Lemma organize_file_duplicate directory custom_rules root filename st w h original :
  fst (os_makedirs (folder_of directory custom_rules filename) w) = Ret tt ->
  fst (get_file_hash md5 (path_of root filename) w) = Ret h ->
  hash_map st !! h = Some original ->
  organize_file md5 directory custom_rules root filename st w
  = (Ret (mkScan (hash_map st) (duplicates st ++ [(path_of root filename, original)])), w).
Proof.
  intros Hdirs Hhash Hseen. unfold organize_file.
  change (Path.join directory
            (classify (lower (snd (Path.splitext filename))) custom_rules))
    with (folder_of directory custom_rules filename).
  change (Path.join root filename) with (path_of root filename).
  unfold bind at 1.
  pose proof (os_makedirs_world (folder_of directory custom_rules filename) w) as [Hw1 _].
  destruct (os_makedirs (folder_of directory custom_rules filename) w) as [r1 w1].
  simpl in Hdirs, Hw1. subst r1 w1.
  unfold bind at 1.
  pose proof (get_file_hash_world (path_of root filename) w) as [Hw2 _].
  destruct (get_file_hash md5 (path_of root filename) w) as [r2 w2].
  simpl in Hhash, Hw2. subst r2 w2. rewrite Hseen. reflexivity.
Qed.

(** The scan of one file, whatever happens: the digest it read, if it
    got that far, decides what becomes of the scan state. *)
Lemma organize_file_step directory custom_rules root filename st w st' w' :
  organize_file md5 directory custom_rules root filename st w = (Ret st', w') ->
  exists h,
    get_file_hash md5 (path_of root filename) w = (Ret h, w) /\
    st' = match hash_map st !! h with
          | Some original =>
              mkScan (hash_map st) (duplicates st ++ [(path_of root filename, original)])
          | None => mkScan (<[h := path_of root filename]> (hash_map st)) (duplicates st)
          end.
Proof.
  intros Hrun.
  pose proof (get_file_hash_world (path_of root filename) w) as [Hw Hf].
  destruct (fst (os_makedirs (folder_of directory custom_rules filename) w))
    as [[]|e1|] eqn:Hdirs.
  - destruct (get_file_hash md5 (path_of root filename) w) as [[h|e2|] wh] eqn:Hhash;
      simpl in Hw, Hf; subst.
    + exists h. split; [reflexivity|].
      assert (Hhash' : fst (get_file_hash md5 (path_of root filename) w) = Ret h)
        by (rewrite Hhash; reflexivity).
      destruct (hash_map st !! h) as [original|] eqn:Hseen.
      * rewrite (organize_file_duplicate _ _ _ _ _ _ _ _ Hdirs Hhash' Hseen) in Hrun.
        inversion Hrun. reflexivity.
      * destruct (organize_file_non_duplicate directory custom_rules root filename st w h
                    Hdirs Hhash' Hseen)
          as (outcome & trace & r & w1 & Hrun' & _ & _ & _ & _ & _ & _ & _ & _ & Hst & _).
        rewrite Hrun' in Hrun. inversion Hrun; subst. apply Hst. reflexivity.
    + assert (Hhash' : fst (get_file_hash md5 (path_of root filename) w) = Raise e2)
        by (rewrite Hhash; reflexivity).
      rewrite (organize_file_hash_error _ _ _ _ _ _ _ Hdirs Hhash') in Hrun.
      discriminate Hrun.
    + congruence.
  - rewrite (organize_file_makedirs_error _ _ _ _ _ _ _ Hdirs) in Hrun. discriminate Hrun.
  - pose proof (os_makedirs_world (folder_of directory custom_rules filename) w) as [_ Hf'].
    congruence.
Qed.

(** Over a whole scan: every call to [shutil.move] comes with one call
    to [os.rename], nothing pauses, nothing is removed, no alert is
    raised, and every file scanned is either listed as a duplicate or
    given one call to [shutil.move]. *)
Lemma organize_file_counts directory custom_rules root filename st w :
  let run := organize_file md5 directory custom_rules root filename st w in
  (rename_count (snd run) + move_count w = rename_count w + move_count (snd run))%nat /\
  (move_count (snd run) <= S (move_count w))%nat /\
  sleep_count (snd run) = sleep_count w /\
  remove_count (snd run) = remove_count w /\
  alerts (snd run) = alerts w /\
  forall st', fst run = Ret st' ->
    (move_count (snd run) + length (duplicates st')
     = S (move_count w + length (duplicates st)))%nat.
Proof.
  cbv zeta.
  pose proof (os_makedirs_world (folder_of directory custom_rules filename) w) as [_ Hf1].
  pose proof (get_file_hash_world (path_of root filename) w) as [_ Hf2].
  destruct (fst (os_makedirs (folder_of directory custom_rules filename) w))
    as [[]|e1|] eqn:Hdirs; [| |congruence].
  - destruct (fst (get_file_hash md5 (path_of root filename) w))
      as [h|e2|] eqn:Hhash; [| |congruence].
    + destruct (hash_map st !! h) as [original|] eqn:Hseen.
      * rewrite (organize_file_duplicate _ _ _ _ _ _ _ _ Hdirs Hhash Hseen). simpl.
        repeat split; try lia.
        intros st' Heq. inversion Heq; subst. simpl. rewrite length_app. simpl. lia.
      * destruct (organize_file_non_duplicate directory custom_rules root filename st w h
                    Hdirs Hhash Hseen)
          as (outcome & trace & r & w' & Hrun & Hcalls & Htrace & Halerts & _ & _ & _ & _
              & _ & Hst & _).
        rewrite Hrun. simpl.
        destruct (one_rename_counts _ _ _ _ _ _ Hcalls Htrace)
          as (Hrc & Hmc & Hoc & Hsc & _).
        repeat split; try lia; try assumption.
        intros st' Heq. rewrite (Hst st' Heq). simpl. lia.
    + rewrite (organize_file_hash_error _ _ _ _ _ _ _ Hdirs Hhash). simpl.
      repeat split; try discriminate; try lia.
  - rewrite (organize_file_makedirs_error _ _ _ _ _ _ _ Hdirs). simpl.
    repeat split; try discriminate; try lia.
Qed.

Lemma organize_dir_counts directory custom_rules root :
  forall (files : list string) (st : scan_state) (w : World),
    let run := organize_dir md5 directory custom_rules root files st w in
    (rename_count (snd run) + move_count w = rename_count w + move_count (snd run))%nat /\
    (move_count (snd run) <= move_count w + length files)%nat /\
    sleep_count (snd run) = sleep_count w /\
    remove_count (snd run) = remove_count w /\
    alerts (snd run) = alerts w /\
    forall st', fst run = Ret st' ->
      (move_count (snd run) + length (duplicates st')
       = move_count w + length (duplicates st) + length files)%nat.
Proof.
  induction files as [|filename rest IH]; intros st w; cbv zeta.
  - simpl. repeat split; try lia.
    intros st' Heq. inversion Heq; subst. lia.
  - cbn [organize_dir].
    pose proof (organize_file_counts directory custom_rules root filename st w)
      as (Hrenames & Hmoves & Hsleeps & Hremoves & Halerts & Hret).
    destruct (organize_file md5 directory custom_rules root filename st w)
      as [[st1|e|] w1] eqn:Hfile; simpl in *.
    + rewrite (bind_ret _ _ _ _ _ Hfile).
      specialize (IH st1 w1) as (Hrenames' & Hmoves' & Hsleeps' & Hremoves' & Halerts' & Hret').
      specialize (Hret st1 eq_refl).
      repeat split; try congruence; try lia.
      intros st' Heq. specialize (Hret' st' Heq). lia.
    + rewrite (bind_raise _ _ _ _ _ Hfile). simpl.
      repeat split; try discriminate; try assumption; try lia.
    + unfold bind. rewrite Hfile. simpl.
      repeat split; try discriminate; try assumption; try lia.
Qed.

Lemma length_walk_files_cons (root : string) (files : list string)
    (rest : list (string * list string)) :
  length (walk_files ((root, files) :: rest))
  = (length files + length (walk_files rest))%nat.
Proof. unfold walk_files. simpl. rewrite length_app, length_map. reflexivity. Qed.

(** The scanning loops as a whole. *)
Lemma organize_walk_counts directory custom_rules :
  forall (walk : list (string * list string)) (st : scan_state) (w : World),
    let run := organize_walk md5 directory custom_rules walk st w in
    (rename_count (snd run) + move_count w = rename_count w + move_count (snd run))%nat /\
    (move_count (snd run) <= move_count w + length (walk_files walk))%nat /\
    sleep_count (snd run) = sleep_count w /\
    remove_count (snd run) = remove_count w /\
    alerts (snd run) = alerts w /\
    forall st', fst run = Ret st' ->
      (move_count (snd run) + length (duplicates st')
       = move_count w + length (duplicates st) + length (walk_files walk))%nat.
Proof.
  induction walk as [|[root files] rest IH]; intros st w; cbv zeta.
  - simpl. repeat split; try lia.
    intros st' Heq. inversion Heq; subst. lia.
  - cbn [organize_walk]. rewrite length_walk_files_cons.
    pose proof (organize_dir_counts directory custom_rules root files st w)
      as (Hrenames & Hmoves & Hsleeps & Hremoves & Halerts & Hret).
    destruct (organize_dir md5 directory custom_rules root files st w)
      as [[st1|e|] w1] eqn:Hdir; simpl in *.
    + rewrite (bind_ret _ _ _ _ _ Hdir).
      specialize (IH st1 w1) as (Hrenames' & Hmoves' & Hsleeps' & Hremoves' & Halerts' & Hret').
      specialize (Hret st1 eq_refl).
      repeat split; try congruence; try lia.
      intros st' Heq. specialize (Hret' st' Heq). lia.
    + rewrite (bind_raise _ _ _ _ _ Hdir). simpl.
      repeat split; try discriminate; try assumption; try lia.
    + unfold bind. rewrite Hdir. simpl.
      repeat split; try discriminate; try assumption; try lia.
Qed.

(** *** The scan, file after file *)

Lemma organize_walk_nil directory custom_rules :
  forall (walk : list (string * list string)) (st : scan_state) (w : World),
    walk_files walk = [] ->
    organize_walk md5 directory custom_rules walk st w = (Ret st, w).
Proof.
  induction walk as [|[root files] rest IH]; intros st w Hfiles; [reflexivity|].
  unfold walk_files in Hfiles. simpl in Hfiles.
  apply app_eq_nil in Hfiles as [Hnone Hrest].
  destruct files; [|discriminate Hnone].
  cbn [organize_walk organize_dir]. unfold bind, ret. apply IH. exact Hrest.
Qed.

(** The first file of a walk is scanned first, and the rest of the walk
    follows with the state the file left. *)
Lemma organize_walk_cons directory custom_rules :
  forall (walk : list (string * list string)) (root filename : string)
         (rest : list (string * string)),
    walk_files walk = (root, filename) :: rest ->
    exists walk',
      walk_files walk' = rest /\
      forall (st : scan_state) (w : World),
        organize_walk md5 directory custom_rules walk st w
        = bind (organize_file md5 directory custom_rules root filename st)
               (fun st' => organize_walk md5 directory custom_rules walk' st') w.
Proof.
  induction walk as [|[root0 files] tl IH]; intros root filename rest Hfiles.
  - discriminate Hfiles.
  - destruct files as [|filename0 files].
    + unfold walk_files in Hfiles. simpl in Hfiles.
      destruct (IH root filename rest Hfiles) as (walk' & Hrest & Hrun).
      exists walk'. split; [exact Hrest|]. intros st w.
      cbn [organize_walk organize_dir]. unfold bind at 1, ret. apply Hrun.
    + unfold walk_files in Hfiles. simpl in Hfiles. inversion Hfiles; subst.
      exists ((root, files) :: tl). split; [reflexivity|]. intros st w.
      cbn [organize_walk organize_dir]. apply bind_assoc.
Qed.


End OrganizeProperties.


(** ** The prompt of [handle_duplicates] ends *)

Lemma ask_choice_total :
  forall (fuel : nat) (w : World),
    (length (stdin w) < fuel)%nat -> fst (ask_choice fuel w) <> Unmodelled.
Proof.
  induction fuel as [|fuel IH]; intros w Hfuel; [lia|].
  cbn [ask_choice]. unfold bind at 1, input.
  destruct (stdin w) as [|line rest] eqn:Hstdin; [simpl; discriminate|].
  destruct (existsb (String.eqb (lower (strip line))) ["yes"; "no"; "backup"]).
  - simpl. discriminate.
  - unfold bind at 1, print, modify. apply IH. simpl in *. lia.
Qed.

(** ** The properties on the sample worlds *)

Lemma organize_file_single_attempt_witness :
  exists outcome w',
    organize_file sample_digest "d" [] "d" "a.jpg" (mkScan ∅ []) busy_tree
    = (Ret (mkScan (<["AAA" := "d/a.jpg"]> ∅) []), w') /\
    List.filter is_shutil_move (calls w')
    = List.filter is_shutil_move (calls busy_tree)
      ++ [shutil_move_call "d/a.jpg" "d/Images/a.jpg" outcome] /\
    move_count w' = S (move_count busy_tree) /\
    rename_count w' = S (rename_count busy_tree) /\
    sleep_count w' = sleep_count busy_tree /\
    alerts w' = alerts busy_tree /\
    match outcome with
    | Some _ =>
        (forall q, q <> "d/Images/a.jpg" -> fs w' !! q = fs busy_tree !! q) /\
        log_file w' = log_file busy_tree
    | None =>
        rename_files "d/a.jpg" "d/Images/a.jpg" (fs busy_tree) = Some (fs w') /\
        log_file w' = log_file (snd (log_movement "d/a.jpg" "d/Images/a.jpg" busy_tree))
    end.
Proof.
  apply (organize_file_single_attempt sample_digest "d" [] "d" "a.jpg"
           (mkScan ∅ []) busy_tree "AAA").
  - apply (stores_apart_listed _ [("d/a.jpg", "AAA"); ("d/b.txt", "BBB"); ("d/c.jpg", "AAA")]);
      reflexivity.
  - reflexivity.
  - reflexivity.
  - reflexivity.
  - reflexivity.
Defined.

(** The failed attempt that leaves a copy behind: the system refuses
    to rename the file and, once [shutil.move] has copied it, to unlink
    it.  The file is still at its place, its copy is at the target, and
    the move has no record. *)
Example organize_file_leaves_copy :
  let run := organize_file sample_digest "d" [] "d" "a.jpg" (mkScan ∅ []) sticky_tree in
  fst run = Ret (mkScan (<["AAA" := "d/a.jpg"]> ∅) []) /\
  List.filter is_shutil_move (calls (snd run))
  = [shutil_move_call "d/a.jpg" "d/Images/a.jpg" (Some PermissionError)] /\
  rename_count (snd run) = 1%nat /\
  fs (snd run) !! "d/a.jpg" = Some "AAA" /\
  fs (snd run) !! "d/Images/a.jpg" = Some "AAA" /\
  log_file (snd run) = None.
Proof. vm_compute. repeat split; reflexivity. Qed.


(** The end-to-end example of the specification: [a.jpg] and [b.txt]
    are filed under [Images] and [Documents], [c.jpg] is reported as a
    duplicate of [a.jpg] and, the answer being [no], left in place. *)
Example organize_sample_directory :
  let run := organize_files sample_digest sample_walk sample_walk_dirs
               sample_dir_entries rmdir_passes "d" (sample_tree "") in
  fst run = Ret tt /\
  fs (snd run) !! "d/Images/a.jpg" = Some "AAA" /\
  fs (snd run) !! "d/Documents/b.txt" = Some "BBB" /\
  fs (snd run) !! "d/c.jpg" = Some "AAA" /\
  size (fs (snd run)) = 3%nat /\
  In (INFO, "1. Duplicate: d/c.jpg" +:+ Json.newline +:+ "   Original: d/a.jpg" +:+ Json.newline)
     (logged (snd run)).
Proof.
  vm_compute. repeat split; try reflexivity.
  do 4 right. left. reflexivity.
Qed.

(** With the answer [yes] the duplicate is deleted; with [backup] it is
    moved to the backup directory.  The files moved by the scan are not
    touched by either. *)
Example organize_sample_directory_delete :
  let run := organize_files sample_digest sample_walk sample_walk_dirs
               sample_dir_entries rmdir_passes "d"
               (set_stdin ["yes"] (sample_tree "")) in
  fst run = Ret tt /\
  fs (snd run) !! "d/c.jpg" = None /\
  fs (snd run) !! "d/Images/a.jpg" = Some "AAA" /\
  fs (snd run) !! "d/Documents/b.txt" = Some "BBB".
Proof. vm_compute. repeat split; reflexivity. Qed.

Example organize_sample_directory_backup :
  let run := organize_files sample_digest sample_walk sample_walk_dirs
               sample_dir_entries rmdir_passes "d"
               (set_stdin ["maybe"; " Backup "] (sample_tree "")) in
  fst run = Ret tt /\
  fs (snd run) !! "d/c.jpg" = None /\
  fs (snd run) !! "backup/c.jpg" = Some "AAA" /\
  fs (snd run) !! "d/Images/a.jpg" = Some "AAA" /\
  stdout (snd run)
  = ["Do you want to delete all duplicates? (yes/no/backup): ";
     "Invalid choice. Please enter 'yes', 'no', or 'backup'.";
     "Do you want to delete all duplicates? (yes/no/backup): "].
Proof. vm_compute. repeat split; reflexivity. Qed.

(** The clean-up lists the sub-directories outside any [try]: a
    directory that cannot be listed ends the pass with the exception,
    after everything else has been done. *)
Example organize_files_unlistable_directory :
  let run := organize_files sample_digest sample_walk locked_dirs locked_entries
               rmdir_passes "d" (sample_tree "") in
  fst run = Raise PermissionError /\
  fs (snd run) !! "d/Images/a.jpg" = Some "AAA" /\
  fs (snd run) !! "d/Documents/b.txt" = Some "BBB".
Proof. vm_compute. repeat split; reflexivity. Qed.

(* ================================================================== *)
(** * Part III.  Further properties of the program                    *)
(* ================================================================== *)

(** ** [retry_move_file] in every world *)

(** One pass through the loop body, whatever the system answers: the
    call is recorded; a success returns [True]; a non-recoverable error
    returns [False]; any other error is followed by the sleep, which
    raises [ValueError] when the delay is negative. *)
Lemma retry_body_cases source destination delay attempt w :
  exists outcome w1 l msg,
    calls w1 = calls w ++ [os_rename_call source destination outcome] /\
    logged w1 = logged w /\
    match outcome with
    | None => rename_files source destination (fs w) = Some (fs w1)
    | Some _ => fs w1 = fs w
    end /\
    l <> CRITICAL /\
    retry_move_file_body source destination delay attempt w
    = match outcome with
      | None => (Ret (Some true), add_logged l msg w1)
      | Some e =>
          if String.eqb (categorize_error e) "non_recoverable"
          then (Ret (Some false), add_logged l msg w1)
          else if delay <? 0 then (Raise ValueError, add_logged l msg w1)
          else (Ret None, add_call (time_sleep_call delay) (add_logged l msg w1))
      end.
Proof.
  destruct (attempt_rename_cases (os_rename_call source destination) source destination w)
    as (outcome & w1 & Hrename & Hcalls & (_ & _ & _ & _ & _ & Hlogged) & Hfiles).
  exists outcome, w1.
  unfold retry_move_file_body, try_except, bind, os_rename. rewrite Hrename.
  destruct outcome as [e|]; cbn [answer].
  - destruct e; simpl; unfold time_sleep; destruct (delay <? 0);
      eexists _, _; (split; [exact Hcalls|]); (split; [exact Hlogged|]);
      (split; [exact Hfiles|]); (split; [|reflexivity]); discriminate.
  - eexists _, _. split; [exact Hcalls|]. split; [exact Hlogged|].
    split; [exact Hfiles|]. split; [|reflexivity]. discriminate.
Qed.

(** The loop, entered at any attempt with enough iterations left. *)
Lemma retry_move_file_loop_bounds source destination retries delay :
  forall (fuel : nat) (attempt : Z) (w : World),
    (Z.to_nat (retries - attempt) < fuel)%nat ->
    let run := retry_move_file_loop fuel source destination retries delay attempt w in
    fst run <> Unmodelled /\
    (rename_count (snd run) <= rename_count w + Z.to_nat (retries - attempt))%nat /\
    (length (alerts (snd run)) <= S (length (alerts w)))%nat /\
    (fst run = Ret true ->
       rename_files source destination (fs w) = Some (fs (snd run)) /\
       alerts (snd run) = alerts w) /\
    (fst run <> Ret true -> fs (snd run) = fs w) /\
    (forall e, fst run = Raise e -> e = ValueError /\ delay < 0).
Proof.
  induction fuel as [|fuel IH]; intros attempt w Hfuel; [lia|].
  cbv zeta. cbn [retry_move_file_loop].
  destruct (Z.ltb_spec attempt retries) as [Hlt|Hge].
  - destruct (retry_body_cases source destination delay attempt w)
      as (outcome & w1 & l & msg & Hcalls & Hlogged & Hfiles & Hl & Hbody).
    assert (Hcount : rename_count (add_logged l msg w1) = S (rename_count w)).
    { unfold rename_count. simpl. rewrite Hcalls, List.filter_app, length_app. simpl. lia. }
    assert (Halerts : alerts (add_logged l msg w1) = alerts w).
    { rewrite alerts_add_logged. unfold alerts. rewrite Hlogged.
      destruct (bool_decide_reflect (l = CRITICAL)); [contradiction | apply app_nil_r]. }
    destruct outcome as [e|].
    + destruct (String.eqb (categorize_error e) "non_recoverable").
      * rewrite (bind_ret _ _ _ _ _ Hbody). unfold ret. simpl fst. simpl snd.
        rewrite Hcount, Halerts. repeat split; try discriminate; try lia.
        intros _. simpl. exact Hfiles.
      * destruct (Z.ltb_spec delay 0) as [Hneg|Hpos].
        -- rewrite (bind_raise _ _ _ _ _ Hbody). simpl fst. simpl snd.
           rewrite Hcount, Halerts. repeat split; try discriminate; try lia.
           ++ intros _. simpl. exact Hfiles.
           ++ inversion H; reflexivity.
        -- rewrite (bind_ret _ _ _ _ _ Hbody).
           specialize (IH (attempt + 1)
                          (add_call (time_sleep_call delay) (add_logged l msg w1))).
           cbv zeta in IH.
           destruct IH as (Hf & Hr & Ha & Htrue & Hfalse & Hexn); [lia|].
           assert (Hcount' : rename_count (add_call (time_sleep_call delay)
                                             (add_logged l msg w1)) = S (rename_count w)).
           { rewrite rename_count_add_call. simpl. lia. }
           assert (Halerts' : alerts (add_call (time_sleep_call delay)
                                        (add_logged l msg w1)) = alerts w).
           { exact Halerts. }
           rewrite Hcount' in Hr. rewrite Halerts' in *. simpl fs in *.
           rewrite Hfiles in *.
           repeat split; try assumption; try lia.
           ++ apply Htrue; assumption.
           ++ apply Htrue; assumption.
           ++ apply (Hexn e0); assumption.
           ++ apply (Hexn e0); assumption.
    + rewrite (bind_ret _ _ _ _ _ Hbody). unfold ret. simpl fst. simpl snd.
      rewrite Hcount, Halerts. repeat split; try discriminate; try lia; try congruence.
      simpl. exact Hfiles.
  - unfold bind, logger_error, alert_user, logger_critical, modify, ret.
    cbn [fst snd]. repeat split; try discriminate.
    + unfold rename_count. simpl. lia.
    + rewrite !alerts_add_logged, !length_app. simpl. lia.
Qed.

(** X1: the retry policy is bounded and leaves no half-done move.  In
    every world and for every argument, [retry_move_file] returns or
    raises; it calls [os.rename] at most [retries] times and raises at
    most one alert; when it returns [True], the files are those of the
    rename and no alert was raised; otherwise the files are as they
    were.  For a delay that [time.sleep] takes for a number of seconds,
    the only exception it lets out is the [ValueError] that
    [time.sleep] raises on a negative delay. *)
Theorem retry_move_file_bounded source destination retries delay w :
  let run := retry_move_file source destination retries delay w in
  fst run <> Unmodelled /\
  (rename_count (snd run) <= rename_count w + Z.to_nat retries)%nat /\
  (length (alerts (snd run)) <= S (length (alerts w)))%nat /\
  (fst run = Ret true ->
     rename_files source destination (fs w) = Some (fs (snd run)) /\
     alerts (snd run) = alerts w) /\
  (fst run <> Ret true -> fs (snd run) = fs w) /\
  (sleep_in_range delay ->
   forall e, fst run = Raise e -> e = ValueError /\ delay < 0).
Proof.
  unfold retry_move_file.
  pose proof (retry_move_file_loop_bounds source destination retries delay
                (S (Z.to_nat retries)) 0 w) as Hloop.
  rewrite Z.sub_0_r in Hloop. cbv zeta in Hloop.
  destruct Hloop as (H1 & H2 & H3 & H4 & H5 & H6); [lia|].
  cbv zeta. repeat split; try assumption; try (apply H4; assumption);
    apply (H6 e); assumption.
Qed.

(** A script whose first entries are retryable faults: the loop makes
    as many attempts, sleeps after each, and goes on from there. *)
Lemma retry_loop_skips source destination retries delay :
  0 <= delay ->
  forall (faults rest : list (option exn)) (fuel : nat) (attempt : Z) (w : World),
    move_faults w = faults ++ rest ->
    forallb retryable_fault faults = true ->
    attempt + Z.of_nat (length faults) <= retries ->
    exists w1,
      retry_move_file_loop (length faults + fuel) source destination retries delay attempt w
      = retry_move_file_loop fuel source destination retries delay
          (attempt + Z.of_nat (length faults)) w1 /\
      move_faults w1 = rest /\ fs w1 = fs w /\
      rename_count w1 = (rename_count w + length faults)%nat /\
      alerts w1 = alerts w.
Proof.
  intros Hdelay faults. induction faults as [|fault faults IH];
    intros rest fuel attempt w Hscript Hall Hroom.
  - exists w. simpl. rewrite Z.add_0_r. repeat split; try assumption. lia.
  - simpl in Hall. apply andb_prop in Hall as [Hhead Hall].
    destruct fault as [e|]; [|discriminate Hhead].
    assert (Hcat : categorize_error e <> "non_recoverable").
    { simpl in Hhead. intros Heq. rewrite Heq in Hhead. discriminate Hhead. }
    pose proof (os_rename_fault source destination e (faults ++ rest) w Hscript) as Hrename.
    destruct (retry_body_retryable source destination delay attempt w _ e Hrename Hcat Hdelay)
      as [msg Hbody].
    cbn [length Nat.add retry_move_file_loop].
    destruct (Z.ltb_spec attempt retries); [|simpl in Hroom; lia].
    rewrite (bind_ret _ _ _ _ _ Hbody).
    destruct (IH rest fuel (attempt + 1)
                (add_call (time_sleep_call delay)
                   (add_logged ERROR msg
                      (add_call (os_rename_call source destination (Some e))
                         (set_move_faults (faults ++ rest) w)))))
      as (w1 & Hrun & Hrest & Hfs & Hcount & Halerts);
      [| exact Hall | | exists w1 ].
    + reflexivity.
    + simpl in Hroom. lia.
    + rewrite Hrun, Hrest, Hfs, Hcount, Halerts.
      replace (attempt + 1 + Z.of_nat (length faults))
        with (attempt + Z.of_nat (length (Some e :: faults))) by (simpl; lia).
      split; [reflexivity|]. observe. repeat split; try reflexivity. simpl. lia.
Qed.

Lemma os_rename_passes (src dst content : string) (w : World) :
  hd None (move_faults w) = None ->
  fs w !! src = Some content ->
  os_rename src dst w
  = (Ret tt,
     add_call (os_rename_call src dst None)
       (set_fs (<[dst := content]> (delete src (fs w)))
          (set_move_faults (tail (move_faults w)) w))).
Proof.
  intros Hhead Hsrc. unfold os_rename, attempt_rename.
  destruct (move_faults w) as [|fault rest]; simpl in *.
  - unfold rename_files. rewrite Hsrc. reflexivity.
  - subst fault. unfold rename_files. simpl. rewrite Hsrc. reflexivity.
Qed.

(** X2: success after retryable failures.  When the system refuses the
    first [k] attempts with errors classified as recoverable or unknown
    ([k] smaller than [retries]) and lets the next one through,
    [retry_move_file] makes exactly [k + 1] attempts, returns [True],
    raises no alert, and the file is at its destination and no longer
    at its source. *)
Theorem retry_move_file_succeeds_after_failures
    source destination retries delay w faults rest content :
  0 <= delay ->
  move_faults w = faults ++ rest ->
  forallb retryable_fault faults = true ->
  hd None rest = None ->
  Z.of_nat (length faults) < retries ->
  fs w !! source = Some content ->
  exists w',
    retry_move_file source destination retries delay w = (Ret true, w') /\
    rename_count w' = (rename_count w + S (length faults))%nat /\
    alerts w' = alerts w /\
    fs w' = <[destination := content]> (delete source (fs w)).
Proof.
  intros Hdelay Hscript Hall Hnext Hroom Hfile. unfold retry_move_file.
  replace (S (Z.to_nat retries))
    with (length faults + S (Z.to_nat retries - length faults))%nat by lia.
  destruct (retry_loop_skips source destination retries delay Hdelay faults rest
              (S (Z.to_nat retries - length faults)) 0 w Hscript Hall)
    as (w1 & Hrun & Hrest & Hfs & Hcount & Halerts); [lia|].
  rewrite Hrun. cbn [retry_move_file_loop].
  destruct (Z.ltb_spec (0 + Z.of_nat (length faults)) retries); [|lia].
  assert (Hrename : os_rename source destination w1
                    = (Ret tt,
                       add_call (os_rename_call source destination None)
                         (set_fs (<[destination := content]> (delete source (fs w1)))
                            (set_move_faults (tail (move_faults w1)) w1)))).
  { apply os_rename_passes; [rewrite Hrest; exact Hnext | rewrite Hfs; exact Hfile]. }
  rewrite (bind_ret _ _ _ _ _
             (retry_body_success source destination delay _ w1 _ Hrename)).
  eexists. split; [reflexivity|]. split; [|split].
  - unfold rename_count in *. simpl. rewrite List.filter_app, length_app. simpl. lia.
  - rewrite alerts_add_logged. simpl. rewrite app_nil_r. exact Halerts.
  - simpl. rewrite Hfs. reflexivity.
Qed.

(** X3: a non-recoverable error stops the loop at whatever attempt it
    comes.  After [k] retryable failures ([k] smaller than [retries]),
    an error classified as non-recoverable makes [retry_move_file]
    return [False] after exactly [k + 1] attempts, with no alert and
    the files untouched. *)
Theorem retry_move_file_stops_on_non_recoverable
    source destination retries delay w faults e rest :
  0 <= delay ->
  move_faults w = faults ++ Some e :: rest ->
  forallb retryable_fault faults = true ->
  categorize_error e = "non_recoverable" ->
  Z.of_nat (length faults) < retries ->
  exists w',
    retry_move_file source destination retries delay w = (Ret false, w') /\
    rename_count w' = (rename_count w + S (length faults))%nat /\
    alerts w' = alerts w /\
    fs w' = fs w.
Proof.
  intros Hdelay Hscript Hall Hcat Hroom. unfold retry_move_file.
  replace (S (Z.to_nat retries))
    with (length faults + S (Z.to_nat retries - length faults))%nat by lia.
  destruct (retry_loop_skips source destination retries delay Hdelay faults (Some e :: rest)
              (S (Z.to_nat retries - length faults)) 0 w Hscript Hall)
    as (w1 & Hrun & Hrest & Hfs & Hcount & Halerts); [lia|].
  rewrite Hrun. cbn [retry_move_file_loop].
  destruct (Z.ltb_spec (0 + Z.of_nat (length faults)) retries); [|lia].
  pose proof (os_rename_fault source destination e rest w1 Hrest) as Hrename.
  destruct (retry_body_non_recoverable source destination delay
              (0 + Z.of_nat (length faults)) w1 _ e Hrename Hcat) as [msg Hbody].
  rewrite (bind_ret _ _ _ _ _ Hbody).
  eexists. split; [reflexivity|]. split; [|split].
  - unfold rename_count in *. simpl. rewrite List.filter_app, length_app. simpl. lia.
  - rewrite alerts_add_logged. simpl. rewrite app_nil_r. exact Halerts.
  - simpl. rewrite Hfs. reflexivity.
Qed.

(** X4: with a number of retries that is zero or negative no attempt is
    made: [retry_move_file] returns [False], raises one alert and
    touches no file, whether or not the move could have succeeded. *)
Theorem retry_move_file_no_retries source destination retries delay w :
  retries <= 0 ->
  exists w' message,
    retry_move_file source destination retries delay w = (Ret false, w') /\
    calls w' = calls w /\
    alerts w' = alerts w ++ [message] /\
    fs w' = fs w.
Proof.
  intros Hretries. unfold retry_move_file.
  destruct (retry_loop_exit (Z.to_nat retries) source destination retries delay 0 w)
    as (m1 & m2 & Hrun); [lia|].
  rewrite Hrun. exists (add_logged CRITICAL m2 (add_logged ERROR m1 w)), m2.
  split; [reflexivity|]. rewrite !alerts_add_logged. simpl. rewrite app_nil_r.
  repeat split; reflexivity.
Qed.

(** X5: a negative delay turns the first retryable failure into an
    exception.  The error of the move is logged, [time.sleep] raises
    [ValueError], and the exception leaves [retry_move_file] after one
    attempt: the remaining retries are not used and no alert is raised. *)
Theorem retry_move_file_negative_delay source destination retries delay w e rest :
  0 < retries ->
  delay < 0 ->
  move_faults w = Some e :: rest ->
  categorize_error e <> "non_recoverable" ->
  exists w',
    retry_move_file source destination retries delay w = (Raise ValueError, w') /\
    rename_count w' = S (rename_count w) /\
    alerts w' = alerts w /\
    fs w' = fs w.
Proof.
  intros Hretries Hdelay Hscript Hcat. unfold retry_move_file.
  cbn [retry_move_file_loop]. destruct (Z.ltb_spec 0 retries); [|lia].
  pose proof (os_rename_fault source destination e rest w Hscript) as Hrename.
  assert (Hbody : exists msg,
             retry_move_file_body source destination delay 0 w
             = (Raise ValueError,
                add_logged ERROR msg
                  (add_call (os_rename_call source destination (Some e))
                     (set_move_faults rest w)))).
  { unfold retry_move_file_body, try_except, bind. rewrite Hrename.
    unfold time_sleep. destruct (Z.ltb_spec delay 0); [|lia].
    destruct e; simpl in *; try congruence; eexists; reflexivity. }
  destruct Hbody as [msg Hbody]. rewrite (bind_raise _ _ _ _ _ Hbody).
  eexists. split; [reflexivity|]. observe. repeat split; try reflexivity. lia.
Qed.

(** ** Dicts and the JSON decoder *)

(** What the decoder builds has distinct keys, like any Python dict. *)
Lemma members_nodup :
  forall (fuel : nat) (s : string) (acc d : dict) (r : string),
    Json.members fuel s acc = Some (d, r) ->
    List.NoDup (keys acc) -> List.NoDup (keys d).
Proof.
  induction fuel as [|fuel IH]; intros s acc d r Hrun Hacc; [discriminate Hrun|].
  cbn [Json.members] in Hrun.
  destruct s as [|[[] [] [] [] [] [] [] []] s1]; try discriminate Hrun.
  destruct (Json.scanstring s1) as [[k s2]|]; [|discriminate Hrun].
  destruct (Json.skip_ws s2) as [|[[] [] [] [] [] [] [] []] s3]; try discriminate Hrun.
  destruct (Json.skip_ws s3) as [|[[] [] [] [] [] [] [] []] s4]; try discriminate Hrun.
  destruct (Json.scanstring s4) as [[v s5]|]; [|discriminate Hrun].
  destruct (Json.skip_ws s5) as [|[[] [] [] [] [] [] [] []] s6]; try discriminate Hrun.
  - inversion Hrun; subst. apply dict_set_nodup. exact Hacc.
  - apply (IH _ _ _ _ Hrun). apply dict_set_nodup. exact Hacc.
Qed.

Lemma loads_nodup (s : string) (d : dict) :
  Json.loads s = Some d -> List.NoDup (keys d).
Proof.
  unfold Json.loads. intros Hload.
  destruct (Json.skip_ws s) as [|[[] [] [] [] [] [] [] []] s1]; try discriminate Hload.
  destruct (Json.skip_ws s1) as [|c s2] eqn:Hs1.
  - destruct (Json.members (String.length s) EmptyString []) as [[d' r]|] eqn:Hm;
      [|discriminate Hload].
    destruct (Json.skip_ws r); [|discriminate Hload].
    inversion Hload; subst. apply (members_nodup _ _ _ _ _ Hm). constructor.
  - assert (Hcases :
              (c = "}"%char /\ Json.skip_ws s2 = EmptyString /\ d = []) \/
              (exists d' r, Json.members (String.length s) (String c s2) [] = Some (d', r)
                            /\ d = d')).
    { destruct c as [[] [] [] [] [] [] [] []];
        try (right;
             destruct (Json.members (String.length s) (String _ s2) []) as [[d' r]|];
             [|discriminate Hload];
             destruct (Json.skip_ws r); [|discriminate Hload];
             inversion Hload; subst; eexists _, _; split; reflexivity).
      left. destruct (Json.skip_ws s2); [|discriminate Hload].
      inversion Hload. repeat split; reflexivity. }
    destruct Hcases as [(_ & _ & ->) | (d' & r & Hm & ->)]; [constructor|].
    apply (members_nodup _ _ _ _ _ Hm). constructor.
Qed.

(** ** The custom rules store *)

Lemma stored_rules_nodup (rules : dict) (w : World) :
  stored_rules w = Some rules -> List.NoDup (keys rules).
Proof.
  unfold stored_rules. destruct (rules_file w) as [content|].
  - apply loads_nodup.
  - intros Heq. inversion Heq. constructor.
Qed.

(** X6: save and load are a round trip.  For every dict (its keys are
    distinct), [load_custom_rules] after [save_custom_rules] returns the
    dict that was saved, items in the same order, whatever the store
    held before and whatever characters the extensions and the folder
    names contain. *)
Theorem save_then_load_custom_rules (rules : dict) (w : World) :
  List.NoDup (keys rules) ->
  exists w',
    save_custom_rules rules w = (Ret tt, w') /\
    load_custom_rules w' = (Ret rules, w') /\
    fs w' = fs w /\ log_file w' = log_file w.
Proof.
  intros Hnodup. eexists. split; [reflexivity|]. split.
  - apply load_custom_rules_ok. unfold stored_rules. simpl.
    apply loads_dumps_indent4. exact Hnodup.
  - split; reflexivity.
Qed.

(** X7: adding a rule.  When the store does not exist or loads,
    [add_custom_rule] succeeds; afterwards [load_custom_rules] returns
    the former rules with the new one stored under its extension: the
    extension maps to the new folder (an older rule for it is
    replaced), every other extension maps to what it did, and a file of
    that extension is classified to the new folder when its name is not
    empty.  Files and movement log are not touched. *)
Theorem add_custom_rule_then_load (extension folder_name : string) (rules : dict)
    (w : World) :
  stored_rules w = Some rules ->
  exists w',
    add_custom_rule extension folder_name w = (Ret tt, w') /\
    load_custom_rules w' = (Ret (dict_set extension folder_name rules), w') /\
    dict_get extension (dict_set extension folder_name rules) = Some folder_name /\
    (forall other, other <> extension ->
       dict_get other (dict_set extension folder_name rules) = dict_get other rules) /\
    (folder_name <> "" ->
       classify extension (dict_set extension folder_name rules) = folder_name) /\
    fs w' = fs w /\ log_file w' = log_file w.
Proof.
  intros Hrules.
  pose proof (stored_rules_nodup rules w Hrules) as Hnodup.
  unfold add_custom_rule.
  rewrite (bind_ret _ _ _ _ _ (load_custom_rules_ok rules w Hrules)).
  eexists. split; [reflexivity|]. split; [|split; [|split; [|split]]].
  - apply load_custom_rules_ok. unfold stored_rules. simpl.
    apply loads_dumps_indent4, dict_set_nodup, Hnodup.
  - apply dict_get_set_eq.
  - intros other Hne. apply dict_get_set_ne. congruence.
  - intros Hne. unfold classify. rewrite dict_get_set_eq.
    destruct (String.eqb_spec folder_name ""); [contradiction | reflexivity].
  - split; reflexivity.
Qed.

(** X8: a store that [json.load] refuses makes [add_custom_rule] fail
    with [JSONDecodeError] and change nothing, the store included; and
    [reset_custom_rules], when the system lets the file be removed,
    succeeds on any store, also on such a one, after which
    [load_custom_rules] returns the empty dict. *)
Theorem custom_rules_corrupt_store_and_reset (extension folder_name : string) (w : World) :
  (refused (rules_file w) = true ->
     add_custom_rule extension folder_name w = (Raise JSONDecodeError, w)) /\
  (hd None (move_faults w) = None ->
     exists w',
       reset_custom_rules w = (Ret tt, w') /\
       rules_file w' = None /\
       load_custom_rules w' = (Ret [], w') /\
       fs w' = fs w /\ log_file w' = log_file w).
Proof.
  split.
  - unfold refused, add_custom_rule, load_custom_rules, bind, gets, json_load.
    destruct (rules_file w) as [content|]; [|discriminate].
    destruct (Json.loads content); [discriminate|].
    intros Hrejects. rewrite Hrejects. reflexivity.
  - intros Hhead. unfold reset_custom_rules, bind, gets, remove_custom_rules_file.
    destruct (rules_file w) as [content|] eqn:Hstore.
    + destruct (move_faults w) as [|fault rest]; simpl in Hhead; [|subst fault];
        (eexists; split; [reflexivity|]; repeat split; reflexivity).
    + eexists. split; [reflexivity|]. split; [exact Hstore|]. split; [|split; reflexivity].
      unfold load_custom_rules, bind, gets. simpl. rewrite Hstore. reflexivity.
Qed.

(** ** The movement log *)

Lemma dict_set_same (k v : string) (d : dict) :
  dict_get k d = Some v -> dict_set k v d = d.
Proof.
  unfold dict_get. induction d as [|[k' v'] d IH]; simpl; [discriminate|].
  destruct (String.eqb_spec k' k) as [->|Hne]; simpl.
  - intros Heq. inversion Heq. reflexivity.
  - intros Hget. rewrite IH; [reflexivity | exact Hget].
Qed.

Lemma keys_app_nodup (d : dict) (k v : string) :
  List.NoDup (keys d) -> ~ In k (keys d) -> List.NoDup (keys (d ++ [(k, v)])).
Proof.
  intros Hnodup Hfresh. unfold keys. rewrite map_app. simpl.
  apply List.NoDup_app; [exact Hnodup | repeat constructor; simpl; tauto |].
  intros k' Hin [Heq|[]]. subst k'. exact (Hfresh Hin).
Qed.

(** X9: recording a move under a path that has no record yet.  On a
    log that does not exist, or that holds the text of a dict [d],
    [log_movement] succeeds and the log then loads as [d] followed by
    the new record: the record is found under the source path, every
    earlier record is kept, in order, and the files are not touched. *)
Theorem log_movement_appends (src dest : string) (d : dict) (w : World) :
  store_holds d w -> List.NoDup (keys d) -> ~ In src (keys d) ->
  exists w',
    log_movement src dest w = (Ret tt, w') /\
    stored_log w' = Some (d ++ [(src, dest)]) /\
    stored_record src w' = Some dest /\
    (forall k, k <> src -> stored_record k w' = dict_get k d) /\
    fs w' = fs w.
Proof.
  intros Hstore Hnodup Hfresh.
  rewrite (log_movement_holds src dest d w Hstore Hnodup Hfresh).
  eexists. split; [reflexivity|].
  assert (Hlog : stored_log (set_log_file (Some (Json.dumps_indent4 (d ++ [(src, dest)]))) w)
                 = Some (d ++ [(src, dest)])).
  { unfold stored_log. simpl. apply loads_dumps_indent4, keys_app_nodup; assumption. }
  split; [exact Hlog|]. unfold stored_record. rewrite Hlog.
  rewrite <- (dict_set_fresh src dest d Hfresh).
  split; [apply dict_get_set_eq|]. split; [|reflexivity].
  intros k Hne. apply dict_get_set_ne. congruence.
Qed.

(** X10: recording the same move twice is recording it once.  Under the
    conditions of the first recording, a second call of [log_movement]
    with the same paths succeeds and leaves the world exactly as the
    first call left it. *)
Theorem log_movement_idempotent (src dest : string) (d : dict) (w : World) :
  store_holds d w -> List.NoDup (keys d) -> ~ In src (keys d) ->
  exists w',
    log_movement src dest w = (Ret tt, w') /\
    log_movement src dest w' = (Ret tt, w').
Proof.
  intros Hstore Hnodup Hfresh.
  rewrite (log_movement_holds src dest d w Hstore Hnodup Hfresh).
  eexists. split; [reflexivity|].
  unfold log_movement, bind, gets, modify, ret, json_load. simpl.
  rewrite (loads_dumps_indent4 (d ++ [(src, dest)]))
    by (apply keys_app_nodup; assumption).
  unfold ret. cbv beta iota. unfold dict_update. cbn [fold_left fst snd].
  rewrite (dict_set_same src dest (d ++ [(src, dest)])).
  - rewrite write_at_start_covers by lia. reflexivity.
  - rewrite <- (dict_set_fresh src dest d Hfresh). apply dict_get_set_eq.
Qed.

Lemma log_movement_corrupt_store_at (src dest : string) (w : World) :
  refused (log_file w) = true ->
  log_movement src dest w = (Raise JSONDecodeError, w).
Proof.
  unfold refused. intros Hrefused.
  destruct (log_file w) as [content|] eqn:Hstore; [|discriminate Hrefused].
  destruct (Json.loads content) eqn:Hload; [discriminate Hrefused|].
  unfold log_movement, bind, gets, modify, json_load.
  rewrite Hstore. simpl. rewrite Hstore, Hload, Hrefused. reflexivity.
Qed.

(** X11: a log that [json.load] refuses is never overwritten.
    [log_movement] raises [JSONDecodeError] and leaves the world, the
    log included, as it was; a later call finds the same log and
    raises again. *)
Theorem log_movement_corrupt_store (src dest : string) (w : World) :
  refused (log_file w) = true ->
  log_movement src dest w = (Raise JSONDecodeError, w) /\
  refused (log_file (snd (log_movement src dest w))) = true.
Proof.
  intros Hrefused. rewrite (log_movement_corrupt_store_at src dest w Hrefused).
  split; [reflexivity | exact Hrefused].
Qed.

(** ** [undo_selected_moves] *)

Lemma for_each_contained {A} (body : A -> M unit) :
  (forall x w, exists w', body x w = (Ret tt, w')) ->
  forall (l : list A) (w : World), exists w', for_each l body w = (Ret tt, w').
Proof.
  intros Hbody l. induction l as [|x l IH]; intros w.
  - exists w. reflexivity.
  - destruct (Hbody x w) as [w1 Hx]. destruct (IH w1) as [w' Hl].
    exists w'. cbn [for_each]. rewrite (bind_ret _ _ _ _ _ Hx). exact Hl.
Qed.

(** Moving one file back never raises: every error is logged. *)
Lemma undo_one_contained (entry : string * string) (w : World) :
  exists w', undo_one entry w = (Ret tt, w').
Proof.
  destruct entry as [dest src]. unfold undo_one, try_except.
  pose proof (os_makedirs_world (Path.dirname src) w) as [Hw Hfuel].
  unfold bind at 1.
  destruct (os_makedirs (Path.dirname src) w) as [[[]|e|] w1]; simpl in Hw, Hfuel; subst.
  - unfold bind at 1.
    destruct (shutil_move_cases dest src w) as (outcome & trace & wm & Hmove & _).
    rewrite Hmove. destruct outcome as [e|]; eexists; reflexivity.
  - eexists. reflexivity.
  - congruence.
Qed.

Lemma nodup_keys_same_value (d : dict) (k v v' : string) :
  List.NoDup (keys d) -> In (k, v) d -> In (k, v') d -> v = v'.
Proof.
  induction d as [|[k0 v0] d IH]; intros Hnodup Hin Hin'; [destruct Hin|].
  unfold keys in *. simpl in Hnodup. inversion Hnodup as [|? ? Hfresh Hrest]; subst.
  destruct Hin as [Heq|Hin], Hin' as [Heq'|Hin'].
  - congruence.
  - inversion Heq; subst. exfalso. apply Hfresh.
    apply in_map_iff. exists (k, v'). split; [reflexivity | exact Hin'].
  - inversion Heq'; subst. exfalso. apply Hfresh.
    apply in_map_iff. exists (k, v). split; [reflexivity | exact Hin].
  - apply IH; assumption.
Qed.

(** The records that stay after an undo are those that did not match:
    keys being distinct, a key is among the matching records only if
    its own record matches. *)
Lemma remaining_data_filter (matches : string * string -> bool) (data : dict) :
  List.NoDup (keys data) ->
  List.filter (fun entry => negb (dict_mem (fst entry) (List.filter matches data))) data
  = List.filter (fun entry => negb (matches entry)) data.
Proof.
  intros Hnodup. apply List.filter_ext_in. intros [k v] Hin. f_equal. simpl.
  destruct (matches (k, v)) eqn:Hm.
  - apply dict_mem_In. unfold keys. apply in_map_iff. exists (k, v).
    split; [reflexivity|]. apply List.filter_In. split; assumption.
  - destruct (dict_mem k (List.filter matches data)) eqn:Hmem; [|reflexivity].
    apply dict_mem_In in Hmem. unfold keys in Hmem. apply in_map_iff in Hmem.
    destruct Hmem as ([k' v'] & Heq & Hin'). simpl in Heq. subst k'.
    apply List.filter_In in Hin' as [Hin' Hm'].
    rewrite (nodup_keys_same_value data k v v' Hnodup Hin Hin') in Hm. congruence.
Qed.

Lemma filter_keys_nodup (f : string * string -> bool) (d : dict) :
  List.NoDup (keys d) -> List.NoDup (keys (List.filter f d)).
Proof.
  unfold keys. induction d as [|[k v] d IH]; intros Hnodup; [constructor|].
  simpl in *. inversion Hnodup as [|? ? Hfresh Hrest]; subst.
  destruct (f (k, v)); [|apply IH; exact Hrest].
  simpl. constructor; [|apply IH; exact Hrest].
  intros Hin. apply Hfresh. apply in_map_iff in Hin as (e & Heq & Hin).
  apply List.filter_In in Hin as [Hin _]. apply in_map_iff. exists e. split; assumption.
Qed.

(** X12: an undo drops exactly the records whose value contains the
    query.  When the log loads and some record matches the line typed
    by the user (stripped), [undo_selected_moves] returns normally and
    the log then loads as the former records without the matching
    ones, in the same order; this holds whether or not the files of
    the matching records could be moved, since every error of a move is
    caught and logged. *)
Theorem undo_drops_matching_records (content line : string) (rest : list string)
    (data : dict) (w : World) :
  log_file w = Some content ->
  Json.loads content = Some data ->
  stdin w = line :: rest ->
  existsb (fun entry => contains (strip line) (snd entry)) data = true ->
  exists w',
    undo_selected_moves w = (Ret tt, w') /\
    stored_log w'
    = Some (List.filter (fun entry => negb (contains (strip line) (snd entry))) data).
Proof.
  intros Hstore Hload Hstdin Hsome.
  pose proof (loads_nodup content data Hload) as Hnodup.
  unfold undo_selected_moves.
  rewrite (bind_ret _ _ w w (Some content)) by (unfold gets; rewrite Hstore; reflexivity).
  rewrite (bind_ret _ _ w w data) by (unfold json_load; rewrite Hload; reflexivity).
  erewrite bind_ret by (unfold input; rewrite Hstdin; reflexivity).
  set (matches := fun entry : string * string => contains (strip line) (snd entry)).
  destruct (List.filter matches data) as [|entry entries] eqn:Hmatching.
  - exfalso. apply existsb_exists in Hsome as (entry & Hin & Hm).
    assert (Hin' : In entry (List.filter matches data))
      by (apply List.filter_In; split; assumption).
    rewrite Hmatching in Hin'. destruct Hin'.
  - destruct (for_each_contained undo_one undo_one_contained (entry :: entries)
                (set_stdin rest
                   (add_stdout
                      "Enter the directory (or part of the path) for the actions you'd like to undo: "
                      w))) as [w1 Hmoves].
    rewrite (bind_ret _ _ _ _ _ Hmoves).
    eexists. split; [reflexivity|].
    unfold stored_log. cbn [log_file add_logged set_log_file]. rewrite <- Hmatching.
    rewrite (remaining_data_filter matches data Hnodup).
    apply loads_dumps_indent4, filter_keys_nodup, Hnodup.
Qed.

(** X13: an undo that has nothing to undo changes neither files nor
    log.  Without a log file the user is not even asked; with a log in
    which no record matches the query, the log is left as it is and no
    file is moved. *)
Theorem undo_without_match_changes_nothing (w : World) :
  (log_file w = None ->
     exists w',
       undo_selected_moves w = (Ret tt, w') /\
       fs w' = fs w /\ log_file w' = log_file w /\ calls w' = calls w /\
       stdin w' = stdin w) /\
  (forall (content line : string) (rest : list string) (data : dict),
     log_file w = Some content ->
     Json.loads content = Some data ->
     stdin w = line :: rest ->
     existsb (fun entry => contains (strip line) (snd entry)) data = false ->
     exists w',
       undo_selected_moves w = (Ret tt, w') /\
       fs w' = fs w /\ log_file w' = log_file w /\ calls w' = calls w).
Proof.
  split.
  - intros Hnone. unfold undo_selected_moves, bind, gets. rewrite Hnone.
    eexists. split; [reflexivity|]. repeat split; simpl; congruence.
  - intros content line rest data Hstore Hload Hstdin Hnone.
    unfold undo_selected_moves.
    rewrite (bind_ret _ _ w w (Some content)) by (unfold gets; rewrite Hstore; reflexivity).
    rewrite (bind_ret _ _ w w data) by (unfold json_load; rewrite Hload; reflexivity).
    erewrite bind_ret by (unfold input; rewrite Hstdin; reflexivity).
    destruct (List.filter (fun entry => contains (strip line) (snd entry)) data)
      as [|entry entries] eqn:Hmatching.
    + eexists. split; [reflexivity|]. repeat split; reflexivity.
    + exfalso.
      assert (Hin : In entry (List.filter (fun entry => contains (strip line) (snd entry)) data))
        by (rewrite Hmatching; left; reflexivity).
      apply List.filter_In in Hin as [Hin Hm].
      assert (Hsome : existsb (fun entry => contains (strip line) (snd entry)) data = true)
        by (apply existsb_exists; exists entry; split; assumption).
      congruence.
Qed.

(** X14: undoing one record of a log keyed the way the undo reads it.
    When exactly one record matches the query, its key being the path
    where the file is now and its value the path to restore, the
    directory of the value can be made and the system lets the move
    through, the file is moved from the key to the value by one call
    to [shutil.move], done by its call to [os.rename], and the record
    is dropped from the log while the others stay. *)
Theorem undo_restores_single_match (content line dest src body : string)
    (rest : list string) (data : dict) (w : World) :
  log_file w = Some content ->
  Json.loads content = Some data ->
  stdin w = line :: rest ->
  List.filter (fun entry => contains (strip line) (snd entry)) data = [(dest, src)] ->
  fs w !! dest = Some body ->
  Path.dirname src <> "" ->
  fs w !! Path.dirname src = None ->
  hd None (move_faults w) = None ->
  exists w',
    undo_selected_moves w = (Ret tt, w') /\
    fs w' = <[src := body]> (delete dest (fs w)) /\
    calls w' = calls w ++ [os_rename_call dest src None; shutil_move_call dest src None] /\
    stored_log w'
    = Some (List.filter (fun entry => negb (contains (strip line) (snd entry))) data).
Proof.
  intros Hstore Hload Hstdin Hmatching Hfile Hdir Hfree Hhead.
  pose proof (loads_nodup content data Hload) as Hnodup.
  unfold undo_selected_moves.
  rewrite (bind_ret _ _ w w (Some content)) by (unfold gets; rewrite Hstore; reflexivity).
  rewrite (bind_ret _ _ w w data) by (unfold json_load; rewrite Hload; reflexivity).
  erewrite bind_ret by (unfold input; rewrite Hstdin; reflexivity).
  rewrite Hmatching.
  set (w0 := set_stdin rest (add_stdout _ w)).
  assert (Hone : undo_one (dest, src) w0
                 = (Ret tt,
                    add_logged INFO ("Moved back: " +:+ dest +:+ " -> " +:+ src)
                      (add_call (shutil_move_call dest src None)
                         (add_call (os_rename_call dest src None)
                            (set_fs (<[src := body]> (delete dest (fs w0)))
                               (set_move_faults (tail (move_faults w0)) w0)))))).
  { unfold undo_one, try_except.
    rewrite (bind_ret _ _ _ _ _ (os_makedirs_ok (Path.dirname src) w0 Hdir Hfree)).
    rewrite (bind_ret _ _ _ _ _ (shutil_move_passes dest src body w0 Hhead Hfile)).
    reflexivity. }
  assert (Hmoves : for_each [(dest, src)] undo_one w0
                   = (Ret tt,
                      add_logged INFO ("Moved back: " +:+ dest +:+ " -> " +:+ src)
                        (add_call (shutil_move_call dest src None)
                           (add_call (os_rename_call dest src None)
                              (set_fs (<[src := body]> (delete dest (fs w0)))
                                 (set_move_faults (tail (move_faults w0)) w0)))))).
  { cbn [for_each]. rewrite (bind_ret _ _ _ _ _ Hone). reflexivity. }
  cbv beta iota. rewrite (bind_ret _ _ _ _ _ Hmoves).
  eexists. split; [reflexivity|]. split; [reflexivity|].
  split; [simpl; rewrite <- app_assoc; reflexivity|].
  unfold stored_log. cbn [log_file add_logged set_log_file]. rewrite <- Hmatching.
  rewrite (remaining_data_filter _ data Hnodup).
  apply loads_dumps_indent4, filter_keys_nodup, Hnodup.
Qed.

(** X26: a record whose value has no directory part is dropped without
    being undone.  [os.path.dirname] of a bare file name is the empty
    path, which [os.makedirs] refuses with [FileNotFoundError]; the
    exception is caught before [shutil.move] is called, so the file
    stays where it is, and the record leaves the log all the same. *)
Theorem undo_bare_name_not_restored (content line dest src : string)
    (rest : list string) (data : dict) (w : World) :
  log_file w = Some content ->
  Json.loads content = Some data ->
  stdin w = line :: rest ->
  List.filter (fun entry => contains (strip line) (snd entry)) data = [(dest, src)] ->
  Path.dirname src = "" ->
  exists w',
    undo_selected_moves w = (Ret tt, w') /\
    fs w' = fs w /\
    calls w' = calls w /\
    stored_log w'
    = Some (List.filter (fun entry => negb (contains (strip line) (snd entry))) data).
Proof.
  intros Hstore Hload Hstdin Hmatching Hdir.
  pose proof (loads_nodup content data Hload) as Hnodup.
  unfold undo_selected_moves.
  rewrite (bind_ret _ _ w w (Some content)) by (unfold gets; rewrite Hstore; reflexivity).
  rewrite (bind_ret _ _ w w data) by (unfold json_load; rewrite Hload; reflexivity).
  erewrite bind_ret by (unfold input; rewrite Hstdin; reflexivity).
  rewrite Hmatching.
  set (w0 := set_stdin rest (add_stdout _ w)).
  assert (Hmoves : for_each [(dest, src)] undo_one w0
                   = (Ret tt,
                      add_logged ERROR
                        ("Error moving " +:+ dest +:+ " back to " +:+ src +:+ ": "
                         +:+ str_exn FileNotFoundError) w0)).
  { cbn [for_each]. unfold undo_one, try_except. rewrite Hdir.
    unfold bind at 1. unfold bind at 1. reflexivity. }
  cbv beta iota. rewrite (bind_ret _ _ _ _ _ Hmoves).
  eexists. split; [reflexivity|]. split; [reflexivity|]. split; [reflexivity|].
  unfold stored_log. cbn [log_file add_logged set_log_file]. rewrite <- Hmatching.
  rewrite (remaining_data_filter _ data Hnodup).
  apply loads_dumps_indent4, filter_keys_nodup, Hnodup.
Qed.

(** ** The built-in table *)

(** [get_folder_name] answers with the first group that lists the
    extension. *)
Lemma get_folder_name_first (e : string) (before after : list (list string * string))
    (ext_group : list string) (folder_name : string) :
  In e ext_group ->
  (forall g f, In (g, f) before -> ~ In e g) ->
  get_folder_name e (before ++ (ext_group, folder_name) :: after) = folder_name.
Proof.
  intros Hin Hbefore. induction before as [|[g f] before IH]; simpl.
  - assert (Hex : existsb (String.eqb e) ext_group = true).
    { apply existsb_exists. exists e. split; [exact Hin | apply String.eqb_refl]. }
    rewrite Hex. reflexivity.
  - destruct (existsb (String.eqb e) g) eqn:Hex.
    + exfalso. apply existsb_exists in Hex as (e' & Hin' & Heq).
      apply String.eqb_eq in Heq. subst e'. apply (Hbefore g f); [left; reflexivity | exact Hin'].
    + apply IH. intros g' f' Hin'. apply (Hbefore g' f'). right. exact Hin'.
Qed.

Lemma get_folder_name_unlisted (e : string) (extensions_map : list (list string * string)) :
  (forall g f, In (g, f) extensions_map -> ~ In e g) ->
  get_folder_name e extensions_map = "Others".
Proof.
  induction extensions_map as [|[g f] rest IH]; intros Hnone; simpl; [reflexivity|].
  destruct (existsb (String.eqb e) g) eqn:Hex.
  - exfalso. apply existsb_exists in Hex as (e' & Hin' & Heq).
    apply String.eqb_eq in Heq. subst e'. apply (Hnone g f); [left; reflexivity | exact Hin'].
  - apply IH. intros g' f' Hin'. apply (Hnone g' f'). right. exact Hin'.
Qed.

(** X15: the built-in table is unambiguous.  Every extension listed in
    a group of [EXTENSIONS] is classified to the folder of that very
    group (no group is shadowed by an earlier one), and an extension
    listed in no group is classified to ["Others"]; the look-up is
    exact, so an extension in upper case is not found. *)
Theorem get_folder_name_builtin_table :
  (forall (ext_group : list string) (folder_name e : string),
      In (ext_group, folder_name) EXTENSIONS -> In e ext_group ->
      get_folder_name e EXTENSIONS = folder_name) /\
  (forall e : string,
      (forall g f, In (g, f) EXTENSIONS -> ~ In e g) ->
      get_folder_name e EXTENSIONS = "Others") /\
  get_folder_name ".JPG" EXTENSIONS = "Others".
Proof.
  split; [|split].
  - intros ext_group folder_name e Hgroup He.
    unfold EXTENSIONS in Hgroup. simpl in Hgroup.
    repeat (destruct Hgroup as [Hgroup|Hgroup];
            [inversion Hgroup; subst; clear Hgroup; simpl in He;
             repeat (destruct He as [He|He]; [subst e; reflexivity|]); destruct He|]).
    destruct Hgroup.
  - intros e. apply get_folder_name_unlisted.
  - reflexivity.
Qed.

(** ** Duplicates *)

Section DuplicateProperties.

Variable md5 : string -> string.

(** X16: a file whose digest was seen earlier in the scan is only
    listed.  It is appended to the duplicates with the path recorded
    for its digest, the hash map keeps that first-seen path (a third
    copy is paired with the same original), and the world is left
    exactly as it was: no move, no record in the log. *)
Theorem organize_file_lists_duplicate directory custom_rules root filename st w h original :
  fst (os_makedirs (folder_of directory custom_rules filename) w) = Ret tt ->
  fst (get_file_hash md5 (path_of root filename) w) = Ret h ->
  hash_map st !! h = Some original ->
  exists st',
    organize_file md5 directory custom_rules root filename st w = (Ret st', w) /\
    duplicates st' = duplicates st ++ [(path_of root filename, original)] /\
    hash_map st' = hash_map st /\
    hash_map st' !! h = Some original.
Proof.
  intros Hdirs Hhash Hseen.
  rewrite (organize_file_duplicate md5 _ _ _ _ _ _ _ _ Hdirs Hhash Hseen).
  eexists. split; [reflexivity|]. repeat split. exact Hseen.
Qed.

End DuplicateProperties.

(** The prompt skips the answers it does not know, and returns the
    first one it knows, stripped and in lower case. *)
Lemma ask_choice_skips (invalid : list string) :
  forall (answer : string) (rest : list string) (fuel : nat) (w : World),
    stdin w = invalid ++ answer :: rest ->
    forallb (fun line => negb (valid_choice (lower (strip line)))) invalid = true ->
    valid_choice (lower (strip answer)) = true ->
    (length invalid < fuel)%nat ->
    exists w',
      ask_choice fuel w = (Ret (lower (strip answer)), w') /\
      stdin w' = rest /\ fs w' = fs w /\ calls w' = calls w /\
      log_file w' = log_file w /\ logged w' = logged w /\
      length (stdout w') = (length (stdout w) + 2 * length invalid + 1)%nat.
Proof.
  induction invalid as [|line invalid IH]; intros answer rest fuel w Hstdin Hbad Hgood Hfuel;
    (destruct fuel as [|fuel]; [simpl in Hfuel; lia|]); cbn [ask_choice].
  - erewrite bind_ret by (unfold input; rewrite Hstdin; reflexivity).
    unfold valid_choice in Hgood. rewrite Hgood. eexists. split; [reflexivity|].
    simpl. rewrite length_app. simpl. repeat split; try reflexivity. lia.
  - erewrite bind_ret by (unfold input; rewrite Hstdin; reflexivity).
    simpl in Hbad. apply andb_prop in Hbad as [Hline Hbad].
    unfold valid_choice in Hline. apply negb_true_iff in Hline. rewrite Hline.
    erewrite bind_ret by reflexivity.
    edestruct (IH answer rest fuel) as (w' & Hrun & Hin & Hfs & Hcalls & Hlog & Hlogged & Hout);
      [| exact Hbad | exact Hgood | | exists w'; rewrite Hrun ].
    + reflexivity.
    + simpl in Hfuel. lia.
    + split; [reflexivity|]. rewrite Hin, Hfs, Hcalls, Hlog, Hlogged, Hout. simpl.
      rewrite !length_app. simpl. repeat split; try reflexivity. lia.
Qed.

(** X17: the answer [no] leaves every duplicate in place.  Whatever the
    duplicates, when the user, after any number of answers the prompt
    does not know, gives an answer that reads [no] once stripped and
    put in lower case, [handle_duplicates] returns without touching a
    file or the log; it has read the lines up to that answer and
    printed one complaint for each answer it skipped. *)
Theorem handle_duplicates_answer_no (dups : list (string * string))
    (invalid : list string) (answer : string) (rest : list string) (w : World) :
  dups <> [] ->
  stdin w = invalid ++ answer :: rest ->
  forallb (fun line => negb (valid_choice (lower (strip line)))) invalid = true ->
  lower (strip answer) = "no" ->
  exists w',
    handle_duplicates dups w = (Ret tt, w') /\
    fs w' = fs w /\ calls w' = calls w /\ log_file w' = log_file w /\
    stdin w' = rest /\
    length (stdout w') = (length (stdout w) + 2 * length invalid + 1)%nat.
Proof.
  intros Hdups Hstdin Hbad Hno.
  destruct dups as [|dup dups]; [contradiction|].
  unfold handle_duplicates.
  erewrite bind_ret by reflexivity.
  assert (Hlist : forall l idx w0, exists w1,
             log_duplicates idx l w0 = (Ret tt, w1) /\
             fs w1 = fs w0 /\ calls w1 = calls w0 /\ log_file w1 = log_file w0 /\
             stdin w1 = stdin w0 /\ stdout w1 = stdout w0).
  { induction l as [|[d o] l IHl]; intros idx w0.
    - exists w0. repeat split; reflexivity.
    - cbn [log_duplicates]. erewrite bind_ret by reflexivity.
      destruct (IHl (idx + 1) (add_logged INFO
                                 (str_int idx +:+ ". Duplicate: " +:+ d +:+ Json.newline
                                  +:+ "   Original: " +:+ o +:+ Json.newline) w0))
        as (w1 & Hrun & Hf & Hc & Hl & Hs & Ho).
      exists w1. split; [exact Hrun|]. rewrite Hf, Hc, Hl, Hs, Ho.
      repeat split; reflexivity. }
  destruct (Hlist (dup :: dups) 1
              (add_logged INFO (Json.newline +:+ "Duplicate Files Found:") w))
    as (w1 & Hrun1 & Hf1 & Hc1 & Hl1 & Hs1 & Ho1).
  rewrite (bind_ret _ _ _ _ _ Hrun1).
  erewrite bind_ret by (unfold gets; reflexivity).
  destruct (ask_choice_skips invalid answer rest (S (length (stdin w1))) w1)
    as (w2 & Hrun2 & Hs2 & Hf2 & Hc2 & Hl2 & _ & Ho2).
  - rewrite Hs1. exact Hstdin.
  - exact Hbad.
  - rewrite Hno. reflexivity.
  - rewrite Hs1. simpl. rewrite Hstdin, length_app. simpl. lia.
  - rewrite (bind_ret _ _ _ _ _ Hrun2). rewrite Hno. simpl.
    eexists. split; [reflexivity|]. simpl.
    rewrite Hf2, Hf1, Hc2, Hc1, Hl2, Hl1, Hs2, Ho2, Ho1. repeat split; reflexivity.
Qed.

(** Removing one duplicate: one call to [os.remove]; the file is gone,
    or the removal was refused, or there was no such file, and in both
    cases the files are as they were. *)
Lemma delete_one_effect (entry : string * string) (w : World) :
  exists outcome w',
    delete_one entry w = (Ret tt, w') /\
    calls w' = calls w ++ [os_remove_call (fst entry) outcome] /\
    log_file w' = log_file w /\
    move_faults w' = tail (move_faults w) /\
    (fs w' = fs w \/ fs w' = delete (fst entry) (fs w)) /\
    (hd None (move_faults w) = None -> fs w' = delete (fst entry) (fs w)).
Proof.
  destruct entry as [dup original]. unfold delete_one, try_except, bind, os_remove. cbn [fst].
  destruct (attempt_remove_cases (os_remove_call dup) dup w)
    as (outcome & w1 & Hremove & Hcalls & (Hlog & _) & Hscript & Hfiles).
  rewrite Hremove. exists outcome.
  destruct outcome as [e|]; cbn [answer].
  - eexists. split; [reflexivity|]. simpl.
    split; [exact Hcalls|]. split; [exact Hlog|]. split; [exact Hscript|].
    split; [left; exact Hfiles|].
    intros Hhead. rewrite Hfiles.
    unfold attempt_remove in Hremove.
    destruct (move_faults w) as [|fault rest]; simpl in Hhead, Hremove.
    + destruct (fs w !! dup) as [content|] eqn:Hfile; [discriminate Hremove|].
      symmetry. apply delete_id. exact Hfile.
    + subst fault. simpl in Hremove.
      destruct (fs w !! dup) as [content|] eqn:Hfile; [discriminate Hremove|].
      symmetry. apply delete_id. exact Hfile.
  - eexists. split; [reflexivity|]. simpl.
    split; [exact Hcalls|]. split; [exact Hlog|]. split; [exact Hscript|].
    split; [right; exact Hfiles|]. intros _. exact Hfiles.
Qed.

(** X18: deleting the duplicates.  [delete_files] always returns: each
    listed duplicate is given one call to [os.remove], and a file that
    cannot be removed is logged and the next one is tried.  Files only
    go, and only listed ones: every path holds what it held or, if it
    is a listed duplicate, nothing; the movement log is not touched.
    When the system refuses none of the removals, no listed duplicate
    exists afterwards. *)
Theorem delete_files_removes_listed (dups : list (string * string)) (w : World) :
  exists w',
    delete_files dups w = (Ret tt, w') /\
    remove_count w' = (remove_count w + length dups)%nat /\
    (forall p, fs w' !! p = fs w !! p \/ (In p (map fst dups) /\ fs w' !! p = None)) /\
    log_file w' = log_file w /\
    (Forall (eq None) (take (length dups) (move_faults w)) ->
     forall p, In p (map fst dups) -> fs w' !! p = None).
Proof.
  unfold delete_files. revert w. induction dups as [|entry dups IH]; intros w.
  - exists w. split; [reflexivity|]. split; [simpl; lia|].
    split; [intros p; left; reflexivity|]. split; [reflexivity|]. intros _ p [].
  - destruct (delete_one_effect entry w)
      as (outcome & w1 & Hone & Hcalls1 & Hlog1 & Hscript1 & Hfs1 & Hgone1).
    destruct (IH w1) as (w' & Hrest & Hcount & Honly & Hlog & Hgone).
    exists w'. cbn [for_each]. rewrite (bind_ret _ _ _ _ _ Hone).
    split; [exact Hrest|].
    destruct (counts_app w w1 _ Hcalls1) as (_ & _ & Hrc & _). simpl in Hrc.
    split; [simpl; lia|]. split; [|split; [congruence|]].
    + intros p. destruct (Honly p) as [Hsame | [Hin Hnone]].
      * rewrite Hsame. destruct Hfs1 as [Hfs1|Hfs1]; rewrite Hfs1; [left; reflexivity|].
        destruct (decide (p = fst entry)) as [->|Hne].
        -- right. split; [left; reflexivity | apply lookup_delete_eq].
        -- left. apply lookup_delete_ne. congruence.
      * right. split; [right; exact Hin | exact Hnone].
    + intros Hscript p Hin. simpl in Hscript.
      apply forall_none_take in Hscript as [Hhead Hscript].
      rewrite <- Hscript1 in Hscript. specialize (Hgone Hscript).
      destruct (in_dec string_dec p (map fst dups)) as [Hin'|Hout].
      * apply Hgone. exact Hin'.
      * destruct Hin as [Heq|Hin]; [|contradiction]. subst p.
        destruct (Honly (fst entry)) as [Hsame | [_ Hnone]]; [|exact Hnone].
        rewrite Hsame, (Hgone1 Hhead). apply lookup_delete_eq.
Qed.

Lemma backup_one_effect (backup_dir : string) (entry : string * string) (w : World) :
  exists w',
    backup_one backup_dir entry w = (Ret tt, w') /\
    rename_count w' = S (rename_count w) /\
    alerts w' = alerts w /\
    log_file w' = log_file w /\
    (forall p, p <> fst entry ->
               p <> Path.join backup_dir (Path.basename (fst entry)) ->
               fs w' !! p = fs w !! p).
Proof.
  destruct entry as [dup original]. unfold backup_one, try_except. cbn [fst].
  unfold bind at 1, os_rename.
  destruct (attempt_rename_cases
              (os_rename_call dup (Path.join backup_dir (Path.basename dup)))
              dup (Path.join backup_dir (Path.basename dup)) w)
    as (outcome & wm & Hmove & Hcalls & (Hlog & _ & _ & _ & _ & Hlogged) & Hfiles).
  rewrite Hmove.
  assert (Hcount : rename_count wm = S (rename_count w)).
  { unfold rename_count. rewrite Hcalls, List.filter_app, length_app. simpl. lia. }
  assert (Halerts : forall l msg, l <> CRITICAL -> alerts (add_logged l msg wm) = alerts w).
  { intros l msg Hl. rewrite alerts_add_logged. unfold alerts. rewrite Hlogged.
    destruct (bool_decide_reflect (l = CRITICAL)); [contradiction | apply app_nil_r]. }
  destruct outcome as [e|]; cbn [answer].
  - eexists. split; [reflexivity|]. split; [exact Hcount|].
    split; [apply Halerts; discriminate|]. split; [exact Hlog|].
    intros p _ _. simpl. rewrite Hfiles. reflexivity.
  - eexists. split; [reflexivity|]. split; [exact Hcount|].
    split; [apply Halerts; discriminate|]. split; [exact Hlog|].
    intros p Hsrc Hdst. simpl. apply (rename_files_frame _ _ _ _ _ Hfiles Hsrc Hdst).
Qed.

(** X19: backing the duplicates up.  When the backup directory can be
    made, [backup_duplicates] always returns: each duplicate is given
    exactly one call to [os.rename], without retry and without alert,
    an error being logged before the next duplicate is tried.  A file
    that is neither a listed duplicate nor the backup path of one is as
    it was, and the movement log is not touched: the moves to the
    backup directory are not recorded. *)
Theorem backup_duplicates_one_attempt_each (dups : list (string * string))
    (backup_dir : string) (w : World) :
  backup_dir <> "" ->
  fs w !! backup_dir = None ->
  exists w',
    backup_duplicates dups backup_dir w = (Ret tt, w') /\
    rename_count w' = (rename_count w + length dups)%nat /\
    alerts w' = alerts w /\
    log_file w' = log_file w /\
    (forall p,
        ~ In p (map fst dups) ->
        ~ In p (map (fun entry => Path.join backup_dir (Path.basename (fst entry))) dups) ->
        fs w' !! p = fs w !! p).
Proof.
  intros Hdir Hfree. unfold backup_duplicates.
  rewrite (bind_ret _ _ _ _ _ (os_makedirs_ok backup_dir w Hdir Hfree)).
  clear Hdir Hfree. revert w. induction dups as [|entry dups IH]; intros w.
  - exists w. split; [reflexivity|]. simpl. repeat split; try reflexivity. lia.
  - destruct (backup_one_effect backup_dir entry w)
      as (w1 & Hone & Hcount1 & Halerts1 & Hlog1 & Hframe1).
    destruct (IH w1) as (w' & Hrest & Hcount & Halerts & Hlog & Hframe).
    exists w'. cbn [for_each]. rewrite (bind_ret _ _ _ _ _ Hone).
    split; [exact Hrest|]. split; [simpl; lia|]. split; [congruence|].
    split; [congruence|].
    intros p Hsrc Hdst. simpl in Hsrc, Hdst.
    rewrite Hframe by tauto. apply Hframe1; intros Heq; subst p; tauto.
Qed.

(** X20: two duplicates of the same file name collide in the backup
    directory.  The backup path is made of the base name alone, and
    [os.rename] replaces an existing destination (POSIX): when two
    listed duplicates [d1] and [d2] have the same base name, both
    renames succeed, the backup path holds the content of [d2], and
    neither [d1] nor [d2] exists any more, so the content of [d1] is
    lost. *)
Theorem backup_duplicates_same_name_collide
    (d1 o1 d2 o2 c1 c2 backup_dir : string) (w : World) :
  backup_dir <> "" ->
  fs w !! backup_dir = None ->
  Forall (eq None) (move_faults w) ->
  fs w !! d1 = Some c1 ->
  fs w !! d2 = Some c2 ->
  d1 <> d2 ->
  Path.basename d1 = Path.basename d2 ->
  Path.join backup_dir (Path.basename d1) <> d1 ->
  Path.join backup_dir (Path.basename d1) <> d2 ->
  exists w',
    backup_duplicates [(d1, o1); (d2, o2)] backup_dir w = (Ret tt, w') /\
    calls w' = calls w
               ++ [os_rename_call d1 (Path.join backup_dir (Path.basename d1)) None;
                   os_rename_call d2 (Path.join backup_dir (Path.basename d1)) None] /\
    fs w' !! Path.join backup_dir (Path.basename d1) = Some c2 /\
    fs w' !! d1 = None /\
    fs w' !! d2 = None.
Proof.
  intros Hdir Hfree Hscript Hf1 Hf2 Hd12 Hname Ht1 Ht2.
  destruct (forall_none_head _ Hscript) as [Hhead Hscript'].
  assert (Hone : forall dup original content w0,
             hd None (move_faults w0) = None -> fs w0 !! dup = Some content ->
             backup_one backup_dir (dup, original) w0
             = (Ret tt,
                add_logged INFO
                  ("Moved " +:+ dup +:+ " to " +:+ Path.join backup_dir (Path.basename dup))
                  (add_call
                     (os_rename_call dup (Path.join backup_dir (Path.basename dup)) None)
                     (set_fs (<[Path.join backup_dir (Path.basename dup) := content]>
                                (delete dup (fs w0)))
                        (set_move_faults (tail (move_faults w0)) w0))))).
  { intros dup original content w0 Hh Hf. unfold backup_one, try_except.
    rewrite (bind_ret _ _ _ _ _ (os_rename_passes dup _ content w0 Hh Hf)). reflexivity. }
  unfold backup_duplicates.
  rewrite (bind_ret _ _ _ _ _ (os_makedirs_ok backup_dir w Hdir Hfree)).
  cbn [for_each].
  rewrite (bind_ret _ _ _ _ _ (Hone d1 o1 c1 w Hhead Hf1)).
  set (w1 := add_logged INFO _ _).
  assert (Hf2' : fs w1 !! d2 = Some c2).
  { simpl. rewrite lookup_insert_ne, lookup_delete_ne by congruence. exact Hf2. }
  assert (Hhead' : hd None (move_faults w1) = None).
  { simpl. apply (forall_none_head _ Hscript'). }
  rewrite (bind_ret _ _ _ _ _ (Hone d2 o2 c2 w1 Hhead' Hf2')).
  rewrite <- Hname.
  eexists. split; [reflexivity|]. simpl.
  split; [rewrite <- app_assoc; reflexivity|].
  split; [apply lookup_insert_eq|]. split.
  - rewrite lookup_insert_ne, lookup_delete_ne, lookup_insert_ne by congruence.
    apply lookup_delete_eq.
  - rewrite lookup_insert_ne by congruence. apply lookup_delete_eq.
Qed.

(** ** A whole pass *)

(** [load_custom_rules] reads and changes nothing; it raises on a
    store that [json.load] refuses. *)
Lemma load_custom_rules_world (w : World) :
  snd (load_custom_rules w) = w /\
  (refused (rules_file w) = true -> load_custom_rules w = (Raise JSONDecodeError, w)).
Proof.
  unfold load_custom_rules, refused, bind, gets, json_load.
  destruct (rules_file w) as [content|]; simpl.
  - destruct (Json.loads content); simpl; [split; [reflexivity | discriminate]|].
    destruct (Json.rejects content); simpl; split; try reflexivity; discriminate.
  - split; [reflexivity | discriminate].
Qed.

(** *** The first file with a digest *)

Lemma first_with_app (h : string) (seen : list (string * string)) (p h' : string) :
  first_with h (seen ++ [(p, h')])
  = match first_with h seen with
    | Some original => Some original
    | None => if String.eqb h' h then Some p else None
    end.
Proof.
  induction seen as [|[p0 h0] seen IH]; simpl; [reflexivity|].
  destruct (String.eqb h0 h); [reflexivity | exact IH].
Qed.

Lemma first_with_prefix (h original : string) (before rest : list (string * string)) :
  first_with h before = Some original -> first_with h (before ++ rest) = Some original.
Proof.
  induction before as [|[p0 h0] before IH]; simpl; [discriminate|].
  destruct (String.eqb h0 h); [trivial | exact IH].
Qed.

(** Every group pairs a file with the first file, among those read
    before it, that has its digest. *)
Lemma duplicate_groups_In (dup original : string) :
  forall (trace seen : list (string * string)),
    In (dup, original) (duplicate_groups seen trace) ->
    exists h before after,
      trace = before ++ (dup, h) :: after /\
      first_with h (seen ++ before) = Some original.
Proof.
  induction trace as [|[p h] trace IH]; intros seen Hin; [destruct Hin|].
  cbn [duplicate_groups] in Hin.
  assert (Hlater : In (dup, original) (duplicate_groups (seen ++ [(p, h)]) trace) ->
                   exists h0 before after,
                     (p, h) :: trace = before ++ (dup, h0) :: after /\
                     first_with h0 (seen ++ before) = Some original).
  { intros Hin'. destruct (IH _ Hin') as (h0 & before & after & Htrace & Hfirst).
    exists h0, ((p, h) :: before), after. split; [rewrite Htrace; reflexivity|].
    rewrite <- app_assoc in Hfirst. exact Hfirst. }
  destruct (first_with h seen) as [o|] eqn:Hseen; [|exact (Hlater Hin)].
  destruct Hin as [Heq|Hin]; [|exact (Hlater Hin)].
  inversion Heq; subst. exists h, [], trace. split; [reflexivity|].
  rewrite app_nil_r. exact Hseen.
Qed.

Section PassProperties.

Variable md5 : string -> string.
Variable os_walk : string -> list (string * list string).
Variable os_walk_dirs : string -> list (string * list string).
Variable dir_entries : string -> exn + list string.
Variable rmdir_fault : string -> option exn.

(** X21: the accounts of a scan.  When the scanning phase of
    [organize_files] comes to its end, every file of the walk has
    either been given one call to [shutil.move] or been listed as a
    duplicate, never both and never neither.  Each call to
    [shutil.move] made one call to [os.rename] and there was no other:
    nothing was retried, nothing paused, no file was removed and no
    alert was raised. *)
Theorem organize_scan_accounts (directory : string) (w w' : World) (st : scan_state) :
  organize_scan md5 os_walk directory w = (Ret st, w') ->
  (move_count w' + length (duplicates st)
   = move_count w + length (walk_files (os_walk directory)))%nat /\
  (rename_count w' + move_count w = rename_count w + move_count w')%nat /\
  sleep_count w' = sleep_count w /\
  remove_count w' = remove_count w /\
  alerts w' = alerts w.
Proof.
  unfold organize_scan. intros Hrun.
  erewrite bind_ret in Hrun by reflexivity.
  set (w0 := add_logged INFO _ w) in Hrun.
  pose proof (load_custom_rules_world w0) as (Hw & _).
  destruct (load_custom_rules w0) as [[rules|e|] w1] eqn:Hload; simpl in Hw; subst.
  - rewrite (bind_ret _ _ _ _ _ Hload) in Hrun.
    pose proof (organize_walk_counts md5 directory rules (os_walk directory)
                  (mkScan ∅ []) w0) as (Hrenames & _ & Hsleeps & Hremoves & Halerts & Hret).
    rewrite Hrun in Hrenames, Hsleeps, Hremoves, Halerts, Hret.
    simpl in Hrenames, Hsleeps, Hremoves, Halerts, Hret.
    specialize (Hret st eq_refl).
    unfold move_count, rename_count, sleep_count, remove_count in *.
    simpl in Hret, Hrenames, Hsleeps, Hremoves.
    split; [lia|]. split; [lia|]. split; [exact Hsleeps|]. split; [exact Hremoves|].
    rewrite Halerts. apply alerts_add_logged_quiet. discriminate.
  - rewrite (bind_raise _ _ _ _ _ Hload) in Hrun. discriminate Hrun.
  - unfold bind in Hrun. rewrite Hload in Hrun. discriminate Hrun.
Qed.

(** The clean-up, when every sub-directory can be listed: it returns,
    and has only written to the logger. *)
Lemma prune_subdir_quiet (root subdir : string) (names : list string) (w : World) :
  dir_entries (Path.join root subdir) = inr names ->
  exists w',
    prune_subdir dir_entries rmdir_fault root subdir w = (Ret tt, w') /\
    fs w' = fs w /\ calls w' = calls w /\ log_file w' = log_file w /\
    stdin w' = stdin w /\ stdout w' = stdout w.
Proof.
  intros Hlist. unfold prune_subdir, os_listdir, os_rmdir, try_except, bind.
  rewrite Hlist. simpl.
  destruct names as [|name names]; [|exists w; repeat split; reflexivity].
  destruct (rmdir_fault (Path.join root subdir)) as [e|]; simpl;
    eexists; (split; [reflexivity|]); repeat split; reflexivity.
Qed.

Lemma prune_empty_dirs_quiet (directory : string) (w : World) :
  (forall root dirs subdir,
      In (root, dirs) (os_walk_dirs directory) -> In subdir dirs ->
      exists names, dir_entries (Path.join root subdir) = inr names) ->
  exists w',
    prune_empty_dirs os_walk_dirs dir_entries rmdir_fault directory w = (Ret tt, w') /\
    fs w' = fs w /\ calls w' = calls w /\ log_file w' = log_file w /\
    stdin w' = stdin w /\ stdout w' = stdout w.
Proof.
  unfold prune_empty_dirs. generalize (os_walk_dirs directory). intros found Hlisted.
  revert w. induction found as [|[root dirs] found IH]; intros w.
  - exists w. repeat split; reflexivity.
  - cbn [for_each fst snd].
    assert (Hdirs : forall (subdirs : list string) (w0 : World),
               (forall subdir, In subdir subdirs -> In subdir dirs) ->
               exists w1,
                 for_each subdirs (prune_subdir dir_entries rmdir_fault root) w0
                 = (Ret tt, w1) /\
                 fs w1 = fs w0 /\ calls w1 = calls w0 /\ log_file w1 = log_file w0 /\
                 stdin w1 = stdin w0 /\ stdout w1 = stdout w0).
    { induction subdirs as [|subdir subdirs IHs]; intros w0 Hsub.
      - exists w0. repeat split; reflexivity.
      - destruct (Hlisted root dirs subdir) as [names Hnames];
          [left; reflexivity | apply Hsub; left; reflexivity |].
        destruct (prune_subdir_quiet root subdir names w0 Hnames)
          as (w1 & Hone & Hf1 & Hc1 & Hl1 & Hi1 & Ho1).
        destruct (IHs w1) as (w2 & Hrest & Hf2 & Hc2 & Hl2 & Hi2 & Ho2).
        { intros s Hs. apply Hsub. right. exact Hs. }
        exists w2. cbn [for_each]. rewrite (bind_ret _ _ _ _ _ Hone).
        split; [exact Hrest|]. repeat split; congruence. }
    destruct (Hdirs dirs w) as (w1 & Hone & Hf1 & Hc1 & Hl1 & Hi1 & Ho1); [trivial|].
    destruct (IH) with (w := w1) as (w2 & Hrest & Hf2 & Hc2 & Hl2 & Hi2 & Ho2).
    { intros root' dirs' subdir Hin Hsub. apply (Hlisted root' dirs' subdir); [right|];
        assumption. }
    exists w2. rewrite (bind_ret _ _ _ _ _ Hone).
    split; [exact Hrest|]. repeat split; congruence.
Qed.

(** X22: a pass over a directory without files.  When the walk yields
    no file, the custom rules load and the clean-up can list every
    sub-directory it finds, [organize_files] returns normally without
    asking anything: no file is touched, no call is made to move or
    remove one, the movement log is not created or changed, and the
    standard input is not read. *)
Theorem organize_files_empty_walk (directory : string) (rules : dict) (w : World) :
  walk_files (os_walk directory) = [] ->
  stored_rules w = Some rules ->
  (forall root dirs subdir,
      In (root, dirs) (os_walk_dirs directory) -> In subdir dirs ->
      exists names, dir_entries (Path.join root subdir) = inr names) ->
  exists w',
    organize_files md5 os_walk os_walk_dirs dir_entries rmdir_fault directory w
    = (Ret tt, w') /\
    fs w' = fs w /\ calls w' = calls w /\ log_file w' = log_file w /\
    stdin w' = stdin w /\ stdout w' = stdout w.
Proof.
  intros Hwalk Hrules Hlisted. unfold organize_files, organize_scan.
  rewrite bind_assoc. erewrite bind_ret by reflexivity.
  rewrite bind_assoc.
  erewrite bind_ret by (apply load_custom_rules_ok; exact Hrules).
  rewrite (bind_ret _ _ _ _ _
             (organize_walk_nil md5 directory rules _ (mkScan ∅ []) _ Hwalk)).
  cbn [duplicates handle_duplicates].
  erewrite bind_ret by reflexivity.
  set (w1 := add_logged INFO "No duplicate files found." _).
  destruct (prune_empty_dirs_quiet directory w1 Hlisted)
    as (w2 & Hprune & Hf & Hc & Hl & Hi & Ho).
  rewrite (bind_ret _ _ _ _ _ Hprune).
  eexists. split; [reflexivity|]. simpl. rewrite Hf, Hc, Hl, Hi, Ho.
  repeat split; reflexivity.
Qed.

(** X23: custom rules that [json.load] refuses stop the pass before it
    starts.  [organize_files] raises [JSONDecodeError] after its first
    log record: no file is scanned or moved, and the movement log is as
    it was. *)
Theorem organize_files_corrupt_rules (directory : string) (w : World) :
  refused (rules_file w) = true ->
  exists w',
    organize_files md5 os_walk os_walk_dirs dir_entries rmdir_fault directory w
    = (Raise JSONDecodeError, w') /\
    fs w' = fs w /\ calls w' = calls w /\ log_file w' = log_file w /\
    stdin w' = stdin w.
Proof.
  intros Hrules. unfold organize_files, organize_scan.
  rewrite bind_assoc. erewrite bind_ret by reflexivity.
  rewrite bind_assoc.
  erewrite bind_raise by (apply load_custom_rules_world; exact Hrules).
  eexists. split; [reflexivity|]. repeat split; reflexivity.
Qed.

(** X24: a movement log that [json.load] refuses costs the record, not
    the move.  A file that is not a duplicate is moved to its target;
    then [log_movement] raises, the exception is caught by the handler
    of the move and logged as an error of the move, and the scan goes
    on: the file is at its target with no record in the log, which is
    as it was. *)
Theorem organize_file_moves_without_record
    directory custom_rules root filename st w content :
  stores_apart w ->
  fs w !! folder_of directory custom_rules filename = None ->
  read_faults w !! path_of root filename = None ->
  fs w !! path_of root filename = Some content ->
  hash_map st !! md5 content = None ->
  hd None (move_faults w) = None ->
  refused (log_file w) = true ->
  exists w' detail,
    organize_file md5 directory custom_rules root filename st w
    = (Ret (mkScan (<[md5 content := path_of root filename]> (hash_map st))
                   (duplicates st)), w') /\
    fs w' = <[target_of directory custom_rules filename := content]>
              (delete (path_of root filename) (fs w)) /\
    log_file w' = log_file w /\
    calls w' = calls w
               ++ [os_rename_call (path_of root filename)
                     (target_of directory custom_rules filename) None;
                   shutil_move_call (path_of root filename)
                     (target_of directory custom_rules filename) None] /\
    logged w' = logged w
                ++ [(ERROR, "Error moving " +:+ path_of root filename +:+ ": " +:+ detail)].
Proof.
  intros _ Hfolder Hreadable Hfile Hnew Hhead Hrefused.
  pose proof (os_makedirs_ok _ w (folder_of_nonempty directory custom_rules filename) Hfolder)
    as Hdirs.
  pose proof (get_file_hash_ok md5 _ _ w Hreadable Hfile) as Hhash.
  unfold organize_file.
  change (Path.join directory
            (classify (lower (snd (Path.splitext filename))) custom_rules))
    with (folder_of directory custom_rules filename).
  change (Path.join root filename) with (path_of root filename).
  change (Path.join (folder_of directory custom_rules filename) filename)
    with (target_of directory custom_rules filename).
  set (p := path_of root filename) in *.
  set (t := target_of directory custom_rules filename) in *.
  rewrite (bind_ret _ _ _ _ _ Hdirs), (bind_ret _ _ _ _ _ Hhash), Hnew.
  unfold bind at 1, try_except.
  rewrite (bind_ret _ _ _ _ _ (shutil_move_passes p t content w Hhead Hfile)).
  set (wm := add_call _ _).
  assert (Hraise : log_movement p t wm = (Raise JSONDecodeError, wm)).
  { apply log_movement_corrupt_store_at. exact Hrefused. }
  rewrite (bind_raise _ _ _ _ _ Hraise).
  eexists _, _. split; [reflexivity|]. simpl.
  repeat split; try reflexivity. rewrite <- app_assoc. reflexivity.
Qed.

(** The scan and the digests it reads: the hash map holds, for every
    digest, the first file read with it, and the duplicates are the
    groups of the digests read. *)
Lemma organize_walk_groups directory custom_rules :
  forall (files : list (string * string)) (walk : list (string * list string))
         (st st' : scan_state) (w w' : World) (seen : list (string * string)),
    walk_files walk = files ->
    organize_walk md5 directory custom_rules walk st w = (Ret st', w') ->
    (forall h, hash_map st !! h = first_with h seen) ->
    map fst (digests_read md5 directory custom_rules files st w)
    = map (fun file => path_of (fst file) (snd file)) files /\
    (forall h, hash_map st' !! h
               = first_with h (seen ++ digests_read md5 directory custom_rules files st w)) /\
    duplicates st'
    = duplicates st
      ++ duplicate_groups seen (digests_read md5 directory custom_rules files st w).
Proof.
  induction files as [|[root filename] files IH];
    intros walk st st' w w' seen Hfiles Hrun Hinv.
  - rewrite (organize_walk_nil md5 directory custom_rules walk st w Hfiles) in Hrun.
    inversion Hrun; subst. simpl. rewrite !app_nil_r. repeat split. exact Hinv.
  - destruct (organize_walk_cons md5 directory custom_rules walk root filename files Hfiles)
      as (walk' & Hfiles' & Hstep).
    rewrite Hstep in Hrun. unfold bind in Hrun.
    destruct (organize_file md5 directory custom_rules root filename st w)
      as [[st1|e|] w1] eqn:Hfile; try discriminate Hrun.
    destruct (organize_file_step md5 _ _ _ _ _ _ _ _ Hfile) as (h & Hhash & Hst1).
    cbn [digests_read]. rewrite Hhash, Hfile.
    assert (Hinv1 : forall h0, hash_map st1 !! h0
                               = first_with h0 (seen ++ [(path_of root filename, h)])).
    { intros h0. rewrite first_with_app, <- Hinv, Hst1.
      destruct (hash_map st !! h) as [original|] eqn:Hseen; cbn [hash_map].
      - destruct (hash_map st !! h0) as [o|] eqn:Hseen0; [reflexivity|].
        destruct (String.eqb_spec h h0) as [Heq|Hne]; [congruence | reflexivity].
      - destruct (String.eqb_spec h h0) as [Heq|Hne].
        + subst h0. rewrite lookup_insert_eq, Hseen. reflexivity.
        + rewrite lookup_insert_ne by exact Hne.
          destruct (hash_map st !! h0); reflexivity. }
    destruct (IH walk' st1 st' w1 w' _ Hfiles' Hrun Hinv1) as (Hpaths & Hmap & Hdups).
    split; [simpl; rewrite Hpaths; reflexivity|]. split.
    + intros h0. rewrite Hmap, <- app_assoc. reflexivity.
    + rewrite Hdups. cbn [duplicate_groups]. rewrite <- Hinv, Hst1.
      destruct (hash_map st !! h) as [original|]; cbn [duplicates].
      * rewrite <- app_assoc. reflexivity.
      * reflexivity.
Qed.

(** X25: the original of a duplicate group is the first file read with
    the digest of the duplicate.  When the scanning loops come to
    their end, having read one digest per file, the hash map holds for
    every digest the first file read with it, and the duplicates are
    exactly the files whose digest had been read before, each paired
    with that first file; a file listed as a duplicate never replaces
    it. *)
Theorem organize_scan_originals_first_seen (directory : string) (custom_rules : dict)
    (walk : list (string * list string)) (w w' : World) (st : scan_state) :
  organize_walk md5 directory custom_rules walk (mkScan ∅ []) w = (Ret st, w') ->
  let trace := digests_read md5 directory custom_rules (walk_files walk) (mkScan ∅ []) w in
  map fst trace = map (fun file => path_of (fst file) (snd file)) (walk_files walk) /\
  (forall h, hash_map st !! h = first_with h trace) /\
  duplicates st = duplicate_groups [] trace /\
  (forall dup original,
      In (dup, original) (duplicates st) ->
      exists h before after,
        trace = before ++ (dup, h) :: after /\
        first_with h before = Some original /\
        hash_map st !! h = Some original).
Proof.
  intros Hrun trace.
  destruct (organize_walk_groups directory custom_rules (walk_files walk) walk
              (mkScan ∅ []) st w w' [] eq_refl Hrun) as (Hpaths & Hmap & Hdups).
  { intros h. apply lookup_empty. }
  fold trace in Hpaths, Hmap, Hdups. simpl in Hmap, Hdups.
  split; [exact Hpaths|]. split; [exact Hmap|]. split; [exact Hdups|].
  intros dup original Hin. rewrite Hdups in Hin.
  destruct (duplicate_groups_In dup original trace [] Hin)
    as (h & before & after & Htrace & Hfirst).
  simpl in Hfirst. exists h, before, after.
  split; [exact Htrace|]. split; [exact Hfirst|].
  rewrite Hmap, Htrace. apply first_with_prefix. exact Hfirst.
Qed.

End PassProperties.

(** ** The further properties on the sample worlds *)

Lemma retry_move_file_bounded_witness :
  (rename_files "inbox/report.txt" "inbox/Documents/report.txt" (fs busy_once_world)
   = Some (fs (snd (retry_move_file "inbox/report.txt" "inbox/Documents/report.txt"
                      3 2 busy_once_world))) /\
   alerts (snd (retry_move_file "inbox/report.txt" "inbox/Documents/report.txt"
                  3 2 busy_once_world)) = alerts busy_once_world) /\
  (ValueError = ValueError /\ -1 < 0).
Proof.
  split.
  - apply (proj1 (proj2 (proj2 (proj2
             (retry_move_file_bounded "inbox/report.txt" "inbox/Documents/report.txt"
                3 2 busy_once_world))))).
    vm_compute. reflexivity.
  - apply (proj2 (proj2 (proj2 (proj2 (proj2
             (retry_move_file_bounded "inbox/report.txt" "inbox/Documents/report.txt"
                3 (-1) busy_once_world)))))).
    + unfold sleep_in_range, sleep_max. lia.
    + vm_compute. reflexivity.
Defined.

Lemma retry_move_file_succeeds_after_failures_witness :
  exists w',
    retry_move_file "inbox/report.txt" "inbox/Documents/report.txt" 3 2 busy_once_world
    = (Ret true, w') /\
    rename_count w' = (rename_count busy_once_world + 2)%nat /\
    alerts w' = alerts busy_once_world /\
    fs w' = <["inbox/Documents/report.txt" := "report"]>
              (delete "inbox/report.txt" (fs busy_once_world)).
Proof.
  apply (retry_move_file_succeeds_after_failures
           "inbox/report.txt" "inbox/Documents/report.txt" 3 2 busy_once_world
           [Some PermissionError] [] "report").
  - lia.
  - reflexivity.
  - reflexivity.
  - reflexivity.
  - simpl. lia.
  - reflexivity.
Defined.

Lemma retry_move_file_stops_on_non_recoverable_witness :
  exists w',
    retry_move_file "inbox/report.txt" "inbox/Documents/report.txt" 3 2 vanishing_world
    = (Ret false, w') /\
    rename_count w' = (rename_count vanishing_world + 2)%nat /\
    alerts w' = alerts vanishing_world /\
    fs w' = fs vanishing_world.
Proof.
  apply (retry_move_file_stops_on_non_recoverable
           "inbox/report.txt" "inbox/Documents/report.txt" 3 2 vanishing_world
           [Some PermissionError] FileNotFoundError []).
  - lia.
  - reflexivity.
  - reflexivity.
  - reflexivity.
  - simpl. lia.
Defined.

Lemma retry_move_file_no_retries_witness :
  exists w' message,
    retry_move_file "inbox/report.txt" "inbox/Documents/report.txt" (-1) 2 busy_once_world
    = (Ret false, w') /\
    calls w' = calls busy_once_world /\
    alerts w' = alerts busy_once_world ++ [message] /\
    fs w' = fs busy_once_world.
Proof.
  apply (retry_move_file_no_retries
           "inbox/report.txt" "inbox/Documents/report.txt" (-1) 2 busy_once_world).
  lia.
Defined.

Lemma retry_move_file_negative_delay_witness :
  exists w',
    retry_move_file "inbox/report.txt" "inbox/Documents/report.txt" 3 (-1) busy_once_world
    = (Raise ValueError, w') /\
    rename_count w' = S (rename_count busy_once_world) /\
    alerts w' = alerts busy_once_world /\
    fs w' = fs busy_once_world.
Proof.
  apply (retry_move_file_negative_delay
           "inbox/report.txt" "inbox/Documents/report.txt" 3 (-1) busy_once_world
           PermissionError []).
  - lia.
  - lia.
  - reflexivity.
  - simpl. discriminate.
Defined.

Lemma save_then_load_custom_rules_witness :
  exists w',
    save_custom_rules [(".jpg", "Pictures"); (".raw", "Camera roll")] corrupt_rules_world
    = (Ret tt, w') /\
    load_custom_rules w' = (Ret [(".jpg", "Pictures"); (".raw", "Camera roll")], w') /\
    fs w' = fs corrupt_rules_world /\ log_file w' = log_file corrupt_rules_world.
Proof.
  apply (save_then_load_custom_rules
           [(".jpg", "Pictures"); (".raw", "Camera roll")] corrupt_rules_world).
  repeat constructor; simpl; intuition discriminate.
Defined.

Lemma add_custom_rule_then_load_witness :
  exists w',
    add_custom_rule ".jpg" "Pictures" empty_world = (Ret tt, w') /\
    load_custom_rules w' = (Ret (dict_set ".jpg" "Pictures" []), w') /\
    dict_get ".jpg" (dict_set ".jpg" "Pictures" []) = Some "Pictures" /\
    (forall other, other <> ".jpg" ->
       dict_get other (dict_set ".jpg" "Pictures" []) = dict_get other []) /\
    ("Pictures" <> "" -> classify ".jpg" (dict_set ".jpg" "Pictures" []) = "Pictures") /\
    fs w' = fs empty_world /\ log_file w' = log_file empty_world.
Proof.
  apply (add_custom_rule_then_load ".jpg" "Pictures" [] empty_world). reflexivity.
Defined.

Lemma custom_rules_corrupt_store_and_reset_witness :
  add_custom_rule ".jpg" "Pictures" corrupt_rules_world
  = (Raise JSONDecodeError, corrupt_rules_world) /\
  exists w',
    reset_custom_rules corrupt_rules_world = (Ret tt, w') /\
    rules_file w' = None /\
    load_custom_rules w' = (Ret [], w') /\
    fs w' = fs corrupt_rules_world /\ log_file w' = log_file corrupt_rules_world.
Proof.
  split.
  - apply (proj1 (custom_rules_corrupt_store_and_reset ".jpg" "Pictures" corrupt_rules_world)).
    reflexivity.
  - apply (proj2 (custom_rules_corrupt_store_and_reset ".jpg" "Pictures" corrupt_rules_world)).
    reflexivity.
Defined.

Lemma log_movement_appends_witness :
  exists w',
    log_movement "d/a.txt" "d/Documents/a.txt" empty_world = (Ret tt, w') /\
    stored_log w' = Some ([] ++ [("d/a.txt", "d/Documents/a.txt")]) /\
    stored_record "d/a.txt" w' = Some "d/Documents/a.txt" /\
    (forall k, k <> "d/a.txt" -> stored_record k w' = dict_get k []) /\
    fs w' = fs empty_world.
Proof.
  apply (log_movement_appends "d/a.txt" "d/Documents/a.txt" [] empty_world).
  - reflexivity.
  - constructor.
  - simpl. tauto.
Defined.

Lemma log_movement_idempotent_witness :
  exists w',
    log_movement "d/a.txt" "d/Documents/a.txt" empty_world = (Ret tt, w') /\
    log_movement "d/a.txt" "d/Documents/a.txt" w' = (Ret tt, w').
Proof.
  apply (log_movement_idempotent "d/a.txt" "d/Documents/a.txt" [] empty_world).
  - reflexivity.
  - constructor.
  - simpl. tauto.
Defined.

Lemma log_movement_corrupt_store_witness :
  log_movement "d/a.jpg" "d/Images/a.jpg" corrupt_log_tree
  = (Raise JSONDecodeError, corrupt_log_tree) /\
  refused (log_file (snd (log_movement "d/a.jpg" "d/Images/a.jpg" corrupt_log_tree))) = true.
Proof.
  apply (log_movement_corrupt_store "d/a.jpg" "d/Images/a.jpg" corrupt_log_tree).
  reflexivity.
Defined.

Lemma undo_drops_matching_records_witness :
  exists w',
    undo_selected_moves (undo_world " d/a.jpg ") = (Ret tt, w') /\
    stored_log w'
    = Some (List.filter (fun entry => negb (contains (strip " d/a.jpg ") (snd entry)))
                        undo_log).
Proof.
  apply (undo_drops_matching_records (Json.dumps_indent4 undo_log) " d/a.jpg " [] undo_log
           (undo_world " d/a.jpg ")).
  - reflexivity.
  - vm_compute. reflexivity.
  - reflexivity.
  - vm_compute. reflexivity.
Defined.

Lemma undo_without_match_changes_nothing_witness :
  exists w',
    undo_selected_moves (undo_world "elsewhere") = (Ret tt, w') /\
    fs w' = fs (undo_world "elsewhere") /\
    log_file w' = log_file (undo_world "elsewhere") /\
    calls w' = calls (undo_world "elsewhere").
Proof.
  apply (proj2 (undo_without_match_changes_nothing (undo_world "elsewhere"))
           (Json.dumps_indent4 undo_log) "elsewhere" [] undo_log).
  - reflexivity.
  - vm_compute. reflexivity.
  - reflexivity.
  - vm_compute. reflexivity.
Defined.

Lemma undo_restores_single_match_witness :
  exists w',
    undo_selected_moves (undo_world "d/a.jpg") = (Ret tt, w') /\
    fs w' = <["d/a.jpg" := "AAA"]> (delete "d/Images/a.jpg" (fs (undo_world "d/a.jpg"))) /\
    calls w' = calls (undo_world "d/a.jpg")
               ++ [os_rename_call "d/Images/a.jpg" "d/a.jpg" None;
                   shutil_move_call "d/Images/a.jpg" "d/a.jpg" None] /\
    stored_log w'
    = Some (List.filter (fun entry => negb (contains (strip "d/a.jpg") (snd entry)))
                        undo_log).
Proof.
  apply (undo_restores_single_match (Json.dumps_indent4 undo_log) "d/a.jpg"
           "d/Images/a.jpg" "d/a.jpg" "AAA" [] undo_log (undo_world "d/a.jpg")).
  - reflexivity.
  - vm_compute. reflexivity.
  - reflexivity.
  - vm_compute. reflexivity.
  - reflexivity.
  - vm_compute. discriminate.
  - reflexivity.
  - reflexivity.
Defined.

Lemma get_folder_name_builtin_table_witness :
  get_folder_name ".tar" EXTENSIONS = "Archives".
Proof.
  apply (proj1 get_folder_name_builtin_table
           [".zip"; ".rar"; ".7z"; ".tar"; ".gz"; ".bz2"; ".xz"] "Archives" ".tar").
  - simpl. tauto.
  - simpl. tauto.
Defined.

Lemma organize_file_lists_duplicate_witness :
  exists st',
    organize_file sample_digest "d" [] "d" "c.jpg" sample_seen (sample_tree "")
    = (Ret st', sample_tree "") /\
    duplicates st' = duplicates sample_seen ++ [(path_of "d" "c.jpg", "d/a.jpg")] /\
    hash_map st' = hash_map sample_seen /\
    hash_map st' !! "AAA" = Some "d/a.jpg".
Proof.
  apply (organize_file_lists_duplicate sample_digest "d" [] "d" "c.jpg" sample_seen
           (sample_tree "") "AAA" "d/a.jpg").
  - reflexivity.
  - reflexivity.
  - reflexivity.
Defined.

Lemma handle_duplicates_answer_no_witness :
  exists w',
    handle_duplicates [("d/c.jpg", "d/a.jpg")]
                      (set_stdin ["maybe"; " No "; "later"] (sample_tree ""))
    = (Ret tt, w') /\
    fs w' = fs (sample_tree "") /\
    calls w' = calls (sample_tree "") /\
    log_file w' = log_file (sample_tree "") /\
    stdin w' = ["later"] /\
    length (stdout w') = (length (stdout (sample_tree "")) + 2 * 1 + 1)%nat.
Proof.
  apply (handle_duplicates_answer_no [("d/c.jpg", "d/a.jpg")] ["maybe"] " No " ["later"]
           (set_stdin ["maybe"; " No "; "later"] (sample_tree ""))).
  - discriminate.
  - reflexivity.
  - vm_compute. reflexivity.
  - vm_compute. reflexivity.
Defined.

Lemma delete_files_removes_listed_witness :
  exists w',
    delete_files [("d/c.jpg", "d/a.jpg"); ("d/gone.jpg", "d/a.jpg")] (sample_tree "")
    = (Ret tt, w') /\
    remove_count w' = (remove_count (sample_tree "") + 2)%nat /\
    fs w' !! "d/c.jpg" = None /\
    fs w' !! "d/a.jpg" = Some "AAA".
Proof.
  destruct (delete_files_removes_listed
              [("d/c.jpg", "d/a.jpg"); ("d/gone.jpg", "d/a.jpg")] (sample_tree ""))
    as (w' & Hrun & Hcount & Honly & _ & Hgone).
  exists w'. split; [exact Hrun|]. split; [exact Hcount|]. split.
  - apply Hgone; [constructor | simpl; tauto].
  - destruct (Honly "d/a.jpg") as [Hsame | [Hin _]]; [rewrite Hsame; reflexivity|].
    simpl in Hin. exfalso. intuition discriminate.
Defined.

(** A removal that the system refuses: the duplicate stays, the error
    goes to the log, and [delete_files] returns all the same. *)
Example delete_files_refused_removal :
  let run := delete_files [("inbox/report.txt", "inbox/original.txt")] busy_once_world in
  fst run = Ret tt /\
  calls (snd run) = [os_remove_call "inbox/report.txt" (Some PermissionError)] /\
  fs (snd run) !! "inbox/report.txt" = Some "report" /\
  length (logged (snd run)) = 1%nat.
Proof. vm_compute. repeat split; reflexivity. Qed.

Lemma backup_duplicates_one_attempt_each_witness :
  exists w',
    backup_duplicates [("d/c.jpg", "d/a.jpg")] default_backup_dir (sample_tree "")
    = (Ret tt, w') /\
    rename_count w' = (rename_count (sample_tree "") + 1)%nat /\
    alerts w' = alerts (sample_tree "") /\
    log_file w' = log_file (sample_tree "") /\
    (forall p,
        ~ In p (map fst [("d/c.jpg", "d/a.jpg")]) ->
        ~ In p (map (fun entry => Path.join default_backup_dir (Path.basename (fst entry)))
                    [("d/c.jpg", "d/a.jpg")]) ->
        fs w' !! p = fs (sample_tree "") !! p).
Proof.
  apply (backup_duplicates_one_attempt_each [("d/c.jpg", "d/a.jpg")] default_backup_dir
           (sample_tree "")).
  - discriminate.
  - reflexivity.
Defined.

Lemma backup_duplicates_same_name_collide_witness :
  exists w',
    backup_duplicates [("d/x/a.jpg", "d/a.jpg"); ("d/y/a.jpg", "d/a.jpg")]
                      "backup" same_name_world
    = (Ret tt, w') /\
    calls w' = calls same_name_world
               ++ [os_rename_call "d/x/a.jpg" (Path.join "backup" (Path.basename "d/x/a.jpg"))
                                  None;
                   os_rename_call "d/y/a.jpg" (Path.join "backup" (Path.basename "d/x/a.jpg"))
                                  None] /\
    fs w' !! Path.join "backup" (Path.basename "d/x/a.jpg") = Some "second" /\
    fs w' !! "d/x/a.jpg" = None /\
    fs w' !! "d/y/a.jpg" = None.
Proof.
  apply (backup_duplicates_same_name_collide
           "d/x/a.jpg" "d/a.jpg" "d/y/a.jpg" "d/a.jpg" "first" "second" "backup"
           same_name_world).
  - discriminate.
  - reflexivity.
  - constructor.
  - reflexivity.
  - reflexivity.
  - discriminate.
  - reflexivity.
  - vm_compute. discriminate.
  - vm_compute. discriminate.
Defined.

Lemma organize_scan_accounts_witness :
  let w' := snd (organize_scan sample_digest sample_walk "d" (sample_tree "")) in
  (move_count w' + length (duplicates sample_scanned)
   = move_count (sample_tree "") + length (walk_files (sample_walk "d")))%nat /\
  (rename_count w' + move_count (sample_tree "")
   = rename_count (sample_tree "") + move_count w')%nat /\
  sleep_count w' = sleep_count (sample_tree "") /\
  remove_count w' = remove_count (sample_tree "") /\
  alerts w' = alerts (sample_tree "").
Proof.
  apply (organize_scan_accounts sample_digest sample_walk "d" (sample_tree "")
           (snd (organize_scan sample_digest sample_walk "d" (sample_tree "")))
           sample_scanned).
  vm_compute. reflexivity.
Defined.

Lemma organize_files_empty_walk_witness :
  exists w',
    organize_files sample_digest empty_walk sample_walk_dirs sample_dir_entries
      rmdir_passes "d" (sample_tree "")
    = (Ret tt, w') /\
    fs w' = fs (sample_tree "") /\ calls w' = calls (sample_tree "") /\
    log_file w' = log_file (sample_tree "") /\
    stdin w' = stdin (sample_tree "") /\ stdout w' = stdout (sample_tree "").
Proof.
  apply (organize_files_empty_walk sample_digest empty_walk sample_walk_dirs
           sample_dir_entries rmdir_passes "d" [] (sample_tree "")).
  - reflexivity.
  - reflexivity.
  - intros root dirs subdir Hin Hsub. simpl in Hin.
    destruct Hin as [Heq|[Heq|[Heq|[]]]]; inversion Heq; subst; simpl in Hsub;
      try destruct Hsub as [Heq'|[Heq'|[]]]; try destruct Hsub; subst;
      eexists; reflexivity.
Defined.

Lemma organize_files_corrupt_rules_witness :
  exists w',
    organize_files sample_digest sample_walk sample_walk_dirs sample_dir_entries
      rmdir_passes "d" corrupt_rules_world
    = (Raise JSONDecodeError, w') /\
    fs w' = fs corrupt_rules_world /\ calls w' = calls corrupt_rules_world /\
    log_file w' = log_file corrupt_rules_world /\
    stdin w' = stdin corrupt_rules_world.
Proof.
  apply (organize_files_corrupt_rules sample_digest sample_walk sample_walk_dirs
           sample_dir_entries rmdir_passes "d" corrupt_rules_world).
  reflexivity.
Defined.

Lemma organize_file_moves_without_record_witness :
  exists w' detail,
    organize_file sample_digest "d" [] "d" "a.jpg" (mkScan ∅ []) corrupt_log_tree
    = (Ret (mkScan (<[sample_digest "AAA" := path_of "d" "a.jpg"]> ∅) []), w') /\
    fs w' = <[target_of "d" [] "a.jpg" := "AAA"]>
              (delete (path_of "d" "a.jpg") (fs corrupt_log_tree)) /\
    log_file w' = log_file corrupt_log_tree /\
    calls w' = calls corrupt_log_tree
               ++ [os_rename_call (path_of "d" "a.jpg") (target_of "d" [] "a.jpg") None;
                   shutil_move_call (path_of "d" "a.jpg") (target_of "d" [] "a.jpg") None] /\
    logged w' = logged corrupt_log_tree
                ++ [(ERROR, "Error moving " +:+ path_of "d" "a.jpg" +:+ ": " +:+ detail)].
Proof.
  apply (organize_file_moves_without_record sample_digest "d" [] "d" "a.jpg"
           (mkScan ∅ []) corrupt_log_tree "AAA").
  - apply (stores_apart_listed _ [("d/a.jpg", "AAA"); ("d/b.txt", "BBB"); ("d/c.jpg", "AAA")]);
      reflexivity.
  - reflexivity.
  - reflexivity.
  - reflexivity.
  - reflexivity.
  - reflexivity.
  - reflexivity.
Defined.

Lemma organize_scan_originals_first_seen_witness :
  let trace := digests_read sample_digest "d" [] (walk_files (sample_walk "d"))
                 (mkScan ∅ []) (sample_tree "") in
  map fst trace
  = map (fun file => path_of (fst file) (snd file)) (walk_files (sample_walk "d")) /\
  (forall h, hash_map sample_scanned !! h = first_with h trace) /\
  duplicates sample_scanned = duplicate_groups [] trace /\
  (forall dup original,
      In (dup, original) (duplicates sample_scanned) ->
      exists h before after,
        trace = before ++ (dup, h) :: after /\
        first_with h before = Some original /\
        hash_map sample_scanned !! h = Some original).
Proof.
  apply (organize_scan_originals_first_seen sample_digest "d" [] (sample_walk "d")
           (sample_tree "")
           (snd (organize_walk sample_digest "d" [] (sample_walk "d") (mkScan ∅ [])
                   (sample_tree "")))
           sample_scanned).
  vm_compute. reflexivity.
Defined.

Lemma undo_bare_name_not_restored_witness :
  exists w',
    undo_selected_moves bare_name_world = (Ret tt, w') /\
    fs w' = fs bare_name_world /\
    calls w' = calls bare_name_world /\
    stored_log w'
    = Some (List.filter (fun entry => negb (contains (strip "a.jpg") (snd entry)))
                        [("Images/a.jpg", "a.jpg")]).
Proof.
  apply (undo_bare_name_not_restored (Json.dumps_indent4 [("Images/a.jpg", "a.jpg")])
           "a.jpg" "Images/a.jpg" "a.jpg" [] [("Images/a.jpg", "a.jpg")] bare_name_world).
  - reflexivity.
  - vm_compute. reflexivity.
  - reflexivity.
  - vm_compute. reflexivity.
  - reflexivity.
Defined.

(** The digests read over the sample directory, and the one group they
    make. *)
Example sample_directory_digests :
  digests_read sample_digest "d" [] (walk_files (sample_walk "d")) (mkScan ∅ [])
    (sample_tree "")
  = [("d/a.jpg", "AAA"); ("d/b.txt", "BBB"); ("d/c.jpg", "AAA")] /\
  duplicate_groups [] [("d/a.jpg", "AAA"); ("d/b.txt", "BBB"); ("d/c.jpg", "AAA")]
  = [("d/c.jpg", "d/a.jpg")].
Proof. vm_compute. split; reflexivity. Qed.
